(** * A shallow embedding of the log package's [RotateWriter]

    The Go source under verification is the size- and age-bounded rotating
    file writer (type [RotateWriter], package [log]).  Its methods are
    embedded as functions over an explicit state (the writer's fields, the
    contents of the writer's directory and the list of background
    compression jobs), the Go standard-library calls it makes ([filepath],
    [strings], [time], [os]) are modelled next to it, and the properties of
    the specification are stated and settled against these definitions. *)

From Stdlib Require Import ZArith Ascii String.
From Stdlib.Strings Require Import Byte.
From stdpp Require Import base tactics option list gmap strings pretty sorting.

Local Open Scope Z_scope.

(** Go strings are byte sequences. *)
Abbreviation gostring := (list ascii).
Abbreviation str s := (list_ascii_of_string s) (only parsing).
Abbreviation bytes s := (list_byte_of_string s) (only parsing).

(** ** Package [strings] *)

Module strings.

Fixpoint HasPrefix (s prefix : gostring) {struct prefix} : bool :=
  match prefix, s with
  | [], _ => true
  | _ :: _, [] => false
  | c :: prefix', d :: s' => bool_decide (c = d) && HasPrefix s' prefix'
  end.

Definition HasSuffix (s suffix : gostring) : bool :=
  (length suffix <=? length s)%nat
  && bool_decide (drop (length s - length suffix) s = suffix).

(** [strings.Split(s, sep)] for a one-byte separator: the fields around
    every occurrence of [sep]; the empty string yields one empty field. *)
Fixpoint Split (s : gostring) (sep : ascii) : list gostring :=
  match s with
  | [] => [[]]
  | c :: s' =>
      if bool_decide (c = sep) then [] :: Split s' sep
      else match Split s' sep with
           | [] => [[c]]
           | field :: fields => (c :: field) :: fields
           end
  end.

Fixpoint Join (elems : list gostring) (sep : gostring) : gostring :=
  match elems with
  | [] => []
  | [e] => e
  | e :: elems' => e ++ sep ++ Join elems' sep
  end.

End strings.

(** ** Package [path/filepath] (Unix) *)

Module filepath.

Definition IsPathSeparator (c : ascii) : bool := bool_decide (c = "/"%char).

(** [Ext]: scan from the last byte towards the first, stopping at a path
    separator; the extension starts at the first dot met.  [r] is the part
    still to scan, reversed, and [acc] the bytes already passed. *)
Fixpoint Ext_scan (r acc : gostring) : gostring :=
  match r with
  | [] => []
  | c :: r' =>
      if IsPathSeparator c then []
      else if bool_decide (c = "."%char) then c :: acc
      else Ext_scan r' (c :: acc)
  end.

Definition Ext (path : gostring) : gostring := Ext_scan (rev path) [].

Fixpoint dropSeparators (r : gostring) : gostring :=
  match r with
  | c :: r' => if IsPathSeparator c then dropSeparators r' else r
  | [] => []
  end.

Fixpoint lastElement (r acc : gostring) : gostring :=
  match r with
  | c :: r' => if IsPathSeparator c then acc else lastElement r' (c :: acc)
  | [] => acc
  end.

(** [Base]: the last element of the path, trailing separators removed. *)
Definition Base (path : gostring) : gostring :=
  match path with
  | [] => str "."
  | _ =>
      match lastElement (dropSeparators (rev path)) [] with
      | [] => str "/"
      | elem => elem
      end
  end.

End filepath.

(** ** Package [time]

    A [Time] is an instant, counted in nanoseconds from the Unix epoch; the
    process's local zone is taken to be UTC.  Only the layout
    ["2006-01-02"] is used by the writer. *)

Module time.

Definition Time := Z.

Definition Hour : Z := 3600 * 1000000000.
Definition nsPerDay : Z := 24 * Hour.

Definition isLeap (year : Z) : bool :=
  (year mod 4 =? 0) && (negb (year mod 100 =? 0) || (year mod 400 =? 0)).

Definition daysIn (month year : Z) : Z :=
  if (month =? 2) && isLeap year then 29
  else if month =? 2 then 28
  else if (month =? 4) || (month =? 6) || (month =? 9) || (month =? 11) then 30
  else 31.

(** Days since the epoch of a proleptic Gregorian date, and back. *)
Definition daysFromCivil (y m d : Z) : Z :=
  let y' := if m <=? 2 then y - 1 else y in
  let era := y' / 400 in
  let yoe := y' - era * 400 in
  let doy := (153 * (if 2 <? m then m - 3 else m + 9) + 2) / 5 + d - 1 in
  let doe := yoe * 365 + yoe / 4 - yoe / 100 + doy in
  era * 146097 + doe - 719468.

Definition civilOfDoe (era doe : Z) : Z * Z * Z :=
  let yoe := (doe - doe / 1460 + doe / 36524 - doe / 146096) / 365 in
  let doy := doe - (365 * yoe + yoe / 4 - yoe / 100) in
  let mp := (5 * doy + 2) / 153 in
  let d := doy - (153 * mp + 2) / 5 + 1 in
  let m := if mp <? 10 then mp + 3 else mp - 9 in
  (yoe + era * 400 + (if m <=? 2 then 1 else 0), m, d).

Definition civilFromDays (z : Z) : Z * Z * Z :=
  civilOfDoe ((z + 719468) / 146097) ((z + 719468) mod 146097).

(** [t.Date()] *)
Definition Date_of (t : Time) : Z * Z * Z := civilFromDays (t / nsPerDay).

(** [time.Date(y, m, d, 0, 0, 0, 0, time.UTC)] *)
Definition Date (y m d : Z) : Time := daysFromCivil y m d * nsPerDay.

Definition digits (u : N) : gostring := str (pretty u).

(** [appendInt]: the decimal form of [x], a minus sign first when
    negative, zero-padded to at least [width] digits. *)
Definition appendInt (x : Z) (width : nat) : gostring :=
  let ds := digits (Z.abs_N x) in
  (if x <? 0 then str "-" else [])
    ++ replicate (width - length ds) "0"%char ++ ds.

(** [t.Format("2006-01-02")] *)
Definition Format (t : Time) : gostring :=
  let '(y, m, d) := Date_of t in
  appendInt y 4 ++ str "-" ++ appendInt m 2 ++ str "-" ++ appendInt d 2.

Definition isDigit (c : ascii) : bool :=
  (48 <=? nat_of_ascii c)%nat && (nat_of_ascii c <=? 57)%nat.

Definition digitVal (c : ascii) : Z := Z.of_nat (nat_of_ascii c) - 48.

Fixpoint leadingInt (s : gostring) (x : Z) : Z * gostring :=
  match s with
  | c :: s' => if isDigit c then leadingInt s' (x * 10 + digitVal c) else (x, s)
  | [] => (x, [])
  end.

Definition atoi (s : gostring) : option Z :=
  let '(neg, s1) :=
    match s with
    | c :: s' =>
        if bool_decide (c = "-"%char) then (true, s')
        else if bool_decide (c = "+"%char) then (false, s')
        else (false, s)
    | [] => (false, s)
    end in
  match leadingInt s1 0 with
  | (q, []) => Some (if neg : bool then - q else q)
  | (_, _ :: _) => None
  end.

(** [getnum(s, fixed)]: one or two digits, exactly two when [fixed]. *)
Definition getnum (s : gostring) (fixed : bool) : option (Z * gostring) :=
  match s with
  | c0 :: s1 =>
      if isDigit c0 then
        match s1 with
        | c1 :: s2 =>
            if isDigit c1 then Some (digitVal c0 * 10 + digitVal c1, s2)
            else if fixed then None else Some (digitVal c0, s1)
        | [] => if fixed then None else Some (digitVal c0, s1)
        end
      else None
  | [] => None
  end.

(** [skip(value, "-")] *)
Definition skipDash (value : gostring) : option gostring :=
  match value with
  | c :: value' => if bool_decide (c = "-"%char) then Some value' else None
  | [] => None
  end.

(** The long-year chunk: four bytes, the first a digit, read by [atoi]. *)
Definition longYear (value : gostring) : option (Z * gostring) :=
  match value with
  | c0 :: c1 :: c2 :: c3 :: value' =>
      if isDigit c0 then
        match atoi [c0; c1; c2; c3] with
        | Some y => Some (y, value')
        | None => None
        end
      else None
  | _ => None
  end.

(** [time.Parse("2006-01-02", value)]; [None] stands for the error. *)
Definition Parse (value : gostring) : option Time :=
  '(year, value) ← longYear value;
  value ← skipDash value;
  '(month, value) ← getnum value true;
  if (month <=? 0) || (12 <? month) then None else
  value ← skipDash value;
  '(day, value) ← getnum value true;
  match value with
  | _ :: _ => None
  | [] =>
      if (day <? 1) || (daysIn month year <? day) then None
      else Some (Date year month day)
  end.

Definition Before (t u : Time) : bool := t <? u.
Definition After (t u : Time) : bool := u <? t.
Definition Add (t : Time) (d : Z) : Time := t + d.

End time.

(** ** Sorting

    [sort.Sort] is modelled as the insertion sort Go runs on short slices
    (at most 12 elements); it is stable.  Each element moves left past the
    elements it is [less] than. *)

Section Sorting.
Context {A : Type} (less : A -> A -> bool).

Fixpoint insertSorted (x : A) (l : list A) : list A :=
  match l with
  | [] => [x]
  | y :: l' => if less x y then x :: y :: l' else y :: insertSorted x l'
  end.

Definition sortBy (l : list A) : list A :=
  foldl (fun acc x => insertSorted x acc) [] l.
End Sorting.

(** ** Package [os]: the directory of the log file

    The file system is reduced to the one directory the writer works in,
    [filepath.Dir(w.filename)]: a finite map from base names to entries.  A
    path [filepath.Join(dir, name)] is identified with [name].  Failures of
    system calls are not derived from the state: they are injected by the
    environment of a call ([Env]), which also carries the wall clock.  A
    flag of the environment stands for every call of its kind that the
    method call makes: with [stat_err], every [os.Stat] of the call fails,
    on the live path and on the backup paths alike; a call in which only
    some of them fail is not among the environments.  A created file is
    given the permission bits asked for: the umask of the process is taken
    to be 0. *)

Module os.

Definition FileMode := Z.

Record File := mkFile {
  isDir : bool;
  mode : FileMode;
  data : list byte;
}.

Record DirEntry := mkDirEntry {
  Name : gostring;
  IsDir : bool;
}.

Record Env := mkEnv {
  now : time.Time;            (* time.Now() *)
  mkdir_err : bool;           (* os.MkdirAll fails *)
  stat_err : bool;            (* os.Stat fails, not with IsNotExist *)
  rename_err : bool;          (* os.Rename fails *)
  create_err : bool;          (* os.OpenFile(O_CREATE|O_WRONLY|O_TRUNC) fails *)
  append_err : bool;          (* os.OpenFile(O_APPEND|O_WRONLY) fails *)
  close_err : bool;           (* File.Close returns an error *)
  write_limit : option nat;   (* File.Write stops after so many bytes, with an error *)
  readdir_err : bool;         (* os.ReadDir fails *)
  remove_err : gostring -> bool;  (* os.Remove of this name fails *)
}.

Inductive StatResult :=
| StatOk (info : File)
| StatNotExist
| StatError.

Definition Stat (env : Env) (fs : gmap gostring File) (name : gostring) : StatResult :=
  if stat_err env then StatError
  else match fs !! name with
       | Some info => StatOk info
       | None => StatNotExist
       end.

Definition Size (info : File) : Z := Z.of_nat (length (data info)).

Definition Rename (fs : gmap gostring File) (oldname newname : gostring)
  : gmap gostring File :=
  match fs !! oldname with
  | Some f => <[newname := f]> (delete oldname fs)
  | None => fs
  end.

(** [os.OpenFile(name, O_CREATE|O_WRONLY|O_TRUNC, perm)]: [None] is the
    error. An existing regular file is truncated and keeps its mode. *)
Definition OpenFile_create (env : Env) (fs : gmap gostring File)
    (name : gostring) (perm : FileMode) : option (gmap gostring File) :=
  if create_err env then None
  else match fs !! name with
       | Some f =>
           if isDir f then None
           else Some (<[name := mkFile false (mode f) []]> fs)
       | None => Some (<[name := mkFile false perm []]> fs)
       end.

(** [os.OpenFile(name, O_APPEND|O_WRONLY, 0644)]: [true] when it opens. *)
Definition OpenFile_append (env : Env) (fs : gmap gostring File)
    (name : gostring) : bool :=
  negb (append_err env)
  && match fs !! name with
     | Some f => negb (isDir f)
     | None => false
     end.

Definition Remove (env : Env) (fs : gmap gostring File) (name : gostring)
  : gmap gostring File :=
  if remove_err env name then fs else delete name fs.

Fixpoint name_ltb (a b : gostring) : bool :=
  match a, b with
  | _, [] => false
  | [], _ :: _ => true
  | c :: a', d :: b' =>
      (nat_of_ascii c <? nat_of_ascii d)%nat
      || (bool_decide (c = d) && name_ltb a' b')
  end.

(** [os.ReadDir]: the entries of the directory, sorted by file name. *)
Definition ReadDir (fs : gmap gostring File) : list DirEntry :=
  sortBy (fun a b => name_ltb (Name a) (Name b))
         ((fun kv => mkDirEntry kv.1 (isDir kv.2)) <$> map_to_list fs).

End os.

(** The environment in which no system call fails. *)
Definition calm (now : time.Time) : os.Env :=
  os.mkEnv now false false false false false false None false (fun _ => false).

(** ** Package [log]: the rotating writer

    Conventions of the embedding.
    - The byte counts ([size], [maxSize], file sizes, write lengths) are
      [int64] in the source; their sums are taken in [Z], without the
      wrap-around, which needs a file of nearly 2^63 bytes to show: the
      two size tests of the source ([Write], [openExistingOrNew]) are the
      tests made here as long as the sum tested is within the range of
      [int64] ([exact64] below).  The two products over configuration
      values ([NewRotateWriter], the cutoff of [mill]) keep the
      wrap-around.
    - An open file is named by the directory entry it was opened on.  The
      source closes the handle before every rename, and the sweep never
      removes the live file ([timeFromName_active] below), so the entry and
      the open file stay the same thing.  A write appends: the only handle
      not opened for appending is on a file created empty.
    - [w.filename] is taken to name a file in its directory: its entry is
      [filepath.Base(w.filename)].
    - The mutex is not modelled: calls do not overlap here. *)

Module log.

(** The errors the writer builds or passes on, one constructor for each
    place of the source that produces one. *)
Inductive error :=
| ErrOversize (writeLen maxSize : Z) (* "write length %d exceeds maximum file size %d" *)
| ErrFileInfo                        (* "error getting log file info: %s" *)
| ErrMkdir                           (* "can't make directories for new logfile: %s" *)
| ErrRename                          (* "can't rename log file: %s" *)
| ErrOpenNew                         (* "can't open new logfile: %s" *)
| ErrReadDir                         (* "can't read log file directory: %s" *)
| ErrMismatchedPrefix                (* "mismatched prefix" *)
| ErrMismatchedExt                   (* "mismatched extension" *)
| ErrTimestampFormat                 (* "invalid timestamp format" *)
| ErrParse                           (* the error of time.Parse *)
| ErrClose                           (* the error of File.Close *)
| ErrWrite                           (* the error of File.Write *)
| ErrInvalid.                        (* os.ErrInvalid: a method of a nil File *)

(** A 64-bit signed integer keeps the low 64 bits of a result. *)
Definition int64 (x : Z) : Z := (x + 2 ^ 63) mod 2 ^ 64 - 2 ^ 63.

Record RotateWriter := mkRotateWriter {
  filename : gostring;
  maxSize : Z;              (* bytes *)
  maxAge : Z;               (* days *)
  maxBackups : Z;
  compress : bool;
  file : option gostring;   (* the open file, by the name it was opened under; None is nil *)
  size : Z;
}.

Definition NewRotateWriter (filename : gostring) (maxSize maxAge maxBackups : Z)
    (compress : bool) : RotateWriter :=
  {| filename := filename;
     maxSize := int64 (int64 (int64 maxSize * 1024) * 1024);
     maxAge := maxAge;
     maxBackups := maxBackups;
     compress := compress;
     file := None;
     size := 0 |}.

Definition set_file (f : option gostring) (w : RotateWriter) : RotateWriter :=
  mkRotateWriter (filename w) (maxSize w) (maxAge w) (maxBackups w) (compress w)
                 f (size w).

Definition set_size (n : Z) (w : RotateWriter) : RotateWriter :=
  mkRotateWriter (filename w) (maxSize w) (maxAge w) (maxBackups w) (compress w)
                 (file w) n.

(** The state a method call works on: the writer, its directory, and the
    names handed to [go w.compressFile(...)] so far. *)
Record State := mkState {
  writer : RotateWriter;
  dirents : gmap gostring os.File;
  compressJobs : list gostring;
}.

(** A method is a state transformer; [None] is a call that yields no
    result: a run-time panic, or a loop that does not end. *)
Definition M (A : Type) : Type := State -> option (A * State).

#[global] Instance M_ret : MRet M := fun A a st => Some (a, st).
#[global] Instance M_bind : MBind M := fun A B k m st =>
  match m st with
  | Some (a, st') => k a st'
  | None => None
  end.

Definition getWriter : M RotateWriter := fun st => Some (writer st, st).
Definition getDirents : M (gmap gostring os.File) := fun st => Some (dirents st, st).
Definition putWriter (w : RotateWriter) : M unit := fun st =>
  Some (tt, mkState w (dirents st) (compressJobs st)).
Definition putDirents (fs : gmap gostring os.File) : M unit := fun st =>
  Some (tt, mkState (writer st) fs (compressJobs st)).
Definition goCompressFile (name : gostring) : M unit := fun st =>
  Some (tt, mkState (writer st) (dirents st) (compressJobs st ++ [name])).
Definition panic {A} : M A := fun _ => None.

(** [s[lo:hi]]: panics unless [lo <= hi <= len(s)]. *)
Definition slice (s : gostring) (lo hi : nat) : option gostring :=
  if (lo <=? hi)%nat && (hi <=? length s)%nat
  then Some (take (hi - lo) (drop lo s)) else None.

(** The key of [w.filename] in the writer's directory. *)
Definition activeName (w : RotateWriter) : gostring := filepath.Base (filename w).

(** [prefixAndExt] *)
Definition prefixAndExt (w : RotateWriter) : gostring * gostring :=
  let filename := filepath.Base (filename w) in
  let ext := filepath.Ext filename in
  let prefix := take (length filename - length ext) filename ++ str "-" in
  (prefix, ext).

(** [timeFromName]; the outer [None] is the out-of-range slice. *)
Definition timeFromName (filename prefix ext : gostring)
  : option (time.Time * option error) :=
  if negb (strings.HasPrefix filename prefix) then
    Some (time.Date 1 1 1, Some ErrMismatchedPrefix)
  else if negb (strings.HasSuffix filename ext) then
    Some (time.Date 1 1 1, Some ErrMismatchedExt)
  else
    ts ← slice filename (length prefix) (length filename - length ext);
    let parts := strings.Split ts "-"%char in
    if (length parts <? 4)%nat then
      Some (time.Date 1 1 1, Some ErrTimestampFormat)
    else
      let dateStr := strings.Join (take 3 (drop 1 parts)) (str "-") in
      match time.Parse dateStr with
      | Some t => Some (t, None)
      | None => Some (time.Date 1 1 1, Some ErrParse)
      end.

Record logInfo := mkLogInfo {
  timestamp : time.Time;
  DirEntry : os.DirEntry;
}.

(** [byFormatTime.Less] *)
Definition byFormatTime_Less (a b : logInfo) : bool :=
  time.After (timestamp a) (timestamp b).

(** The loop of [oldLogFiles] over the directory entries. *)
Fixpoint collectLogFiles (prefix ext : gostring) (files : list os.DirEntry)
    (logFiles : list logInfo) : option (list logInfo) :=
  match files with
  | [] => Some logFiles
  | f :: files' =>
      if os.IsDir f then collectLogFiles prefix ext files' logFiles
      else
        match timeFromName (os.Name f) prefix ext with
        | None => None
        | Some (t, None) =>
            collectLogFiles prefix ext files' (logFiles ++ [mkLogInfo t f])
        | Some (_, Some _) => collectLogFiles prefix ext files' logFiles
        end
  end.

(** [oldLogFiles] *)
Definition oldLogFiles (env : os.Env) : M (list logInfo * option error) :=
  w ← getWriter;
  fs ← getDirents;
  if os.readdir_err env then mret ([], Some ErrReadDir)
  else
    let files := os.ReadDir fs in
    let '(prefix, ext) := prefixAndExt w in
    match collectLogFiles prefix ext files [] with
    | None => panic
    | Some logFiles => mret (sortBy byFormatTime_Less logFiles, None)
    end.

(** [mill] *)
Definition mill (env : os.Env) : M unit :=
  w ← getWriter;
  if (maxBackups w =? 0) && (maxAge w =? 0) then mret tt
  else
    '(files, err) ← oldLogFiles env;
    match err with
    | Some _ => mret tt
    | None =>
        let '(deletes, files) :=
          if (0 <? maxBackups w) && (maxBackups w <? Z.of_nat (length files))
          then (drop (Z.to_nat (maxBackups w)) files,
                take (Z.to_nat (maxBackups w)) files)
          else ([], files) in
        let deletes :=
          if 0 <? maxAge w then
            let diff := int64 (int64 (24 * time.Hour) * int64 (maxAge w)) in
            let cutoff := time.Add (os.now env) (int64 (-1 * diff)) in
            deletes ++ filter (fun f => time.Before (timestamp f) cutoff = true) files
          else deletes in
        fs ← getDirents;
        putDirents
          (foldl (fun fs f => os.Remove env fs (os.Name (DirEntry f))) fs deletes)
    end.

(** The name built by [fmt.Sprintf("%s-%s-%d%s", prefix, timestamp, index, ext)]. *)
Definition backupFileName (prefix timestamp : gostring) (index : nat)
    (ext : gostring) : gostring :=
  prefix ++ str "-" ++ timestamp ++ str "-" ++ str (pretty index) ++ ext.

(** The loop of [backupName], given [fuel] iterations. *)
Fixpoint backupName_loop (env : os.Env) (fs : gmap gostring os.File)
    (prefix timestamp ext : gostring) (fuel index : nat) : option gostring :=
  match fuel with
  | O => None
  | S fuel' =>
      let backupPath := backupFileName prefix timestamp index ext in
      match os.Stat env fs backupPath with
      | os.StatNotExist => Some backupPath
      | _ => backupName_loop env fs prefix timestamp ext fuel' (S index)
      end
  end.

(** [backupName].  The loop is given one iteration more than the directory
    has entries. *)
Definition backupName (env : os.Env) (fs : gmap gostring os.File)
    (name : gostring) (t : time.Time) : option gostring :=
  let filename := filepath.Base name in
  let ext := filepath.Ext filename in
  let prefix := take (length filename - length ext) filename in
  let timestamp := time.Format t in
  backupName_loop env fs prefix timestamp ext (S (base.size fs)) 1.

(** [close] *)
Definition close (env : os.Env) : M (option error) :=
  w ← getWriter;
  match file w with
  | None => mret None
  | Some _ =>
      let err := if os.close_err env then Some ErrClose else None in
      _ ← putWriter (set_file None w);
      mret err
  end.

(** [Close] (the mutex is not modelled: calls do not overlap here) *)
Definition Close (env : os.Env) : M (option error) := close env.

(** [openNew] *)
Definition openNew (env : os.Env) : M (option error) :=
  if os.mkdir_err env then mret (Some ErrMkdir)
  else
    w ← getWriter;
    fs ← getDirents;
    let name := activeName w in
    let create (mode : os.FileMode) : M (option error) :=
      fs ← getDirents;
      match os.OpenFile_create env fs name mode with
      | None => mret (Some ErrOpenNew)
      | Some fs' =>
          _ ← putDirents fs';
          _ ← putWriter (set_size 0 (set_file (Some name) w));
          mret None
      end in
    match os.Stat env fs name with
    | os.StatOk info =>
        match backupName env fs (filename w) (os.now env) with
        | None => panic
        | Some newname =>
            if os.rename_err env then mret (Some ErrRename)
            else
              _ ← putDirents (os.Rename fs name newname);
              _ ← (if compress w then goCompressFile newname else mret tt);
              create (os.mode info)
        end
    | _ => create 420
    end.

(** [rotate] *)
Definition rotate (env : os.Env) : M (option error) :=
  err ← close env;
  match err with
  | Some e => mret (Some e)
  | None =>
      err ← openNew env;
      match err with
      | Some e => mret (Some e)
      | None => _ ← mill env; mret None
      end
  end.

(** [openExistingOrNew] *)
Definition openExistingOrNew (env : os.Env) (writeLen : nat) : M (option error) :=
  _ ← mill env;
  w ← getWriter;
  fs ← getDirents;
  let filename := activeName w in
  match os.Stat env fs filename with
  | os.StatNotExist => openNew env
  | os.StatError => mret (Some ErrFileInfo)
  | os.StatOk info =>
      if maxSize w <=? os.Size info + Z.of_nat writeLen then rotate env
      else if negb (os.OpenFile_append env fs filename) then openNew env
      else
        _ ← putWriter (set_size (os.Size info) (set_file (Some filename) w));
        mret None
  end.

(** [w.file.Write(p)]: the bytes are appended to the file the handle was
    opened on; with a write limit only so many arrive, and an error. *)
Definition fileWrite (env : os.Env) (p : list byte) : M (Z * option error) :=
  w ← getWriter;
  match file w with
  | None => mret (0, Some ErrInvalid)
  | Some h =>
      let '(q, err) :=
        match os.write_limit env with
        | None => (p, None)
        | Some k => (take k p, Some ErrWrite)
        end in
      fs ← getDirents;
      _ ← putDirents
            (alter (fun f => os.mkFile (os.isDir f) (os.mode f) (os.data f ++ q)) h fs);
      mret (Z.of_nat (length q), err)
  end.

(** [Write] *)
Definition Write (env : os.Env) (p : list byte) : M (Z * option error) :=
  w ← getWriter;
  let writeLen := Z.of_nat (length p) in
  if maxSize w <? writeLen then mret (0, Some (ErrOversize writeLen (maxSize w)))
  else
    err ← (match file w with
           | None => openExistingOrNew env (length p)
           | Some _ => mret None
           end);
    match err with
    | Some e => mret (0, Some e)
    | None =>
        w ← getWriter;
        err ← (if maxSize w <? size w + writeLen then rotate env else mret None);
        match err with
        | Some e => mret (0, Some e)
        | None =>
            '(n, err) ← fileWrite env p;
            w ← getWriter;
            _ ← putWriter (set_size (size w + n) w);
            mret (n, err)
        end
    end.

End log.

(** ** Predicates and values the statements use *)

Import log.

(** The part of a file name before its extension, as [prefixAndExt] and
    [backupName] compute it. *)
Definition stem (s : gostring) : gostring :=
  take (length s - length (filepath.Ext s)) s.

(** No name in the directory makes [timeFromName] slice out of range. *)
Definition sweepSafe (w : RotateWriter) (fs : gmap gostring os.File) : Prop :=
  forall n f, fs !! n = Some f -> os.isDir f = false ->
    timeFromName n (prefixAndExt w).1 (prefixAndExt w).2 <> None.

(** The same as a check that runs. *)
Definition sweepSafeb (w : RotateWriter) (fs : gmap gostring os.File) : bool :=
  forallb (fun kv : gostring * os.File =>
             os.isDir kv.2
             || match timeFromName kv.1 (prefixAndExt w).1 (prefixAndExt w).2 with
                | Some _ => true
                | None => false
                end)
          (map_to_list fs).

(** Two writers with the same configuration fields. *)
Definition sameConfig (w w' : RotateWriter) : Prop :=
  filename w' = filename w /\ maxSize w' = maxSize w /\ maxAge w' = maxAge w
  /\ maxBackups w' = maxBackups w /\ compress w' = compress w.

(** The handle is open on the live file, and [size] is that file's size. *)
Definition opened (st : State) : Prop :=
  file (writer st) = Some (activeName (writer st))
  /\ exists f, dirents st !! activeName (writer st) = Some f
               /\ os.isDir f = false
               /\ size (writer st) = os.Size f.

(** The errors of [openNew]: directory creation, rename, creation of the
    new file. *)
Definition rotationError (e : error) : Prop :=
  e = ErrMkdir \/ e = ErrRename \/ e = ErrOpenNew.

(** The state of the writer between calls: no handle, or a handle on the
    live file whose size is accounted for and within the limit. *)
Definition handleOk (st : State) : Prop :=
  file (writer st) = None
  \/ (opened st /\ size (writer st) <= maxSize (writer st)).

(** None of the calls of [openNew] fails. *)
Definition noRotationFault (env : os.Env) : Prop :=
  os.mkdir_err env = false /\ os.stat_err env = false
  /\ os.rename_err env = false /\ os.create_err env = false.

(** A run of [Write] calls, each in its own environment; [None] once a
    call yields no result. *)
Fixpoint WriteAll (ops : list (os.Env * list byte)) (st : State) : option State :=
  match ops with
  | [] => Some st
  | (env, p) :: ops' =>
      match Write env p st with
      | Some (_, st') => WriteAll ops' st'
      | None => None
      end
  end.

(** The error kinds the specification names, and the kind each error of
    the source falls under; the source has no error for a bad
    configuration. *)
Inductive ErrorKind :=
| ConfigurationError
| OversizedWrite
| WriteFailure
| RotationFailure.

Definition kindOf (e : error) : option ErrorKind :=
  match e with
  | ErrOversize _ _ => Some OversizedWrite
  | ErrMkdir | ErrRename | ErrOpenNew => Some RotationFailure
  | ErrWrite => Some WriteFailure
  | _ => None
  end.

(** Values for the examples. *)
Definition noon (y m d : Z) : time.Time := time.Date y m d + 12 * time.Hour.

Definition exampleWriter (maxSize maxAge maxBackups : Z) : RotateWriter :=
  mkRotateWriter (str "logs/app.log") maxSize maxAge maxBackups false None 0.

Definition regular (s : string) : os.File := os.mkFile false 420 (bytes s).

(** The clock of the examples, noon of 10 March 2024, with no failing call. *)
Definition exampleEnv : os.Env := calm (noon 2024 3 10).

(** The same clock, with [os.Rename] failing, and with the append-mode
    [os.OpenFile] failing. *)
Definition renameFails : os.Env :=
  os.mkEnv (noon 2024 3 10) false false true false false false None false
           (fun _ => false).

Definition appendFails : os.Env :=
  os.mkEnv (noon 2024 3 10) false false false false true false None false
           (fun _ => false).

(** A writer with no handle yet, beside a live file with room left. *)
Definition exampleClosed : State :=
  mkState (mkRotateWriter (str "logs/app.log") 100 7 3 true None 0)
          {[ str "app.log" := os.mkFile false 384 (bytes "abcde") ]} [].

(** A writer with its handle open on a live file that is full. *)
Definition exampleFull : State :=
  mkState (mkRotateWriter (str "logs/app.log") 10 7 3 true (Some (str "app.log")) 10)
          {[ str "app.log" := regular "abcdefghij" ]} [].

(** The name [<prefix>-<date>-<index><ext>] for the writer's file name. *)
Definition backupOf (w : RotateWriter) (t : time.Time) (index : nat) : gostring :=
  backupFileName (stem (activeName w)) (time.Format t) index
                 (filepath.Ext (activeName w)).

(** The 64-bit sum is the sum itself: [x], a sum of byte counts, lies in the
    range of [int64], so that the test the source makes on the [int64] sum
    is the test on the sum in [Z]. *)
Definition exact64 (x : Z) : Prop := int64 x = x.

(** A step of a rotation fails: the directory cannot be made, the live file
    exists and cannot be renamed, or the new file cannot be created. *)
Definition rotationStepFails (env : os.Env) (st : State) : Prop :=
  os.mkdir_err env = true
  \/ (os.stat_err env = false
      /\ is_Some (dirents st !! activeName (writer st))
      /\ os.rename_err env = true)
  \/ os.create_err env = true.

(** A write of [p] makes the writer rotate: the handle is open and the
    bytes do not fit, or no handle is open and the live file on disk is
    (with the bytes) at the limit.  In both tests the sum is within the
    range of [int64], as the source adds [int64] values. *)
Definition rotationDue (env : os.Env) (p : list byte) (st : State) : Prop :=
  (is_Some (file (writer st))
   /\ maxSize (writer st) < size (writer st) + Z.of_nat (length p)
   /\ exact64 (size (writer st) + Z.of_nat (length p)))
  \/ (file (writer st) = None
      /\ os.stat_err env = false
      /\ sweepSafe (writer st) (dirents st)
      /\ exists info, dirents st !! activeName (writer st) = Some info
                      /\ maxSize (writer st) <= os.Size info + Z.of_nat (length p)
                      /\ exact64 (os.Size info + Z.of_nat (length p))).

(** The claim on configuration: a writer built with a threshold that is
    not positive answers its first write with a configuration error. *)
Definition reportsConfigurationError
    (r : option ((Z * option error) * State)) : Prop :=
  exists n e st', r = Some ((n, Some e), st')
                  /\ kindOf e = Some ConfigurationError.

Definition configurationValidated : Prop :=
  forall name mb age backups c env p fs jobs,
    mb <= 0 ->
    reportsConfigurationError
      (Write env p (mkState (NewRotateWriter name mb age backups c) fs jobs)).

(** ** Definitions for the properties beyond the claims *)

(** The files [mill] marks for deletion, given the sorted list of
    [oldLogFiles]: the body of [mill] between the listing and the removal. *)
Definition millDeletes (w : RotateWriter) (env : os.Env) (files : list logInfo)
  : list logInfo :=
  let '(deletes, files) :=
    if (0 <? maxBackups w) && (maxBackups w <? Z.of_nat (length files))
    then (drop (Z.to_nat (maxBackups w)) files,
          take (Z.to_nat (maxBackups w)) files)
    else ([], files) in
  if 0 <? maxAge w then
    let diff := int64 (int64 (24 * time.Hour) * int64 (maxAge w)) in
    let cutoff := time.Add (os.now env) (int64 (-1 * diff)) in
    deletes ++ filter (fun f => time.Before (timestamp f) cutoff = true) files
  else deletes.

(** Newest first: no later element is newer than an earlier one. *)
Definition newestFirst (files : list logInfo) : Prop :=
  StronglySorted (fun a b => timestamp b <= timestamp a) files.

(** The name of a listed file. *)
Definition logName (li : logInfo) : gostring := os.Name (DirEntry li).

(** The sweep's filter accepts the name [n] of the writer's directory, with
    date [t]. *)
Definition accepted (w : RotateWriter) (n : gostring) (t : time.Time) : Prop :=
  timeFromName n (prefixAndExt w).1 (prefixAndExt w).2 = Some (t, None).


(** A directory with the live file and two files whose names the sweep's
    filter accepts, an old one and one of the day of [exampleEnv]. *)
Definition exampleBackups (maxAge maxBackups : Z) : State :=
  mkState (exampleWriter 10 maxAge maxBackups)
          {[ str "app.log" := regular "abc";
             str "app--2024-03-07-1.log" := regular "old";
             str "app--2024-03-10-1.log" := regular "new" ]} [].

(** The clock of the examples, with [os.ReadDir] failing. *)
Definition readDirFails : os.Env :=
  os.mkEnv (noon 2024 3 10) false false false false false false None true
           (fun _ => false).

(** The filter returns on every name: no slice of [timeFromName] is out of
    range for this writer. *)
Definition alwaysSafe (w : RotateWriter) : Prop :=
  forall n, timeFromName n (prefixAndExt w).1 (prefixAndExt w).2 <> None.

(** A writer whose file name has a dash in its extension, beside a file
    named by the overlap of the prefix and the extension. *)
Definition exampleOverlap : State :=
  mkState (mkRotateWriter (str "logs/x.b.b-y") 10 7 3 false None 0)
          {[ str "x.b-y" := regular "abc" ]} [].

(** What [File.Write] does to the file: the bytes are put at its end. *)
Definition appendBytes (q : list byte) (f : os.File) : os.File :=
  os.mkFile (os.isDir f) (os.mode f) (os.data f ++ q).

(** The bytes [File.Write] takes in [env], and its error. *)
Definition written (env : os.Env) (p : list byte) : list byte * option error :=
  match os.write_limit env with
  | None => (p, None)
  | Some k => (take k p, Some ErrWrite)
  end.

(** A writer with its handle open on a live file that has room left. *)
Definition exampleOpen : State :=
  mkState (mkRotateWriter (str "logs/app.log") 10 7 3 true (Some (str "app.log")) 5)
          {[ str "app.log" := regular "abcde" ]} [].

(** A writer that has not written yet, in an empty directory. *)
Definition exampleFresh : State := mkState (exampleWriter 10 7 3) ∅ [].

(** The clock of the examples, with [File.Write] stopping after two bytes,
    with [File.Close] failing, and with [os.Stat] failing. *)
Definition shortWrite : os.Env :=
  os.mkEnv (noon 2024 3 10) false false false false false false (Some 2%nat) false
           (fun _ => false).

Definition closeFails : os.Env :=
  os.mkEnv (noon 2024 3 10) false false false false false true None false
           (fun _ => false).

Definition statFails : os.Env :=
  os.mkEnv (noon 2024 3 10) false true false false false false None false
           (fun _ => false).

(** A writer with its handle open on a live file that the next five bytes
    fill to the limit. *)
Definition exampleExact : State :=
  mkState (mkRotateWriter (str "logs/app.log") 10 0 0 false (Some (str "app.log")) 5)
          {[ str "app.log" := regular "abcde" ]} [].

(** The text [Format] writes for a date. *)
Definition dateText (y m d : Z) : gostring :=
  time.appendInt y 4 ++ str "-" ++ time.appendInt m 2 ++ str "-"
    ++ time.appendInt d 2.

(** The start of the day of [t]. *)
Definition midnight (t : time.Time) : time.Time := t - t mod time.nsPerDay.

(** A writer without limits on its backups and with [compress] off, its
    handle open on a full live file, beside a backup of the day before. *)
Definition exampleFullPlain : State :=
  mkState (mkRotateWriter (str "logs/app.log") 10 0 0 false (Some (str "app.log")) 10)
          {[ str "app.log" := regular "abcdefghij";
             str "app-2024-03-09-1.log" := regular "0123456789" ]} [].

(** What a call may do to the directory [fs] of the writer [w], at the
    clock [now]: a name other than the live file's keeps its entry, or
    loses it while the filter accepts the name, or was free and is a backup
    name of this clock; the live file stays, or is found under a backup
    name. *)
Definition keeps (w : RotateWriter) (now : time.Time)
    (fs fs' : gmap gostring os.File) : Prop :=
  (forall n, n <> activeName w ->
     fs' !! n = fs !! n
     \/ (fs' !! n = None /\ exists t, accepted w n t)
     \/ (fs !! n = None /\ exists i : nat, (1 <= i)%nat /\ n = backupOf w now i))
  /\ (forall f, fs !! activeName w = Some f ->
        fs' !! activeName w = Some f
        \/ exists i : nat, (1 <= i)%nat /\ fs' !! backupOf w now i = Some f).

(** A call of one of the writer's two public methods, in its environment,
    and a run of calls; [None] once a call yields no result. *)
Inductive Call :=
| CallWrite (env : os.Env) (p : list byte)
| CallClose (env : os.Env).

Fixpoint runCalls (calls : list Call) (st : State) : option State :=
  match calls with
  | [] => Some st
  | CallWrite env p :: calls' =>
      match Write env p st with
      | Some (_, st') => runCalls calls' st'
      | None => None
      end
  | CallClose env :: calls' =>
      match Close env st with
      | Some (_, st') => runCalls calls' st'
      | None => None
      end
  end.

(** No [os.Stat] fails in the [Write] calls of a run. *)
Fixpoint statWorks (calls : list Call) : Prop :=
  match calls with
  | [] => True
  | CallWrite env _ :: calls' => os.stat_err env = false /\ statWorks calls'
  | CallClose _ :: calls' => statWorks calls'
  end.

(** The bytes the [Write] calls of a run are given, and the size of the
    live file of a state (0 when there is none). *)
Fixpoint bytesOf (calls : list Call) : Z :=
  match calls with
  | [] => 0
  | CallWrite _ p :: calls' => Z.of_nat (length p) + bytesOf calls'
  | CallClose _ :: calls' => bytesOf calls'
  end.

Definition liveSize (st : State) : Z :=
  match dirents st !! activeName (writer st) with
  | Some f => os.Size f
  | None => 0
  end.

(** Writes and closes, some of them failing. *)
Definition exampleCalls : list Call :=
  [CallWrite exampleEnv (bytes "abcdefgh"); CallClose closeFails;
   CallWrite renameFails (bytes "ijkl"); CallWrite shortWrite (bytes "mnop");
   CallClose exampleEnv; CallWrite appendFails (bytes "q")].

(** Tactics: unfolding of the state monad, with the projections of a state
    reduced ([unfold_M], for states given by their fields) or kept
    ([unfold_bind]). *)
Ltac unfold_M :=
  cbv beta iota zeta delta
    [mbind M_bind mret M_ret getWriter getDirents putWriter putDirents
     goCompressFile panic writer dirents compressJobs].

Ltac unfold_bind :=
  cbv beta iota zeta delta
    [mbind M_bind mret M_ret getWriter getDirents putWriter putDirents
     goCompressFile panic].

Ltac same_config := by repeat split.

Ltac crush_writer :=
  cbn [writer dirents compressJobs set_file set_size filename maxSize maxAge
       maxBackups compress file size activeName] in *.

(** ** Facts about the string functions *)

Section StringFacts.
Implicit Types s p e a b : gostring.

Lemma HasPrefix_app p s : strings.HasPrefix (p ++ s) p = true.
Proof.
  induction p as [|c p IH]; simpl; [done|].
  by rewrite bool_decide_eq_true_2, IH.
Qed.

Lemma HasPrefix_app_mismatch p c r s :
  (forall s', s <> c :: s') -> strings.HasPrefix (p ++ s) (p ++ c :: r) = false.
Proof.
  intros Hs. induction p as [|d p IH]; simpl.
  - destruct s as [|d s]; [done|].
    rewrite bool_decide_eq_false_2; [done|].
    intros ->. by eapply Hs.
  - rewrite IH. apply andb_false_r.
Qed.

Lemma HasSuffix_app s e : strings.HasSuffix (s ++ e) e = true.
Proof.
  unfold strings.HasSuffix. rewrite length_app.
  apply andb_true_iff; split.
  - apply Nat.leb_le. lia.
  - apply bool_decide_eq_true_2.
    replace (length s + length e - length e)%nat with (length s) by lia.
    apply drop_app_length.
Qed.

Lemma slice_middle a m e :
  log.slice (a ++ m ++ e) (length a) (length (a ++ m ++ e) - length e)
  = Some m.
Proof.
  unfold log.slice. rewrite !length_app.
  replace (length a + (length m + length e) - length e)%nat
    with (length a + length m)%nat by lia.
  rewrite (proj2 (Nat.leb_le _ _)) by lia.
  rewrite (proj2 (Nat.leb_le _ _)) by lia. simpl.
  rewrite drop_app_length.
  replace (length a + length m - length a)%nat with (length m) by lia.
  by rewrite take_app_length.
Qed.

Lemma Split_no_sep a c : c ∉ a -> strings.Split a c = [a].
Proof.
  induction a as [|d a IH]; intros Hc; simpl; [done|].
  apply not_elem_of_cons in Hc as [Hd Ha].
  rewrite bool_decide_eq_false_2 by congruence.
  by rewrite IH.
Qed.

Lemma Split_app_sep a b c :
  c ∉ a -> strings.Split (a ++ c :: b) c = a :: strings.Split b c.
Proof.
  induction a as [|d a IH]; intros Hc; simpl.
  - by rewrite bool_decide_eq_true_2.
  - apply not_elem_of_cons in Hc as [Hd Ha].
    rewrite bool_decide_eq_false_2 by congruence.
    by rewrite IH.
Qed.

Lemma Ext_scan_suffix r acc :
  exists pre, rev r ++ acc = pre ++ filepath.Ext_scan r acc.
Proof.
  revert acc. induction r as [|c r IH]; intros acc; simpl.
  - exists acc. by rewrite app_nil_r.
  - destruct (filepath.IsPathSeparator c).
    + eexists. by rewrite app_nil_r.
    + case_bool_decide.
      * exists (rev r). by rewrite <- app_assoc.
      * destruct (IH (c :: acc)) as [pre Hpre]. exists pre.
        by rewrite <- Hpre, <- app_assoc.
Qed.

Lemma Ext_scan_head r acc :
  filepath.Ext_scan r acc = []
  \/ exists s, filepath.Ext_scan r acc = "."%char :: s.
Proof.
  revert acc. induction r as [|c r IH]; intros acc; simpl; [by left|].
  destruct (filepath.IsPathSeparator c); [by left|].
  case_bool_decide; [subst; right; by eexists|apply IH].
Qed.

Lemma Ext_suffix s : exists pre, s = pre ++ filepath.Ext s.
Proof.
  destruct (Ext_scan_suffix (rev s) []) as [pre Hpre].
  exists pre. by rewrite app_nil_r, rev_involutive in Hpre.
Qed.

Lemma Ext_head s :
  filepath.Ext s = [] \/ exists e, filepath.Ext s = "."%char :: e.
Proof. apply Ext_scan_head. Qed.

Lemma stem_Ext s : stem s ++ filepath.Ext s = s.
Proof.
  unfold stem. destruct (Ext_suffix s) as [pre Hpre].
  remember (filepath.Ext s) as e eqn:He. clear He. subst s.
  rewrite length_app.
  replace (length pre + length e - length e)%nat with (length pre) by lia.
  by rewrite take_app_length.
Qed.
End StringFacts.

(** ** Facts about the date functions *)

Section TimeFacts.

Lemma pretty_N_go_no_dash (x : N) (s : string) :
  "-"%char ∉ str s -> "-"%char ∉ str (pretty_N_go x s).
Proof.
  revert s. induction (N.lt_wf_0 x) as [x _ IH]; intros s Hs.
  destruct (decide (x = 0%N)) as [->|Hx].
  - by rewrite pretty_N_go_0.
  - rewrite pretty_N_go_step by lia. apply IH.
    + apply N.div_lt; lia.
    + simpl. apply not_elem_of_cons; split; [|done].
      unfold pretty_N_char. by repeat case_match.
Qed.

Lemma digits_no_dash (u : N) : "-"%char ∉ time.digits u.
Proof.
  unfold time.digits, pretty, pretty_N. destruct (decide (u = 0%N)).
  - simpl. set_solver.
  - apply pretty_N_go_no_dash. simpl. set_solver.
Qed.

Lemma pretty_N_go_nonempty (x : N) (s : string) :
  s <> EmptyString -> pretty_N_go x s <> EmptyString.
Proof.
  revert s. induction (N.lt_wf_0 x) as [x _ IH]; intros s Hs.
  destruct (decide (x = 0%N)) as [->|Hx].
  - by rewrite pretty_N_go_0.
  - rewrite pretty_N_go_step by lia. apply IH; [|done].
    apply N.div_lt; lia.
Qed.

Lemma digits_nonempty (u : N) : time.digits u <> [].
Proof.
  unfold time.digits. intros H.
  assert (Hp : pretty u = EmptyString).
  { by rewrite <- (string_of_list_ascii_of_string (pretty u)), H. }
  unfold pretty, pretty_N in Hp. case_decide; [done|].
  rewrite pretty_N_go_step in Hp by lia.
  by apply pretty_N_go_nonempty in Hp.
Qed.

Lemma appendInt_no_dash (x : Z) (width : nat) :
  0 <= x -> "-"%char ∉ time.appendInt x width.
Proof.
  intros Hx. unfold time.appendInt.
  rewrite (proj2 (Z.ltb_ge _ _)) by done. simpl.
  rewrite elem_of_app. intros [H|H].
  - by apply elem_of_replicate in H as [? _].
  - by apply digits_no_dash in H.
Qed.

Lemma appendInt_nonempty (x : Z) (width : nat) : time.appendInt x width <> [].
Proof.
  unfold time.appendInt. intros H.
  apply app_eq_nil in H as [_ H]. apply app_eq_nil in H as [_ H].
  by apply digits_nonempty in H.
Qed.

Lemma appendInt_month (m : Z) :
  1 <= m <= 12 -> exists c0 c1, time.appendInt m 2 = [c0; c1].
Proof.
  intros Hm.
  assert (m = 1 \/ m = 2 \/ m = 3 \/ m = 4 \/ m = 5 \/ m = 6 \/ m = 7
          \/ m = 8 \/ m = 9 \/ m = 10 \/ m = 11 \/ m = 12) as Hcases by lia.
  repeat destruct Hcases as [->|Hcases]; try subst m;
    vm_compute; by do 2 eexists.
Qed.

(** The arithmetic of the civil calendar: the year of an era, the day of
    the year, the month (counted from March) and the day of the month stay
    in their ranges. *)
Lemma yoe_bounds (doe : Z) :
  0 <= doe < 146097 ->
  0 <= (doe - doe / 1460 + doe / 36524 - doe / 146096) / 365 <= 399
  /\ 0 <= doe - (365 * ((doe - doe / 1460 + doe / 36524 - doe / 146096) / 365)
                 + (doe - doe / 1460 + doe / 36524 - doe / 146096) / 365 / 4
                 - (doe - doe / 1460 + doe / 36524 - doe / 146096) / 365 / 100)
     <= 365.
Proof. intros H. Z.div_mod_to_equations. lia. Qed.

Lemma mp_bounds (doy : Z) :
  0 <= doy <= 365 ->
  0 <= (5 * doy + 2) / 153 <= 11
  /\ 1 <= doy - (153 * ((5 * doy + 2) / 153) + 2) / 5 + 1 <= 31.
Proof. intros H. Z.div_mod_to_equations. lia. Qed.

Lemma civilOfDoe_bounds (era doe : Z) :
  0 <= era -> 0 <= doe < 146097 ->
  exists y m d, time.civilOfDoe era doe = (y, m, d)
                /\ 0 <= y /\ 1 <= m <= 12 /\ 1 <= d <= 31.
Proof.
  intros Hera Hdoe. unfold time.civilOfDoe. cbv zeta.
  destruct (yoe_bounds doe Hdoe) as [Hyoe Hdoy].
  set (yoe := (doe - doe / 1460 + doe / 36524 - doe / 146096) / 365) in *.
  set (doy := doe - (365 * yoe + yoe / 4 - yoe / 100)) in *.
  destruct (mp_bounds doy Hdoy) as [Hmp Hday].
  set (mp := (5 * doy + 2) / 153) in *.
  do 3 eexists. split; [reflexivity|].
  destruct (mp <? 10) eqn:E;
    [apply Z.ltb_lt in E|apply Z.ltb_ge in E];
    destruct (_ <=? 2); lia.
Qed.

Lemma civilFromDays_bounds (z : Z) :
  -719468 <= z ->
  exists y m d, time.civilFromDays z = (y, m, d)
                /\ 0 <= y /\ 1 <= m <= 12 /\ 1 <= d <= 31.
Proof.
  intros Hz. unfold time.civilFromDays. apply civilOfDoe_bounds.
  - apply Z.div_pos; lia.
  - apply Z.mod_pos_bound. lia.
Qed.

Lemma Date_of_bounds (t : time.Time) :
  0 <= t ->
  exists y m d, time.Date_of t = (y, m, d)
                /\ 0 <= y /\ 1 <= m <= 12 /\ 1 <= d <= 31.
Proof.
  intros Ht. unfold time.Date_of. apply civilFromDays_bounds.
  assert (0 <= t / time.nsPerDay) by (apply Z.div_pos; [done|by vm_compute]).
  lia.
Qed.

(** The formatted date has three dash-free fields, the month two bytes
    wide. *)
Lemma Format_shape (t : time.Time) :
  0 <= t ->
  exists Y c0 c1 D,
    time.Format t = Y ++ "-"%char :: [c0; c1] ++ "-"%char :: D
    /\ ("-"%char ∉ Y) /\ ("-"%char ∉ [c0; c1]) /\ ("-"%char ∉ D) /\ D <> [].
Proof.
  intros Ht. destruct (Date_of_bounds t Ht) as (y & m & d & E & Hy & Hm & Hd).
  unfold time.Format. rewrite E.
  destruct (appendInt_month m Hm) as (c0 & c1 & Em).
  exists (time.appendInt y 4), c0, c1, (time.appendInt d 2).
  rewrite Em. split; [done|].
  split; [by apply appendInt_no_dash|].
  split; [rewrite <- Em; apply appendInt_no_dash; lia|].
  split; [apply appendInt_no_dash; lia|apply appendInt_nonempty].
Qed.

Lemma isDigit_not_sign (c : ascii) :
  time.isDigit c = true -> c <> "-"%char /\ c <> "+"%char.
Proof. intros H. split; intros ->; discriminate. Qed.

(** A value whose third byte is a dash has no four-digit year. *)
Lemma longYear_dash (c0 c1 c3 : ascii) (rest : gostring) :
  time.longYear (c0 :: c1 :: "-"%char :: c3 :: rest) = None.
Proof.
  unfold time.longYear. destruct (time.isDigit c0) eqn:E0; [|done].
  destruct (isDigit_not_sign _ E0) as [Hm Hp].
  unfold time.atoi. rewrite !bool_decide_eq_false_2 by done.
  simpl. rewrite E0. by destruct (time.isDigit c1).
Qed.

Lemma Parse_dash (c0 c1 c3 : ascii) (rest : gostring) :
  time.Parse (c0 :: c1 :: "-"%char :: c3 :: rest) = None.
Proof. unfold time.Parse. by rewrite longYear_dash. Qed.

End TimeFacts.

(** ** The sweep's file-name filter *)

Section NameFilter.

Lemma prefixAndExt_eq (w : RotateWriter) :
  prefixAndExt w
  = (stem (activeName w) ++ str "-", filepath.Ext (activeName w)).
Proof. reflexivity. Qed.

(** The live file never passes the filter: its name does not carry the
    dash that ends the prefix. *)
Lemma timeFromName_active (w : RotateWriter) :
  timeFromName (activeName w) (prefixAndExt w).1 (prefixAndExt w).2
  = Some (time.Date 1 1 1, Some ErrMismatchedPrefix).
Proof.
  rewrite prefixAndExt_eq. simpl. unfold timeFromName.
  rewrite <- (stem_Ext (activeName w)) at 1.
  rewrite HasPrefix_app_mismatch; [done|].
  intros s' Hs'. destruct (Ext_head (activeName w)) as [E|[e E]];
    rewrite E in Hs'; discriminate.
Qed.

(** On a name that has the prefix and the extension, the filter looks
    at what lies between them. *)
Lemma timeFromName_sliced (a m e : gostring) :
  timeFromName (a ++ m ++ e) a e
  = let parts := strings.Split m "-"%char in
    if (length parts <? 4)%nat then
      Some (time.Date 1 1 1, Some ErrTimestampFormat)
    else
      match time.Parse (strings.Join (take 3 (drop 1 parts)) (str "-")) with
      | Some t => Some (t, None)
      | None => Some (time.Date 1 1 1, Some ErrParse)
      end.
Proof.
  assert (HS : strings.HasSuffix (a ++ m ++ e) e = true).
  { rewrite app_assoc. apply HasSuffix_app. }
  unfold timeFromName. by rewrite HasPrefix_app, HS, slice_middle.
Qed.

(** A name built by [backupName] passes the prefix and extension tests,
    but the text handed to [time.Parse] is its month, day and index: the
    sweep's filter turns the name down. *)
Lemma timeFromName_backupFileName (base : gostring) (t : time.Time) (index : nat) :
  0 <= t ->
  timeFromName
    (backupFileName (stem base) (time.Format t) index (filepath.Ext base))
    (stem base ++ str "-") (filepath.Ext base)
  = Some (time.Date 1 1 1, Some ErrParse).
Proof.
  intros Ht.
  destruct (Format_shape t Ht) as (Y & c0 & c1 & D & EF & HY & HM & HD & HD0).
  set (N := str (pretty index)).
  assert (HN : "-"%char ∉ N) by apply digits_no_dash.
  set (ts := time.Format t ++ str "-" ++ N).
  assert (Ename :
    backupFileName (stem base) (time.Format t) index (filepath.Ext base)
    = (stem base ++ str "-") ++ ts ++ filepath.Ext base).
  { unfold backupFileName, ts. by rewrite <- !app_assoc. }
  rewrite Ename, timeFromName_sliced.
  assert (Esplit : strings.Split ts "-"%char = [Y; [c0; c1]; D; N]).
  { unfold ts. rewrite EF. simpl.
    rewrite <- app_assoc. simpl.
    rewrite Split_app_sep by done.
    change (c0 :: c1 :: "-"%char :: D ++ "-"%char :: N)
      with ([c0; c1] ++ "-"%char :: D ++ "-"%char :: N).
    rewrite Split_app_sep by done.
    rewrite Split_app_sep by done.
    by rewrite Split_no_sep. }
  rewrite Esplit. simpl.
  destruct D as [|d D']; [done|]. simpl.
  by rewrite Parse_dash.
Qed.

End NameFilter.

(** ** The retention sweep *)

Section Sweep.

Lemma insertSorted_elem {A} (less : A -> A -> bool) (x y : A) (l : list A) :
  y ∈ insertSorted less x l <-> y = x \/ y ∈ l.
Proof.
  induction l as [|z l IH]; simpl.
  - set_solver.
  - destruct (less x z); set_solver.
Qed.

Lemma sortBy_elem {A} (less : A -> A -> bool) (y : A) (l : list A) :
  y ∈ sortBy less l <-> y ∈ l.
Proof.
  unfold sortBy.
  assert (H : forall acc,
    y ∈ foldl (fun acc x => insertSorted less x acc) acc l <-> y ∈ acc \/ y ∈ l).
  { induction l as [|x l IH]; intros acc; simpl; [set_solver|].
    rewrite IH, insertSorted_elem. set_solver. }
  rewrite H. set_solver.
Qed.

Lemma ReadDir_elem (fs : gmap gostring os.File) (e : os.DirEntry) :
  e ∈ os.ReadDir fs
  <-> exists f, fs !! os.Name e = Some f /\ os.IsDir e = os.isDir f.
Proof.
  unfold os.ReadDir. rewrite sortBy_elem, list_elem_of_fmap. split.
  - intros [[n f] [-> H]]. apply elem_of_map_to_list in H. by exists f.
  - intros [f [H1 H2]]. exists (os.Name e, f). split.
    + destruct e; simpl in *. by subst.
    + by apply elem_of_map_to_list.
Qed.

Lemma collectLogFiles_elem prefix ext files acc out li :
  collectLogFiles prefix ext files acc = Some out ->
  li ∈ out ->
  li ∈ acc
  \/ (DirEntry li ∈ files
      /\ timeFromName (os.Name (DirEntry li)) prefix ext
         = Some (timestamp li, None)).
Proof.
  revert acc. induction files as [|f files IH]; intros acc H Hli; simpl in H.
  - left. congruence.
  - destruct (os.IsDir f).
    { destruct (IH _ H Hli) as [?|[? ?]]; [by left|right]. set_solver. }
    destruct (timeFromName (os.Name f) prefix ext) as [[t [e|]]|] eqn:E;
      [| |done].
    + destruct (IH _ H Hli) as [?|[? ?]]; [by left|right]. set_solver.
    + destruct (IH _ H Hli) as [Hacc|[? ?]]; [|right; set_solver].
      apply elem_of_app in Hacc as [?|Hacc]; [by left|].
      apply list_elem_of_singleton in Hacc. subst li. right. simpl.
      split; [set_solver|done].
Qed.

Lemma collectLogFiles_total prefix ext files acc :
  (forall f, f ∈ files -> os.IsDir f = false ->
             timeFromName (os.Name f) prefix ext <> None) ->
  exists out, collectLogFiles prefix ext files acc = Some out.
Proof.
  revert acc. induction files as [|f files IH]; intros acc Hsafe; simpl.
  - by eexists.
  - assert (Hrest : forall g, g ∈ files -> os.IsDir g = false ->
              timeFromName (os.Name g) prefix ext <> None).
    { intros g Hg. apply Hsafe. set_solver. }
    destruct (os.IsDir f) eqn:Ed; [by apply IH|].
    destruct (timeFromName (os.Name f) prefix ext) as [[t [e|]]|] eqn:E.
    + by apply IH.
    + by apply IH.
    + exfalso. eapply Hsafe; [|done..]. set_solver.
Qed.

Lemma sweepSafeb_sound w fs : sweepSafeb w fs = true -> sweepSafe w fs.
Proof.
  unfold sweepSafeb, sweepSafe. rewrite forallb_forall.
  intros H n f Hn Hd.
  assert (Hin : In (n, f) (map_to_list fs)).
  { apply list_elem_of_In. by apply elem_of_map_to_list. }
  specialize (H _ Hin). cbn [fst snd] in H. rewrite Hd in H.
  intros E. by rewrite E in H.
Qed.

Lemma foldl_Remove_lookup env (deletes : list logInfo) fs n :
  let fs' := foldl (fun fs f => os.Remove env fs (os.Name (DirEntry f))) fs deletes in
  fs' !! n = fs !! n
  \/ (fs' !! n = None /\ exists li, li ∈ deletes /\ os.Name (DirEntry li) = n).
Proof.
  revert fs. induction deletes as [|d deletes IH]; intros fs; simpl; [by left|].
  destruct (IH (os.Remove env fs (os.Name (DirEntry d)))) as [H|[H [li [? ?]]]].
  - rewrite H. unfold os.Remove. destruct (os.remove_err env _); [by left|].
    destruct (decide (os.Name (DirEntry d) = n)) as [<-|Hne].
    + right. rewrite lookup_delete_eq. split; [done|]. exists d. set_solver.
    + left. by rewrite lookup_delete_ne.
  - right. split; [done|]. exists li. set_solver.
Qed.

(** What a sweep can do: the writer and the compression jobs are left
    alone, and every name either keeps its entry or loses it; only names
    that pass the filter are removed. *)
Lemma mill_spec env st u st' :
  mill env st = Some (u, st') ->
  writer st' = writer st
  /\ compressJobs st' = compressJobs st
  /\ forall n,
       dirents st' !! n = dirents st !! n
       \/ (dirents st' !! n = None
           /\ exists t, timeFromName n (prefixAndExt (writer st)).1
                                        (prefixAndExt (writer st)).2
                        = Some (t, None)).
Proof.
  destruct st as [w fs jobs]. unfold mill, oldLogFiles. unfold_M.
  destruct ((maxBackups w =? 0) && (maxAge w =? 0)).
  { intros [= <- <-]. cbn. auto. }
  destruct (os.readdir_err env).
  { intros [= <- <-]. cbn. auto. }
  destruct (prefixAndExt w) as [prefix ext] eqn:Epe.
  destruct (collectLogFiles prefix ext (os.ReadDir fs) []) as [logFiles|] eqn:Ec;
    [|done].
  set (files := sortBy byFormatTime_Less logFiles).
  set (sel := if (0 <? maxBackups w) && (maxBackups w <? Z.of_nat (length files))
              then (drop (Z.to_nat (maxBackups w)) files,
                    take (Z.to_nat (maxBackups w)) files)
              else ([], files)).
  assert (Hsel : forall li, (li ∈ sel.1 \/ li ∈ sel.2) -> li ∈ files).
  { unfold sel. destruct ((0 <? maxBackups w) && _); simpl; intros li [H|H].
    - by eapply subseteq_drop.
    - by eapply subseteq_take.
    - set_solver.
    - done. }
  destruct sel as [deletes kept]. simpl in Hsel.
  set (deletes' := if 0 <? maxAge w then _ else deletes).
  assert (Hdel : forall li, li ∈ deletes' -> li ∈ files).
  { unfold deletes'. destruct (0 <? maxAge w); intros li H.
    - apply elem_of_app in H as [H|H]; [auto|].
      apply list_elem_of_filter in H as [_ H]. auto.
    - auto. }
  clearbody deletes'. intros [= <- <-]. cbn [writer dirents compressJobs fst snd].
  split; [done|]. split; [done|]. intros n.
  destruct (foldl_Remove_lookup env deletes' fs n) as [H|[H (li & Hli & Hn)]];
    [by left|right].
  split; [done|].
  apply Hdel in Hli. apply sortBy_elem in Hli.
  destruct (collectLogFiles_elem _ _ _ _ _ _ Ec Hli) as [Hnil|[_ Ht]];
    [set_solver|].
  rewrite Hn in Ht. by eexists.
Qed.

Lemma mill_total env st :
  sweepSafe (writer st) (dirents st) -> exists st', mill env st = Some (tt, st').
Proof.
  destruct st as [w fs jobs]. cbn [writer dirents]. intros Hsafe.
  unfold mill, oldLogFiles. unfold_M.
  destruct ((maxBackups w =? 0) && (maxAge w =? 0)); [by eexists|].
  destruct (os.readdir_err env); [by eexists|].
  destruct (prefixAndExt w) as [prefix ext] eqn:Epe.
  destruct (collectLogFiles_total prefix ext (os.ReadDir fs) []) as [out ->].
  { intros f Hf Hd. apply ReadDir_elem in Hf as (g & Hg & Hdg).
    unfold sweepSafe in Hsafe. rewrite Epe in Hsafe.
    eapply Hsafe; [done|congruence]. }
  destruct (if (0 <? maxBackups w) && _ then _ else _). by eexists.
Qed.

End Sweep.

(** ** Backup names *)

Section BackupName.

Lemma str_inj (s1 s2 : string) : str s1 = str s2 -> s1 = s2.
Proof.
  intros H.
  by rewrite <- (string_of_list_ascii_of_string s1), H,
    string_of_list_ascii_of_string.
Qed.

Lemma backupFileName_inj prefix ts ext (i j : nat) :
  backupFileName prefix ts i ext = backupFileName prefix ts j ext -> i = j.
Proof.
  unfold backupFileName. intros H.
  do 4 apply app_inv_head in H. apply app_inv_tail in H.
  apply str_inj in H. by apply (inj pretty) in H.
Qed.

Lemma backupName_loop_found env fs prefix ts ext fuel index b :
  os.stat_err env = false ->
  backupName_loop env fs prefix ts ext fuel index = Some b ->
  exists i, (index <= i)%nat
    /\ b = backupFileName prefix ts i ext
    /\ fs !! b = None
    /\ forall j, (index <= j < i)%nat ->
         is_Some (fs !! backupFileName prefix ts j ext).
Proof.
  intros Hstat. revert index.
  induction fuel as [|fuel IH]; intros index H; simpl in H; [done|].
  unfold os.Stat in H. rewrite Hstat in H.
  destruct (fs !! backupFileName prefix ts index ext) as [f|] eqn:E.
  - destruct (IH _ H) as (i & Hi & -> & Hb & Hlt).
    exists i. split; [lia|]. split; [done|]. split; [done|].
    intros j Hj. destruct (decide (j = index)) as [->|]; [by eexists|].
    apply Hlt. lia.
  - injection H as <-. exists index. split; [lia|]. split; [done|].
    split; [done|]. lia.
Qed.

Lemma backupName_loop_none env fs prefix ts ext fuel index :
  os.stat_err env = false ->
  backupName_loop env fs prefix ts ext fuel index = None ->
  forall j, (index <= j < index + fuel)%nat ->
    is_Some (fs !! backupFileName prefix ts j ext).
Proof.
  intros Hstat. revert index.
  induction fuel as [|fuel IH]; intros index H j Hj; simpl in H; [lia|].
  unfold os.Stat in H. rewrite Hstat in H.
  destruct (fs !! backupFileName prefix ts index ext) as [f|] eqn:E; [|done].
  destruct (decide (j = index)) as [->|]; [by eexists|].
  apply (IH _ H). lia.
Qed.

(** The directory is finite, so the search for a free index ends: the
    loop of [backupName] always returns. *)
Lemma backupName_loop_total env fs prefix ts ext :
  os.stat_err env = false ->
  exists b, backupName_loop env fs prefix ts ext (S (base.size fs)) 1 = Some b.
Proof.
  intros Hstat.
  destruct (backupName_loop env fs prefix ts ext (S (base.size fs)) 1)
    as [b|] eqn:E; [by eexists|].
  exfalso.
  pose proof (backupName_loop_none _ _ _ _ _ _ _ Hstat E) as Hall.
  set (names := (fun i => backupFileName prefix ts i ext)
                  <$> seq 1 (S (base.size fs))).
  assert (Hnd : NoDup names).
  { apply NoDup_fmap_2; [|apply NoDup_seq].
    intros i j. apply backupFileName_inj. }
  assert (Hsub : list_to_set (C := gset gostring) names ⊆ dom fs).
  { intros n Hn. apply elem_of_list_to_set in Hn.
    apply list_elem_of_fmap in Hn as (i & -> & Hi).
    apply elem_of_seq in Hi. apply elem_of_dom. apply Hall. lia. }
  apply subseteq_size in Hsub.
  rewrite size_list_to_set, size_dom in Hsub by done.
  unfold names in Hsub. rewrite length_fmap, length_seq in Hsub. lia.
Qed.

Lemma backupName_total env fs name t :
  os.stat_err env = false -> exists b, backupName env fs name t = Some b.
Proof. intros. by apply backupName_loop_total. Qed.

(** [backupName] returns the name with the smallest index, from 1 on,
    that is free in the directory. *)
Lemma backupName_spec env fs name t b :
  os.stat_err env = false ->
  backupName env fs name t = Some b ->
  exists i, (1 <= i)%nat
    /\ b = backupFileName (stem (filepath.Base name)) (time.Format t) i
                          (filepath.Ext (filepath.Base name))
    /\ fs !! b = None
    /\ forall j, (1 <= j < i)%nat ->
         is_Some (fs !! backupFileName (stem (filepath.Base name))
                                       (time.Format t) j
                                       (filepath.Ext (filepath.Base name))).
Proof. intros Hstat H. by apply (backupName_loop_found _ _ _ _ _ _ _ _ Hstat H). Qed.

(** A backup name is never the name of the live file. *)
Lemma backupFileName_ne_base (base ts : gostring) (i : nat) :
  backupFileName (stem base) ts i (filepath.Ext base) <> base.
Proof.
  intros H. apply (f_equal length) in H.
  rewrite <- (stem_Ext base) in H at 3.
  unfold backupFileName in H. rewrite !length_app in H. simpl in H. lia.
Qed.

End BackupName.

(** ** What each method does to the state *)

Section Methods.

Lemma sameConfig_refl w : sameConfig w w.
Proof. by repeat split. Qed.

Lemma sameConfig_trans w1 w2 w3 :
  sameConfig w1 w2 -> sameConfig w2 w3 -> sameConfig w1 w3.
Proof. unfold sameConfig. intuition congruence. Qed.

Lemma sameConfig_activeName w w' : sameConfig w w' -> activeName w' = activeName w.
Proof. intros (H & _). unfold activeName. by rewrite H. Qed.

Lemma sameConfig_prefixAndExt w w' :
  sameConfig w w' -> prefixAndExt w' = prefixAndExt w.
Proof. intros (H & _). unfold prefixAndExt. by rewrite H. Qed.

Lemma close_spec env st r st' :
  close env st = Some (r, st') ->
  sameConfig (writer st) (writer st')
  /\ file (writer st') = None
  /\ size (writer st') = size (writer st)
  /\ dirents st' = dirents st
  /\ compressJobs st' = compressJobs st
  /\ (r = None \/ (r = Some ErrClose /\ os.close_err env = true)).
Proof.
  destruct st as [[fn ms ma mb c [h|] sz] fs jobs]; unfold close; unfold_M;
    cbn [file]; intros [= <- <-]; crush_writer.
  - repeat split; try done. destruct (os.close_err env); auto.
  - repeat split; auto.
Qed.

Lemma openNew_spec env st r st' :
  openNew env st = Some (r, st') ->
  sameConfig (writer st) (writer st')
  /\ match r with
     | Some e => writer st' = writer st /\ rotationError e
     | None => opened st' /\ size (writer st') = 0
     end.
Proof.
  destruct st as [[fn ms ma mb c fl sz] fs jobs]. unfold openNew. unfold_M.
  unfold rotationError, opened.
  destruct (os.mkdir_err env).
  { intros [= <- <-]. crush_writer. split; [same_config|auto]. }
  destruct (os.Stat env fs _) as [info| |];
    [destruct (backupName env fs _ _) as [newname|]; [|done];
     destruct (os.rename_err env);
     [intros [= <- <-]; crush_writer; split; [same_config|auto]|];
     destruct c|..];
    crush_writer;
    unfold os.OpenFile_create;
    destruct (os.create_err env);
    try (intros [= <- <-]; crush_writer; split; [same_config|by auto]);
    match goal with
    |- context [?m !! ?k] => destruct (m !! k) as [g|] eqn:Eg
    end;
    try destruct (os.isDir g);
    intros [= <- <-]; crush_writer;
    (split; [same_config|]);
    first [ by auto
          | (split; [|done]); (split; [done|]);
            eexists; (split; [apply lookup_insert_eq|]); done ].
Qed.

Lemma mill_keeps_active env st u st' :
  mill env st = Some (u, st') ->
  writer st' = writer st
  /\ compressJobs st' = compressJobs st
  /\ dirents st' !! activeName (writer st) = dirents st !! activeName (writer st).
Proof.
  intros H. apply mill_spec in H as (Hw & Hj & Hfs).
  split; [done|]. split; [done|].
  destruct (Hfs (activeName (writer st))) as [E|[_ [t Ht]]]; [done|].
  by rewrite timeFromName_active in Ht.
Qed.

Lemma mill_opened env st u st' :
  opened st -> mill env st = Some (u, st') ->
  opened st' /\ size (writer st') = size (writer st).
Proof.
  intros (Hf & f & Hl & Hd & Hs) H.
  apply mill_keeps_active in H as (Hw & _ & Hfs).
  unfold opened. rewrite Hw, Hfs. split; [|done].
  split; [done|]. by exists f.
Qed.

Lemma rotate_spec env st r st' :
  rotate env st = Some (r, st') ->
  sameConfig (writer st) (writer st')
  /\ match r with
     | Some e => file (writer st') = None /\ (rotationError e \/ e = ErrClose)
     | None => opened st' /\ size (writer st') = 0
     end.
Proof.
  unfold rotate. unfold_bind.
  destruct (close env st) as [[r1 st1]|] eqn:Ec; [|done].
  apply close_spec in Ec as (Hc1 & Hf1 & _ & _ & _ & Hr1).
  destruct r1 as [e1|].
  { intros [= <- <-]. split; [done|]. split; [done|].
    destruct Hr1 as [?|[[= ->] _]]; [done|by right]. }
  destruct (openNew env st1) as [[r2 st2]|] eqn:Eo; [|done].
  apply openNew_spec in Eo as (Hc2 & Hr2).
  destruct r2 as [e2|].
  { intros [= <- <-]. destruct Hr2 as [-> He2].
    split; [done|]. split; [done|by left]. }
  destruct (mill env st2) as [[u st3]|] eqn:Em; [|done].
  intros [= <- <-]. destruct Hr2 as [Ho2 Hz2].
  destruct (mill_opened _ _ _ _ Ho2 Em) as [Ho3 Hz3].
  apply mill_spec in Em as (Hw3 & _).
  split; [|split; [done|congruence]].
  rewrite Hw3. by eapply sameConfig_trans.
Qed.

Lemma openExistingOrNew_spec env n st r st' :
  file (writer st) = None ->
  openExistingOrNew env n st = Some (r, st') ->
  sameConfig (writer st) (writer st')
  /\ match r with
     | Some e =>
         file (writer st') = None
         /\ (rotationError e \/ e = ErrClose \/ e = ErrFileInfo)
     | None =>
         opened st'
         /\ (size (writer st') = 0
             \/ size (writer st') + Z.of_nat n < maxSize (writer st'))
     end.
Proof.
  intros Hnil. unfold openExistingOrNew. unfold_bind.
  destruct (mill env st) as [[u st0]|] eqn:Em; [|done].
  apply mill_spec in Em as (Hw0 & _).
  assert (Hnil0 : file (writer st0) = None) by by rewrite Hw0.
  rewrite <- Hw0. clear Hw0 Hnil.
  unfold os.Stat, os.OpenFile_append.
  destruct (os.stat_err env).
  { intros [= <- <-]. split; [apply sameConfig_refl|]. auto. }
  destruct (dirents st0 !! activeName (writer st0)) as [info|] eqn:Ei.
  - destruct (maxSize (writer st0) <=? os.Size info + Z.of_nat n) eqn:Ecmp.
    + intros H. apply rotate_spec in H as (Hc & Hr). split; [done|].
      destruct r; [|by intuition]. destruct Hr as [? [?|?]]; auto.
    + destruct (negb (os.append_err env)); simpl.
      2:{ intros H. apply openNew_spec in H as (Hc & Hr). split; [done|].
          destruct r; [|by intuition]. destruct Hr as [-> ?]. auto. }
      destruct (os.isDir info) eqn:Ed; simpl.
      { intros H. apply openNew_spec in H as (Hc & Hr). split; [done|].
        destruct r; [|by intuition]. destruct Hr as [-> ?]. auto. }
      intros [= <- <-]. destruct st0 as [[fn ms ma mb c fl sz] fs jobs].
      crush_writer. split; [same_config|]. split.
      * split; [done|]. exists info. crush_writer. done.
      * right. crush_writer. lia.
  - intros H. apply openNew_spec in H as (Hc & Hr). split; [done|].
    destruct r; [|by intuition]. destruct Hr as [-> ?]. auto.
Qed.

End Methods.

(** ** [Write] *)

Section WriteFacts.

(** [Write], with its sequencing written out. *)
Lemma Write_eq env p st :
  Write env p st =
  let writeLen := Z.of_nat (length p) in
  if maxSize (writer st) <? writeLen then
    Some ((0, Some (ErrOversize writeLen (maxSize (writer st)))), st)
  else
    match (match file (writer st) with
           | None => openExistingOrNew env (length p) st
           | Some _ => Some (None, st)
           end) with
    | None => None
    | Some (Some e, st1) => Some ((0, Some e), st1)
    | Some (None, st1) =>
        match (if maxSize (writer st1) <? size (writer st1) + writeLen
               then rotate env st1 else Some (None, st1)) with
        | None => None
        | Some (Some e, st2) => Some ((0, Some e), st2)
        | Some (None, st2) =>
            match fileWrite env p st2 with
            | None => None
            | Some ((n, err), st3) =>
                Some ((n, err),
                      mkState (set_size (size (writer st3) + n) (writer st3))
                              (dirents st3) (compressJobs st3))
            end
        end
    end.
Proof.
  unfold Write. unfold_bind.
  destruct (maxSize (writer st) <? Z.of_nat (length p)); [done|].
  destruct (file (writer st)).
  - destruct (maxSize (writer st) <? _); [|by destruct (fileWrite env p st) as [[[??]?]|]].
    destruct (rotate env st) as [[[e|] st2]|]; [done| |done].
    by destruct (fileWrite env p st2) as [[[??]?]|].
  - destruct (openExistingOrNew env (length p) st) as [[[e|] st1]|]; [done| |done].
    destruct (maxSize (writer st1) <? _); [|by destruct (fileWrite env p st1) as [[[??]?]|]].
    destruct (rotate env st1) as [[[e|] st2]|]; [done| |done].
    by destruct (fileWrite env p st2) as [[[??]?]|].
Qed.

Lemma fileWrite_spec env p st n err st' :
  fileWrite env p st = Some ((n, err), st') ->
  writer st' = writer st
  /\ compressJobs st' = compressJobs st
  /\ match file (writer st) with
     | None => n = 0 /\ err = Some ErrInvalid /\ dirents st' = dirents st
     | Some h =>
         exists q,
           n = Z.of_nat (length q)
           /\ dirents st'
              = alter (fun f => os.mkFile (os.isDir f) (os.mode f) (os.data f ++ q))
                      h (dirents st)
           /\ ((q = p /\ err = None /\ os.write_limit env = None)
               \/ exists k, q = take k p /\ err = Some ErrWrite
                            /\ os.write_limit env = Some k)
     end.
Proof.
  destruct st as [w fs jobs]. unfold fileWrite. unfold_M.
  destruct (file w) as [h|]; [|intros [= <- <- <-]; by crush_writer].
  destruct (os.write_limit env) as [k|]; intros [= <- <- <-]; crush_writer;
    (split; [done|]); (split; [done|]); eexists; (split; [done|]);
    (split; [done|]); [right; by eexists|by left].
Qed.

Lemma Write_spec env p st n err st' :
  handleOk st ->
  Write env p st = Some ((n, err), st') ->
  sameConfig (writer st) (writer st')
  /\ handleOk st'
  /\ (err = None ->
        opened st' /\ size (writer st') <= maxSize (writer st')
        /\ n = Z.of_nat (length p))
  /\ (forall e, err = Some e -> rotationError e ->
        n = 0 /\ file (writer st') = None).
Proof.
  intros Hok. rewrite Write_eq. cbv zeta.
  destruct (maxSize (writer st) <? Z.of_nat (length p)) eqn:Eov.
  { intros [= <- <- <-]. split; [apply sameConfig_refl|]. split; [done|].
    split; [done|]. intros e [= <-] [?|[?|?]]; done. }
  apply Z.ltb_ge in Eov.
  (* the handle after the open step *)
  assert (Hopen : forall r st1,
    match file (writer st) with
    | None => openExistingOrNew env (length p) st
    | Some _ => Some (None, st)
    end = Some (r, st1) ->
    sameConfig (writer st) (writer st1)
    /\ match r with
       | Some e => file (writer st1) = None
       | None => opened st1
                 /\ (size (writer st1) <= maxSize (writer st1)
                     \/ size (writer st1) = 0)
       end).
  { intros r st1. destruct (file (writer st)) as [h|] eqn:Ef.
    - intros [= <- <-]. split; [apply sameConfig_refl|].
      destruct Hok as [?|[? ?]]; [congruence|auto].
    - intros H. apply openExistingOrNew_spec in H as (Hc & Hr); [|done].
      split; [done|]. destruct r; [tauto|].
      destruct Hr as (? & [?|?]); [auto|]. split; [done|]. left. lia. }
  destruct (match file (writer st) with None => _ | Some _ => _ end)
    as [[[e|] st1]|] eqn:E1; [| |done].
  { destruct (Hopen _ _ eq_refl) as (Hc & Hf).
    intros [= <- <- <-]. split; [done|]. split; [by left|].
    split; [done|]. by intros e' [= <-] _. }
  destruct (Hopen _ _ eq_refl) as (Hc1 & Ho1 & Hs1). clear Hopen.
  assert (Hms1 : maxSize (writer st1) = maxSize (writer st)) by apply Hc1.
  (* the handle after the rotation step *)
  destruct (if maxSize (writer st1) <? size (writer st1) + Z.of_nat (length p)
            then _ else _) as [[[e|] st2]|] eqn:E2; [| |done].
  { destruct (maxSize (writer st1) <? _); [|done].
    apply rotate_spec in E2 as (Hc2 & Hf2 & _).
    intros [= <- <- <-]. split; [by eapply sameConfig_trans|].
    split; [by left|]. split; [done|]. by intros e' [= <-] _. }
  assert (Hst2 : sameConfig (writer st1) (writer st2) /\ opened st2
                 /\ size (writer st2) + Z.of_nat (length p) <= maxSize (writer st2)).
  { destruct (maxSize (writer st1) <? _) eqn:Ecmp.
    - apply rotate_spec in E2 as (Hc2 & Ho2 & Hz2). split; [done|].
      split; [done|]. destruct Hc2 as (_ & -> & _). lia.
    - injection E2 as <-. apply Z.ltb_ge in Ecmp.
      split; [apply sameConfig_refl|]. split; [done|]. lia. }
  destruct Hst2 as (Hc2 & (Hf2 & f & Hl2 & Hd2 & Hsz2) & Hle2).
  destruct (fileWrite env p st2) as [[[n' err'] st3]|] eqn:E3; [|done].
  apply fileWrite_spec in E3 as (Hw3 & Hj3 & H3).
  rewrite Hf2 in H3. destruct H3 as (q & Hn & Hfs3 & Hq).
  intros [= <- <- <-].
  assert (Hlen : (length q <= length p)%nat).
  { destruct Hq as [(-> & _)|(k & -> & _)]; [done|]. rewrite length_take. lia. }
  assert (Hopened : opened
    {| writer := set_size (size (writer st3) + n') (writer st3);
       dirents := dirents st3; compressJobs := compressJobs st3 |}
    /\ size (set_size (size (writer st3) + n') (writer st3))
       <= maxSize (set_size (size (writer st3) + n') (writer st3))).
  { rewrite Hw3, Hfs3, Hn. clear Hc2 E2.
    destruct st2 as [[fn ms ma mb c fl sz] fs2 jobs2].
    unfold opened, activeName in *. crush_writer. subst fl. split.
    - split; [done|]. eexists. split.
      + rewrite lookup_alter_eq, Hl2. done.
      + split; [done|]. unfold os.Size in *. cbn [os.data].
        rewrite length_app. lia.
    - lia. }
  split.
  { rewrite Hw3. eapply sameConfig_trans; [done|].
    eapply sameConfig_trans; [done|]. same_config. }
  split; [by right|]. split.
  - intros ->. destruct Hopened as [? ?]. split; [done|]. split; [done|].
    destruct Hq as [(-> & _)|(k & _ & [=] & _)]. done.
  - intros e -> [?|[?|?]]; subst e;
      destruct Hq as [(_ & [=] & _)|(k & _ & [=] & _)].
Qed.

End WriteFacts.

(** ** Rotation when no system call fails *)

Section CalmRotation.

Lemma openNew_calm env w fs jobs f :
  noRotationFault env ->
  fs !! activeName w = Some f ->
  exists b,
    backupName env fs (filename w) (os.now env) = Some b
    /\ fs !! b = None
    /\ b <> activeName w
    /\ openNew env (mkState w fs jobs)
       = Some (None,
               mkState (set_size 0 (set_file (Some (activeName w)) w))
                       (<[activeName w := os.mkFile false (os.mode f) []]>
                          (<[b := f]> (delete (activeName w) fs)))
                       (if compress w then jobs ++ [b] else jobs)).
Proof.
  intros (Hmk & Hst & Hrn & Hcr) Hf.
  destruct (backupName_total env fs (filename w) (os.now env) Hst) as [b Hb].
  destruct (backupName_spec _ _ _ _ _ Hst Hb) as (i & Hi & Eb & Hnone & _).
  assert (Hne : b <> activeName w).
  { rewrite Eb. apply backupFileName_ne_base. }
  exists b. split; [done|]. split; [done|]. split; [done|].
  unfold openNew. rewrite Hmk. unfold_M.
  unfold os.Stat. rewrite Hst, Hf, Hb, Hrn.
  unfold os.Rename. rewrite Hf.
  unfold os.OpenFile_create. rewrite Hcr.
  destruct (compress w); unfold_M;
    by rewrite lookup_insert_ne, lookup_delete_eq by done.
Qed.

Lemma rotate_calm env st f :
  noRotationFault env ->
  os.close_err env = false ->
  0 <= os.now env ->
  dirents st !! activeName (writer st) = Some f ->
  sweepSafe (writer st) (dirents st) ->
  exists b st',
    backupName env (dirents st) (filename (writer st)) (os.now env) = Some b
    /\ dirents st !! b = None
    /\ b <> activeName (writer st)
    /\ rotate env st = Some (None, st')
    /\ writer st' = set_size 0 (set_file (Some (activeName (writer st))) (writer st))
    /\ compressJobs st'
       = (if compress (writer st) then compressJobs st ++ [b] else compressJobs st)
    /\ dirents st' !! b = Some f
    /\ dirents st' !! activeName (writer st)
       = Some (os.mkFile false (os.mode f) [])
    /\ (forall n, n <> b -> n <> activeName (writer st) ->
          dirents st' !! n = dirents st !! n
          \/ (dirents st' !! n = None
              /\ exists t, timeFromName n (prefixAndExt (writer st)).1
                                           (prefixAndExt (writer st)).2
                           = Some (t, None)))
    /\ sweepSafe (writer st') (dirents st').
Proof.
  intros Hcalm Hcl Hnow Hf Hsafe.
  destruct st as [w fs jobs]. cbn [writer dirents compressJobs] in *.
  destruct (openNew_calm env (set_file None w) fs jobs f Hcalm Hf)
    as (b & Hb & Hnone & Hne & Hopen).
  change (activeName (set_file None w)) with (activeName w) in *.
  change (filename (set_file None w)) with (filename w) in *.
  change (compress (set_file None w)) with (compress w) in *.
  set (w1 := set_size 0 (set_file (Some (activeName w)) w)).
  change (set_size 0 (set_file (Some (activeName w)) (set_file None w)))
    with w1 in Hopen.
  set (fs1 := <[activeName w := os.mkFile false (os.mode f) []]>
                (<[b := f]> (delete (activeName w) fs))) in *.
  set (jobs1 := if compress w then jobs ++ [b] else jobs) in *.
  assert (Hclose : close env (mkState w fs jobs)
                   = Some (None, mkState (set_file None w) fs jobs)).
  { unfold close. unfold_M. destruct (file w) as [h|] eqn:Ef.
    - by rewrite Hcl.
    - destruct w; cbn in *; by subst. }
  destruct Hcalm as (_ & Hst & _).
  destruct (backupName_spec _ _ _ _ _ Hst Hb) as (i & Hi & Eb & _).
  assert (Hpe : prefixAndExt w1 = prefixAndExt w) by reflexivity.
  assert (Hb_name : timeFromName b (prefixAndExt w).1 (prefixAndExt w).2
                    = Some (time.Date 1 1 1, Some ErrParse)).
  { rewrite Eb, prefixAndExt_eq. cbn [fst snd].
    by apply timeFromName_backupFileName. }
  assert (Hsafe1 : sweepSafe w1 fs1).
  { intros n g Hn Hd. rewrite Hpe. unfold fs1 in Hn.
    destruct (decide (n = activeName w)) as [->|Hna].
    { by rewrite timeFromName_active. }
    rewrite lookup_insert_ne in Hn by done.
    destruct (decide (n = b)) as [->|Hnb].
    { by rewrite Hb_name. }
    rewrite lookup_insert_ne, lookup_delete_ne in Hn by done.
    by eapply Hsafe. }
  destruct (mill_total env (mkState w1 fs1 jobs1) Hsafe1) as [st' Hmill].
  pose proof (mill_spec _ _ _ _ Hmill) as (Hw' & Hj' & Hfs').
  cbn [writer dirents compressJobs] in Hw', Hj', Hfs'.
  exists b, st'. split; [done|]. split; [done|]. split; [done|]. split.
  { unfold rotate. unfold_bind. rewrite Hclose. cbn beta iota.
    rewrite Hopen. cbn beta iota. by rewrite Hmill. }
  split; [done|]. split; [done|].
  assert (Hlook : forall n,
    (exists e, timeFromName n (prefixAndExt w).1 (prefixAndExt w).2
               = Some (time.Date 1 1 1, Some e)) ->
    dirents st' !! n = fs1 !! n).
  { intros n [e He]. destruct (Hfs' n) as [?|[_ [t Ht]]]; [done|].
    rewrite Hpe, He in Ht. done. }
  split.
  { rewrite Hlook by by eexists. unfold fs1.
    by rewrite lookup_insert_ne, lookup_insert_eq. }
  split.
  { rewrite Hlook by (eexists; apply timeFromName_active).
    unfold fs1. by rewrite lookup_insert_eq. }
  split.
  { intros n Hnb Hna. destruct (Hfs' n) as [->|[-> Ht]]; [left|by right].
    unfold fs1. by rewrite !lookup_insert_ne, lookup_delete_ne. }
  intros n g Hn Hd. rewrite Hw'.
  destruct (Hfs' n) as [E|[E _]]; [|congruence].
  rewrite E in Hn. by eapply Hsafe1.
Qed.

End CalmRotation.

(** ** The standard-library models on small inputs *)

Example Format_example :
  time.Format (time.Date 2024 3 7 + 5 * time.Hour) = str "2024-03-07".
Proof. vm_compute. reflexivity. Qed.

Example Parse_example :
  time.Parse (str "2024-02-29") = Some (time.Date 2024 2 29)
  /\ time.Parse (str "2023-02-29") = None
  /\ time.Parse (str "01-02-1") = None.
Proof. vm_compute. auto. Qed.

Example Split_example :
  strings.Split (str "2024-01-02-1") "-"%char
  = [str "2024"; str "01"; str "02"; str "1"]
  /\ filepath.Ext (str "logs/app.tar.gz") = str ".gz"
  /\ filepath.Base (str "logs/app.tar.gz") = str "app.tar.gz"
  /\ filepath.Base (str "/var/log/") = str "log".
Proof. vm_compute. auto. Qed.

(** ** The claims *)

(** C6. A write longer than [maxSize] fails with the oversize error,
    reports 0 bytes written and leaves the whole state as it was: the
    writer's size and handle, the files, and (when no handle was open) no file
    is opened or created. *)
Theorem Write_oversized (env : os.Env) (p : list byte) (st : State) :
  maxSize (writer st) < Z.of_nat (length p) ->
  Write env p st
  = Some ((0, Some (ErrOversize (Z.of_nat (length p)) (maxSize (writer st)))), st)
  /\ kindOf (ErrOversize (Z.of_nat (length p)) (maxSize (writer st)))
     = Some OversizedWrite.
Proof.
  intros Hlen. split; [|done].
  rewrite Write_eq. cbv zeta.
  by rewrite (proj2 (Z.ltb_lt _ _) Hlen).
Qed.

Lemma Write_oversized_witness :
  Write (calm (noon 2024 3 10)) (bytes "abcdefghijk")
        (mkState (exampleWriter 10 0 0) ∅ [])
  = Some ((0, Some (ErrOversize 11 10)), mkState (exampleWriter 10 0 0) ∅ [])
  /\ kindOf (ErrOversize 11 10) = Some OversizedWrite.
Proof.
  apply (Write_oversized (calm (noon 2024 3 10)) (bytes "abcdefghijk")
                         (mkState (exampleWriter 10 0 0) ∅ [])).
  vm_compute. reflexivity.
Defined.

Lemma WriteAll_handleOk ops st0 st :
  handleOk st0 -> WriteAll ops st0 = Some st -> handleOk st.
Proof.
  revert st0. induction ops as [|[env p] ops IH]; intros st0 Hok H; simpl in H.
  - congruence.
  - destruct (Write env p st0) as [[[n err] st1]|] eqn:E; [|done].
    apply Write_spec in E as (_ & Hok1 & _); [|done]. by eapply IH.
Qed.

(** C4. Size invariant: start from a writer with no open handle, run any
    sequence of writes (in any environments, failures included), and let one
    more [Write] succeed: then all its bytes were written, the handle is open
    on the live file, [size] is exactly the length of that file, and it does
    not exceed [maxSize].  (A successful write is never longer than
    [maxSize], so no bound on the lengths is assumed.) *)
Theorem size_invariant (ops : list (os.Env * list byte)) (st0 st st' : State)
    (env : os.Env) (p : list byte) (n : Z) :
  file (writer st0) = None ->
  WriteAll ops st0 = Some st ->
  Write env p st = Some ((n, None), st') ->
  n = Z.of_nat (length p)
  /\ file (writer st') = Some (activeName (writer st'))
  /\ exists f, dirents st' !! activeName (writer st') = Some f
               /\ os.isDir f = false
               /\ size (writer st') = Z.of_nat (length (os.data f))
               /\ size (writer st') <= maxSize (writer st').
Proof.
  intros Hnil Hrun Hw.
  assert (Hok : handleOk st) by (eapply WriteAll_handleOk; [by left|done]).
  apply Write_spec in Hw as (_ & _ & Hsucc & _); [|done].
  destruct (Hsucc eq_refl) as ((Hf & f & Hl & Hd & Hs) & Hle & Hn).
  split; [done|]. split; [done|]. by exists f.
Qed.

Lemma size_invariant_witness :
  2 = Z.of_nat (length (bytes "kl"))
  /\ file (exampleWriter 10 1 2) = None
  /\ exists st',
       Write (calm (noon 2024 3 12)) (bytes "kl")
             (mkState (mkRotateWriter (str "logs/app.log") 10 1 2 false
                                      (Some (str "app.log")) 10)
                      {[ str "app.log" := regular "abcdefghij" ]} [])
       = Some ((2, None), st')
       /\ file (writer st') = Some (activeName (writer st'))
       /\ exists f, dirents st' !! activeName (writer st') = Some f
                    /\ os.isDir f = false
                    /\ size (writer st') = Z.of_nat (length (os.data f))
                    /\ size (writer st') <= maxSize (writer st').
Proof.
  split; [reflexivity|]. split; [reflexivity|].
  eexists. split; [vm_compute; reflexivity|].
  refine (proj2 (size_invariant
    [(calm (noon 2024 3 10), bytes "abcde"); (calm (noon 2024 3 11), bytes "fghij")]
    (mkState (exampleWriter 10 1 2) ∅ []) _ _
    (calm (noon 2024 3 12)) (bytes "kl") 2 _ _ _)).
  - reflexivity.
  - vm_compute. reflexivity.
  - vm_compute. reflexivity.
Defined.

(** C5. Rotation once per threshold crossing: with the handle open on the
    live file, a write of [N <= maxSize] bytes with [size + N > maxSize]
    (the sum within the range of [int64], so that the source's sum does not
    wrap), in an environment where no call fails (the clock at 1970 or
    later, and no name in the directory on which the sweep's slice is out
    of range),
    renames the live file to exactly one new backup (the name [backupName]
    picks, free until then), and the [N] bytes are the whole content of the
    fresh live file, a regular file of some mode.  No other name appears in
    the directory.  The example of the specification is
    [rotation_example]. *)
Theorem Write_rotates_once (env : os.Env) (p : list byte) (st : State) (f : os.File) :
  noRotationFault env ->
  os.close_err env = false ->
  os.write_limit env = None ->
  0 <= os.now env ->
  file (writer st) = Some (activeName (writer st)) ->
  dirents st !! activeName (writer st) = Some f ->
  sweepSafe (writer st) (dirents st) ->
  Z.of_nat (length p) <= maxSize (writer st) ->
  maxSize (writer st) < size (writer st) + Z.of_nat (length p) ->
  exact64 (size (writer st) + Z.of_nat (length p)) ->
  exists b st',
    backupName env (dirents st) (filename (writer st)) (os.now env) = Some b
    /\ dirents st !! b = None
    /\ Write env p st = Some ((Z.of_nat (length p), None), st')
    /\ dirents st' !! b = Some f
    /\ (exists m, dirents st' !! activeName (writer st) = Some (os.mkFile false m p))
    /\ file (writer st') = Some (activeName (writer st))
    /\ size (writer st') = Z.of_nat (length p)
    /\ (forall n, n <> b -> n <> activeName (writer st) ->
          dirents st' !! n = dirents st !! n \/ dirents st' !! n = None).
Proof.
  intros Hcalm Hcl Hwl Hnow Hfile Hf Hsafe Hlen Hover _.
  destruct (rotate_calm env st f Hcalm Hcl Hnow Hf Hsafe)
    as (b & st1 & Hb & Hfree & Hne & Hrot & Hw1 & _ & Hb1 & Ha1 & Hframe & _).
  destruct st as [w fs jobs], st1 as [w1 fs1 jobs1].
  cbn [writer dirents compressJobs] in *. subst w1.
  exists b. eexists. split; [done|]. split; [done|].
  rewrite Write_eq. cbv zeta. cbn [writer].
  rewrite (proj2 (Z.ltb_ge _ _) Hlen), Hfile. cbn beta iota. cbn [writer].
  rewrite (proj2 (Z.ltb_lt _ _) Hover), Hrot. cbn beta iota.
  unfold fileWrite. unfold_M. rewrite Hwl.
  cbn [file set_size set_file size].
  split; [reflexivity|].
  cbn [writer dirents file size set_size set_file].
  split; [by rewrite lookup_alter_ne, Hb1|].
  split; [eexists; by rewrite lookup_alter_eq, Ha1|].
  split; [done|]. split; [lia|].
  intros n Hnb Hna. rewrite lookup_alter_ne by done.
  destruct (Hframe n Hnb Hna) as [?|[? _]]; auto.
Qed.

Lemma Write_rotates_once_witness :
  exists b st',
    backupName exampleEnv (dirents exampleFull) (filename (writer exampleFull))
               (os.now exampleEnv) = Some b
    /\ dirents exampleFull !! b = None
    /\ Write exampleEnv (bytes "k") exampleFull
       = Some ((Z.of_nat (length (bytes "k")), None), st')
    /\ dirents st' !! b = Some (regular "abcdefghij")
    /\ (exists m, dirents st' !! activeName (writer exampleFull)
                  = Some (os.mkFile false m (bytes "k")))
    /\ file (writer st') = Some (activeName (writer exampleFull))
    /\ size (writer st') = Z.of_nat (length (bytes "k"))
    /\ (forall n, n <> b -> n <> activeName (writer exampleFull) ->
          dirents st' !! n = dirents exampleFull !! n \/ dirents st' !! n = None).
Proof.
  apply (Write_rotates_once exampleEnv (bytes "k") exampleFull (regular "abcdefghij")).
  - repeat split.
  - reflexivity.
  - reflexivity.
  - vm_compute. discriminate.
  - vm_compute. reflexivity.
  - vm_compute. reflexivity.
  - apply sweepSafeb_sound. vm_compute. reflexivity.
  - vm_compute. discriminate.
  - vm_compute. reflexivity.
  - vm_compute. reflexivity.
Defined.

(** The example of the specification, run from an empty directory. *)
Example rotation_example :
  WriteAll [(calm (noon 2024 3 10), bytes "abcde");
            (calm (noon 2024 3 10), bytes "fghij")]
           (mkState (exampleWriter 10 7 3) ∅ [])
  = Some (mkState (mkRotateWriter (str "logs/app.log") 10 7 3 false
                                  (Some (str "app.log")) 10)
                  {[ str "app.log" := regular "abcdefghij" ]} [])
  /\ WriteAll [(calm (noon 2024 3 10), bytes "abcde");
               (calm (noon 2024 3 10), bytes "fghij");
               (calm (noon 2024 3 10), bytes "k")]
              (mkState (exampleWriter 10 7 3) ∅ [])
     = Some (mkState (mkRotateWriter (str "logs/app.log") 10 7 3 false
                                     (Some (str "app.log")) 1)
                     {[ str "app.log" := regular "k";
                        str "app-2024-03-10-1.log" := regular "abcdefghij" ]} []).
Proof. split; vm_compute; reflexivity. Qed.



Lemma timeFromName_backupOf w t i :
  0 <= t ->
  timeFromName (backupOf w t i) (prefixAndExt w).1 (prefixAndExt w).2
  = Some (time.Date 1 1 1, Some ErrParse).
Proof.
  intros Ht. rewrite prefixAndExt_eq. cbn [fst snd].
  by apply timeFromName_backupFileName.
Qed.



(** Two rotations on one day, run on the model: indices 1 and 2. *)
Example rotate_twice_example :
  WriteAll [(calm (noon 2024 3 10), bytes "0123456789");
            (calm (noon 2024 3 10 + time.Hour), bytes "abcdefghij");
            (calm (noon 2024 3 10 + 2 * time.Hour), bytes "k")]
           (mkState (exampleWriter 10 7 3) ∅ [])
  = Some (mkState (mkRotateWriter (str "logs/app.log") 10 7 3 false
                                  (Some (str "app.log")) 1)
                  {[ str "app.log" := regular "k";
                     str "app-2024-03-10-1.log" := regular "0123456789";
                     str "app-2024-03-10-2.log" := regular "abcdefghij" ]} []).
Proof. vm_compute. reflexivity. Qed.

Lemma close_ok env w fs jobs :
  os.close_err env = false ->
  close env (mkState w fs jobs) = Some (None, mkState (set_file None w) fs jobs).
Proof.
  intros Hcl. unfold close. unfold_M. destruct (file w) as [h|] eqn:Ef.
  - by rewrite Hcl.
  - destruct w; cbn in *; by subst.
Qed.

Lemma openNew_fault env st :
  rotationStepFails env st ->
  exists e st', openNew env st = Some (Some e, st')
                /\ rotationError e /\ writer st' = writer st.
Proof.
  destruct st as [w fs jobs]. unfold rotationStepFails, rotationError.
  cbn [writer dirents]. intros Hfail.
  unfold openNew. destruct (os.mkdir_err env) eqn:Emk.
  { do 2 eexists. split; [done|]. auto. }
  unfold_M. unfold os.Stat, os.OpenFile_create.
  destruct (os.stat_err env) eqn:Est.
  { destruct Hfail as [?|[(? & _)|Hcr]]; [done..|]. rewrite Hcr.
    do 2 eexists. split; [done|]. auto. }
  destruct (fs !! activeName w) as [info|] eqn:Ei.
  - destruct (backupName_total env fs (filename w) (os.now env) Est) as [b ->].
    destruct (os.rename_err env) eqn:Ern.
    { do 2 eexists. split; [done|]. auto. }
    destruct Hfail as [?|[(_ & _ & ?)|Hcr]]; [done..|]. rewrite Hcr.
    destruct (compress w); do 2 eexists; (split; [done|]); auto.
  - destruct Hfail as [?|[(_ & [? ?] & _)|Hcr]]; [done..|]. rewrite Hcr.
    do 2 eexists. split; [done|]. auto.
Qed.

Lemma rotate_fault env st :
  os.close_err env = false ->
  rotationStepFails env st ->
  exists e st', rotate env st = Some (Some e, st')
                /\ rotationError e /\ file (writer st') = None.
Proof.
  intros Hcl Hfail. destruct st as [w fs jobs].
  destruct (openNew_fault env (mkState (set_file None w) fs jobs) Hfail)
    as (e & st' & Ho & He & Hw).
  exists e, st'. split.
  - unfold rotate. unfold_bind. rewrite (close_ok _ _ _ _ Hcl). cbn beta iota.
    by rewrite Ho.
  - split; [done|]. by rewrite Hw.
Qed.

(** C9. Rotation failure policy.  When a write that fits makes the writer
    rotate (from the size check of [Write], or from [openExistingOrNew]
    after a sweep that does not panic; the sum tested within the range of
    [int64], so that it does not wrap), the close succeeds and a step of the
    rotation fails (directory creation, rename of the live file, creation of
    the new file), [Write] returns 0 and that error, a rotation failure, and
    the writer has no open handle; so a next [Write] that fits runs
    [openExistingOrNew] from that state. *)
Theorem rotation_failure_policy (env : os.Env) (p : list byte) (st : State) :
  Z.of_nat (length p) <= maxSize (writer st) ->
  rotationDue env p st ->
  os.close_err env = false ->
  rotationStepFails env st ->
  exists e st',
    Write env p st = Some ((0, Some e), st')
    /\ rotationError e
    /\ kindOf e = Some RotationFailure
    /\ file (writer st') = None
    /\ forall env' p' r st'',
         Z.of_nat (length p') <= maxSize (writer st') ->
         Write env' p' st' = Some (r, st'') ->
         exists err st1,
           openExistingOrNew env' (length p') st' = Some (err, st1)
           /\ forall e', err = Some e' -> r = (0, Some e') /\ st'' = st1.
Proof.
  intros Hlen Hdue Hcl Hfail.
  assert (Hres : exists e st',
    Write env p st = Some ((0, Some e), st')
    /\ rotationError e /\ file (writer st') = None).
  { rewrite Write_eq. cbv zeta. rewrite (proj2 (Z.ltb_ge _ _) Hlen).
    destruct Hdue
      as [([h Hh] & Hover & _)|(Hnil & Hst & Hsafe & info & Hi & Hfull & _)].
    - rewrite Hh, (proj2 (Z.ltb_lt _ _) Hover).
      destruct (rotate_fault env st Hcl Hfail) as (e & st' & -> & He & Hf).
      by exists e, st'.
    - rewrite Hnil. unfold openExistingOrNew. unfold_bind.
      destruct (mill_total env st Hsafe) as [st0 Hm]. rewrite Hm.
      apply mill_keeps_active in Hm as (Hw0 & _ & Ha0).
      unfold os.Stat. rewrite Hst, Hw0, Ha0, Hi.
      rewrite (proj2 (Z.leb_le _ _) Hfull).
      assert (Hfail0 : rotationStepFails env st0).
      { unfold rotationStepFails. by rewrite Hw0, Ha0. }
      destruct (rotate_fault env st0 Hcl Hfail0) as (e & st' & -> & He & Hf).
      by exists e, st'. }
  destruct Hres as (e & st' & HW & He & Hf).
  exists e, st'. split; [done|]. split; [done|].
  split.
  { destruct He as [Ee|[Ee|Ee]]; by rewrite Ee. }
  split; [done|].
  intros env' p' r st'' Hlen' HW'.
  rewrite Write_eq in HW'. cbv zeta in HW'.
  rewrite (proj2 (Z.ltb_ge _ _) Hlen'), Hf in HW'.
  destruct (openExistingOrNew env' (length p') st') as [[err st1]|]; [|done].
  exists err, st1. split; [done|]. intros e' ->. by injection HW' as <- <-.
Qed.

Lemma rotation_failure_policy_witness :
  exists e st',
    Write renameFails (bytes "k") exampleFull = Some ((0, Some e), st')
    /\ rotationError e
    /\ kindOf e = Some RotationFailure
    /\ file (writer st') = None
    /\ forall env' p' r st'',
         Z.of_nat (length p') <= maxSize (writer st') ->
         Write env' p' st' = Some (r, st'') ->
         exists err st1,
           openExistingOrNew env' (length p') st' = Some (err, st1)
           /\ forall e', err = Some e' -> r = (0, Some e') /\ st'' = st1.
Proof.
  apply (rotation_failure_policy renameFails (bytes "k") exampleFull).
  - vm_compute. discriminate.
  - left. split; [by eexists|]. split; vm_compute; reflexivity.
  - reflexivity.
  - right. left. split; [reflexivity|]. split; [|reflexivity].
    eexists. vm_compute. reflexivity.
Defined.

(** The failing rename, run on the model: the error comes back and the
    handle is gone. *)
Example rename_failure_example :
  Write renameFails (bytes "k") exampleFull
  = Some ((0, Some ErrRename),
          mkState (mkRotateWriter (str "logs/app.log") 10 7 3 true None 10)
                  {[ str "app.log" := regular "abcdefghij" ]} []).
Proof. vm_compute. reflexivity. Qed.

(** C10. When no handle is open, the live file exists with room for the
    bytes, and opening it for appending fails (nothing else does, and the
    sweep that comes first does not panic), [Write] does not return that
    error: [openNew] renames the file to a backup,
    hands the backup to the compression job when [compress] is set, and
    creates an empty live file, into which all the bytes are written. *)
Theorem append_failure_rotates (env : os.Env) (p : list byte) (st : State)
    (f : os.File) :
  file (writer st) = None ->
  noRotationFault env ->
  os.append_err env = true ->
  os.write_limit env = None ->
  sweepSafe (writer st) (dirents st) ->
  dirents st !! activeName (writer st) = Some f ->
  os.Size f + Z.of_nat (length p) < maxSize (writer st) ->
  exists st0 b st',
    mill env st = Some (tt, st0)
    /\ backupName env (dirents st0) (filename (writer st)) (os.now env) = Some b
    /\ dirents st0 !! b = None
    /\ Write env p st = Some ((Z.of_nat (length p), None), st')
    /\ dirents st' !! b = Some f
    /\ dirents st' !! activeName (writer st) = Some (os.mkFile false (os.mode f) p)
    /\ file (writer st') = Some (activeName (writer st))
    /\ size (writer st') = Z.of_nat (length p)
    /\ compressJobs st'
       = (if compress (writer st) then compressJobs st ++ [b] else compressJobs st)
    /\ forall n, n <> b -> n <> activeName (writer st) ->
         dirents st' !! n = dirents st0 !! n.
Proof.
  intros Hnil Hcalm Happ Hwl Hsafe Hf Hroom.
  destruct (mill_total env st Hsafe) as [st0 Hm].
  pose proof (mill_keeps_active _ _ _ _ Hm) as (Hw0 & Hj0 & Ha0).
  destruct st as [w fs jobs], st0 as [w0 fs0 jobs0].
  cbn [writer dirents compressJobs] in *. subst w0 jobs0. rewrite Hf in Ha0.
  destruct (openNew_calm env w fs0 jobs f Hcalm Ha0) as (b & Hb & Hfree & Hne & Ho).
  exists (mkState w fs0 jobs), b. eexists.
  split; [done|]. split; [done|]. split; [done|].
  assert (Hsz : 0 <= os.Size f) by (unfold os.Size; lia).
  destruct Hcalm as (_ & Hst & _).
  rewrite Write_eq. cbv zeta. cbn [writer].
  rewrite (proj2 (Z.ltb_ge _ _)) by lia. rewrite Hnil.
  unfold openExistingOrNew. unfold_bind. rewrite Hm. cbn [writer dirents].
  unfold os.Stat, os.OpenFile_append. rewrite Hst, Ha0, Happ.
  rewrite (proj2 (Z.leb_gt _ _)) by lia. cbn [negb andb]. cbv iota. rewrite Ho.
  cbn [writer size maxSize set_size set_file].
  rewrite (proj2 (Z.ltb_ge _ _)) by lia.
  unfold fileWrite. unfold_M. rewrite Hwl. cbn [file set_size set_file size].
  split; [reflexivity|].
  cbn [writer dirents compressJobs file size set_size set_file].
  split; [by rewrite lookup_alter_ne, lookup_insert_ne, lookup_insert_eq|].
  split; [by rewrite lookup_alter_eq, lookup_insert_eq|].
  split; [done|]. split; [lia|]. split; [done|].
  intros n Hnb Hna.
  by rewrite lookup_alter_ne, !lookup_insert_ne, lookup_delete_ne.
Qed.

Lemma append_failure_rotates_witness :
  exists st0 b st',
    mill appendFails exampleClosed = Some (tt, st0)
    /\ backupName appendFails (dirents st0) (filename (writer exampleClosed))
                  (os.now appendFails) = Some b
    /\ dirents st0 !! b = None
    /\ Write appendFails (bytes "fgh") exampleClosed
       = Some ((Z.of_nat (length (bytes "fgh")), None), st')
    /\ dirents st' !! b = Some (os.mkFile false 384 (bytes "abcde"))
    /\ dirents st' !! activeName (writer exampleClosed)
       = Some (os.mkFile false (os.mode (os.mkFile false 384 (bytes "abcde")))
                         (bytes "fgh"))
    /\ file (writer st') = Some (activeName (writer exampleClosed))
    /\ size (writer st') = Z.of_nat (length (bytes "fgh"))
    /\ compressJobs st'
       = (if compress (writer exampleClosed)
          then compressJobs exampleClosed ++ [b] else compressJobs exampleClosed)
    /\ forall n, n <> b -> n <> activeName (writer exampleClosed) ->
         dirents st' !! n = dirents st0 !! n.
Proof.
  apply (append_failure_rotates appendFails (bytes "fgh") exampleClosed
           (os.mkFile false 384 (bytes "abcde"))).
  - reflexivity.
  - repeat split.
  - reflexivity.
  - reflexivity.
  - apply sweepSafeb_sound. vm_compute. reflexivity.
  - vm_compute. reflexivity.
  - vm_compute. reflexivity.
Defined.

(** The same call, run on the model. *)
Example append_failure_example :
  Write appendFails (bytes "fgh") exampleClosed
  = Some ((3, None),
          mkState (mkRotateWriter (str "logs/app.log") 100 7 3 true
                                  (Some (str "app.log")) 3)
                  {[ str "app.log" := os.mkFile false 384 (bytes "fgh");
                     str "app-2024-03-10-1.log" := os.mkFile false 384 (bytes "abcde") ]}
                  [str "app-2024-03-10-1.log"]).
Proof. vm_compute. reflexivity. Qed.

Lemma int64_small (x : Z) :
  -9223372036854775808 <= x < 9223372036854775808 -> int64 x = x.
Proof.
  intros Hx. unfold int64.
  change (2 ^ 63) with 9223372036854775808.
  change (2 ^ 64) with 18446744073709551616.
  rewrite Z.mod_small by lia. lia.
Qed.

(** C8, as the code has it.  [NewRotateWriter] checks nothing and returns
    a writer for every threshold; for a threshold of zero or less (down to
    the megabyte count whose product still fits 64 bits) [maxSize] is that
    number of mebibytes, and every write that is not empty is turned down
    with the oversize error, 0 bytes written and the state unchanged.  No
    configuration error exists. *)
Theorem nonpositive_maxSize_rejects_writes (name : gostring) (mb age backups : Z)
    (c : bool) (env : os.Env) (p : list byte) (fs : gmap gostring os.File)
    (jobs : list gostring) :
  -8796093022208 <= mb <= 0 ->
  p <> [] ->
  maxSize (NewRotateWriter name mb age backups c) = mb * 1048576
  /\ Write env p (mkState (NewRotateWriter name mb age backups c) fs jobs)
     = Some ((0, Some (ErrOversize (Z.of_nat (length p)) (mb * 1048576))),
             mkState (NewRotateWriter name mb age backups c) fs jobs)
  /\ kindOf (ErrOversize (Z.of_nat (length p)) (mb * 1048576)) = Some OversizedWrite.
Proof.
  intros Hmb Hp.
  assert (Hmax : maxSize (NewRotateWriter name mb age backups c) = mb * 1048576).
  { unfold NewRotateWriter. cbn [maxSize].
    rewrite (int64_small mb) by lia.
    rewrite (int64_small (mb * 1024)) by lia.
    rewrite int64_small by lia. lia. }
  split; [done|]. split; [|done].
  rewrite Write_eq. cbv zeta. cbn [writer]. rewrite Hmax.
  assert (Hlen : (0 < length p)%nat) by (destruct p; [done|simpl; lia]).
  by rewrite (proj2 (Z.ltb_lt _ _)) by lia.
Qed.

Lemma nonpositive_maxSize_rejects_writes_witness :
  maxSize (NewRotateWriter (str "logs/app.log") (-1) 7 3 false) = -1 * 1048576
  /\ Write exampleEnv (bytes "k")
           (mkState (NewRotateWriter (str "logs/app.log") (-1) 7 3 false) ∅ [])
     = Some ((0, Some (ErrOversize (Z.of_nat (length (bytes "k"))) (-1 * 1048576))),
             mkState (NewRotateWriter (str "logs/app.log") (-1) 7 3 false) ∅ [])
  /\ kindOf (ErrOversize (Z.of_nat (length (bytes "k"))) (-1 * 1048576))
     = Some OversizedWrite.
Proof.
  apply (nonpositive_maxSize_rejects_writes (str "logs/app.log") (-1) 7 3 false
           exampleEnv (bytes "k") ∅ []).
  - lia.
  - discriminate.
Defined.

(** C8, as the specification has it, fails: a writer built with threshold 0
    is accepted; its first write of one byte gets the oversize error, and an
    empty first write gets no error at all and creates the live file. *)
Lemma zero_maxSize_is_accepted :
  (configurationValidated -> False)
  /\ maxSize (NewRotateWriter (str "logs/app.log") 0 7 3 false) = 0
  /\ Write exampleEnv (bytes "k")
           (mkState (NewRotateWriter (str "logs/app.log") 0 7 3 false) ∅ [])
     = Some ((0, Some (ErrOversize 1 0)),
             mkState (NewRotateWriter (str "logs/app.log") 0 7 3 false) ∅ [])
  /\ kindOf (ErrOversize 1 0) = Some OversizedWrite
  /\ Write exampleEnv []
           (mkState (NewRotateWriter (str "logs/app.log") 0 7 3 false) ∅ [])
     = Some ((0, None),
             mkState (mkRotateWriter (str "logs/app.log") 0 7 3 false
                                     (Some (str "app.log")) 0)
                     {[ str "app.log" := regular "" ]} []).
Proof.
  split.
  { intros H.
    destruct (H (str "logs/app.log") 0 7 3 false exampleEnv (bytes "k") ∅ []
                ltac:(lia)) as (n & e & st' & Hw & Hk).
    vm_compute in Hw. injection Hw as <- <- <-. discriminate Hk. }
  repeat split; vm_compute; reflexivity.
Qed.

(** C1, on the code.  The round trip fails for every path: whatever name
    [backupName] builds (at a clock from 1970 on), [timeFromName] with the
    prefix and extension of [prefixAndExt] answers with the error of
    [time.Parse].  The prefix already ends in the dash, so the fields of the
    rest are year, month, day, index, and [parts[1:4]] is month, day, index. *)
Theorem sweep_rejects_backupName (env : os.Env) (fs : gmap gostring os.File)
    (w : RotateWriter) (t : time.Time) (b : gostring) :
  0 <= t ->
  os.stat_err env = false ->
  backupName env fs (filename w) t = Some b ->
  timeFromName b (prefixAndExt w).1 (prefixAndExt w).2
  = Some (time.Date 1 1 1, Some ErrParse).
Proof.
  intros Ht Hst Hb.
  destruct (backupName_spec _ _ _ _ _ Hst Hb) as (i & _ & -> & _).
  apply (timeFromName_backupOf w t i Ht).
Qed.

Lemma sweep_rejects_backupName_witness :
  backupName exampleEnv ∅ (filename (writer exampleFull)) (noon 2024 3 10)
  = Some (str "app-2024-03-10-1.log")
  /\ timeFromName (str "app-2024-03-10-1.log")
                  (prefixAndExt (writer exampleFull)).1
                  (prefixAndExt (writer exampleFull)).2
     = Some (time.Date 1 1 1, Some ErrParse).
Proof.
  split; [vm_compute; reflexivity|].
  apply (sweep_rejects_backupName exampleEnv ∅ (writer exampleFull) (noon 2024 3 10)).
  - vm_compute. discriminate.
  - reflexivity.
  - vm_compute. reflexivity.
Defined.

(** What the filter reads in a backup name, and in the name with the
    leading dash that the comment in [timeFromName] describes. *)
Example timeFromName_examples :
  prefixAndExt (writer exampleFull) = (str "app-", str ".log")
  /\ strings.Split (str "2024-03-10-1") "-"%char
     = [str "2024"; str "03"; str "10"; str "1"]
  /\ time.Parse (str "03-10-1") = None
  /\ timeFromName (str "app-2024-03-10-1.log") (str "app-") (str ".log")
     = Some (time.Date 1 1 1, Some ErrParse)
  /\ timeFromName (str "app--2024-03-10-1.log") (str "app-") (str ".log")
     = Some (time.Date 2024 3 10, None)
  /\ timeFromName (str "x.b-y") (str "x.b-") (str ".b-y") = None.
Proof. repeat split; vm_compute; reflexivity. Qed.

(** C2, on the code.  [maxBackups = 2]; six writes of ten bytes on six
    days make five rotations; all five backups are still there. *)
Theorem retention_by_count_keeps_all :
  WriteAll [(calm (noon 2024 3 10), bytes "0000000000");
            (calm (noon 2024 3 11), bytes "1111111111");
            (calm (noon 2024 3 12), bytes "2222222222");
            (calm (noon 2024 3 13), bytes "3333333333");
            (calm (noon 2024 3 14), bytes "4444444444");
            (calm (noon 2024 3 15), bytes "5555555555")]
           (mkState (exampleWriter 10 0 2) ∅ [])
  = Some (mkState (mkRotateWriter (str "logs/app.log") 10 0 2 false
                                  (Some (str "app.log")) 10)
                  {[ str "app.log" := regular "5555555555";
                     str "app-2024-03-11-1.log" := regular "0000000000";
                     str "app-2024-03-12-1.log" := regular "1111111111";
                     str "app-2024-03-13-1.log" := regular "2222222222";
                     str "app-2024-03-14-1.log" := regular "3333333333";
                     str "app-2024-03-15-1.log" := regular "4444444444" ]} []).
Proof. vm_compute. reflexivity. Qed.

(** C3, on the code.  [maxAge = 1]; at noon of 10 March the directory
    holds a backup dated 7 March and one dated 10 March.  The sweep removes
    neither, and neither does a write that opens the file and sweeps
    first. *)
Theorem retention_by_age_keeps_old :
  mill (calm (noon 2024 3 10))
       (mkState (exampleWriter 10 1 0)
                {[ str "app.log" := regular "abc";
                   str "app-2024-03-07-1.log" := regular "old";
                   str "app-2024-03-10-1.log" := regular "new" ]} [])
  = Some (tt,
          mkState (exampleWriter 10 1 0)
                  {[ str "app.log" := regular "abc";
                     str "app-2024-03-07-1.log" := regular "old";
                     str "app-2024-03-10-1.log" := regular "new" ]} [])
  /\ Write (calm (noon 2024 3 10)) (bytes "de")
           (mkState (exampleWriter 10 1 0)
                    {[ str "app.log" := regular "abc";
                       str "app-2024-03-07-1.log" := regular "old";
                       str "app-2024-03-10-1.log" := regular "new" ]} [])
     = Some ((2, None),
             mkState (mkRotateWriter (str "logs/app.log") 10 1 0 false
                                     (Some (str "app.log")) 5)
                     {[ str "app.log" := regular "abcde";
                        str "app-2024-03-07-1.log" := regular "old";
                        str "app-2024-03-10-1.log" := regular "new" ]} []).
Proof. split; vm_compute; reflexivity. Qed.

(** The sweep itself works on names its filter accepts: with the second
    dash, the file dated 7 March goes and the one dated 10 March stays; and
    by count, the older of two goes. *)
Example mill_removes_matched_files :
  mill (calm (noon 2024 3 10))
       (mkState (exampleWriter 10 1 0)
                {[ str "app.log" := regular "abc";
                   str "app--2024-03-07-1.log" := regular "old";
                   str "app--2024-03-10-1.log" := regular "new" ]} [])
  = Some (tt,
          mkState (exampleWriter 10 1 0)
                  {[ str "app.log" := regular "abc";
                     str "app--2024-03-10-1.log" := regular "new" ]} [])
  /\ mill (calm (noon 2024 3 10))
          (mkState (exampleWriter 10 0 1)
                   {[ str "app.log" := regular "abc";
                      str "app--2024-03-07-1.log" := regular "old";
                      str "app--2024-03-10-1.log" := regular "new" ]} [])
     = Some (tt,
             mkState (exampleWriter 10 0 1)
                     {[ str "app.log" := regular "abc";
                        str "app--2024-03-10-1.log" := regular "new" ]} []).
Proof. split; vm_compute; reflexivity. Qed.

(** ** Beyond the claims: more of the writer's behaviour *)

(** *** The sweep: listing and selection *)
Section SweepMore.

Lemma insertSorted_Permutation {A} (less : A -> A -> bool) x (l : list A) :
  insertSorted less x l ≡ₚ x :: l.
Proof.
  induction l as [|y l IH]; simpl; [done|].
  destruct (less x y); [done|]. rewrite IH. apply Permutation_swap.
Qed.

Lemma sortBy_Permutation {A} (less : A -> A -> bool) (l : list A) :
  sortBy less l ≡ₚ l.
Proof.
  unfold sortBy.
  assert (H : forall acc,
    foldl (fun acc x => insertSorted less x acc) acc l ≡ₚ acc ++ l).
  { induction l as [|x l IH]; intros acc; simpl; [by rewrite app_nil_r|].
    rewrite IH, insertSorted_Permutation. simpl. apply Permutation_middle. }
  by rewrite H.
Qed.

Lemma insertSorted_newestFirst x l :
  newestFirst l -> newestFirst (insertSorted byFormatTime_Less x l).
Proof.
  unfold newestFirst. induction 1 as [|y l Hl IH Hy]; simpl.
  - repeat constructor.
  - unfold byFormatTime_Less, time.After at 1.
    destruct (timestamp y <? timestamp x) eqn:E.
    + apply Z.ltb_lt in E. constructor; [by constructor|].
      constructor; [lia|]. eapply Forall_impl; [done|]. simpl. lia.
    + apply Z.ltb_ge in E. constructor; [done|].
      apply Forall_forall. intros z Hz.
      apply insertSorted_elem in Hz as [->|Hz]; [done|].
      by eapply Forall_forall in Hy.
Qed.

Lemma sortBy_newestFirst l : newestFirst (sortBy byFormatTime_Less l).
Proof.
  unfold sortBy.
  assert (H : forall acc, newestFirst acc ->
    newestFirst (foldl (fun acc x => insertSorted byFormatTime_Less x acc) acc l)).
  { induction l as [|x l IH]; intros acc Hacc; simpl; [done|].
    apply IH. by apply insertSorted_newestFirst. }
  apply H. constructor.
Qed.

Lemma ReadDir_names_NoDup (fs : gmap gostring os.File) :
  NoDup (os.Name <$> os.ReadDir fs).
Proof.
  unfold os.ReadDir. rewrite sortBy_Permutation, <- list_fmap_compose.
  apply (NoDup_fst_map_to_list fs).
Qed.

(** The loop of [oldLogFiles] keeps the entries in order, after what was
    collected before. *)
Lemma collectLogFiles_sublist prefix ext files acc out :
  collectLogFiles prefix ext files acc = Some out ->
  exists new, out = acc ++ new /\ DirEntry <$> new `sublist_of` files.
Proof.
  revert acc. induction files as [|f files IH]; intros acc H; simpl in H.
  - injection H as <-. exists []. by rewrite app_nil_r.
  - destruct (os.IsDir f).
    { destruct (IH _ H) as (new & -> & Hs). exists new. split; [done|].
      by apply sublist_cons. }
    destruct (timeFromName (os.Name f) prefix ext) as [[t [e|]]|] eqn:E; [| |done].
    + destruct (IH _ H) as (new & -> & Hs). exists new. split; [done|].
      by apply sublist_cons.
    + destruct (IH _ H) as (new & -> & Hs). exists (mkLogInfo t f :: new).
      split; [by rewrite <- app_assoc|]. simpl. by apply sublist_skip.
Qed.

Lemma collectLogFiles_regular prefix ext files acc out li :
  collectLogFiles prefix ext files acc = Some out ->
  li ∈ out ->
  li ∈ acc
  \/ (DirEntry li ∈ files /\ os.IsDir (DirEntry li) = false
      /\ timeFromName (logName li) prefix ext = Some (timestamp li, None)).
Proof.
  revert acc. induction files as [|f files IH]; intros acc H Hli; simpl in H.
  - left. congruence.
  - destruct (os.IsDir f) eqn:Ed.
    { destruct (IH _ H Hli) as [?|(? & ? & ?)]; [by left|right]. set_solver. }
    destruct (timeFromName (os.Name f) prefix ext) as [[t [e|]]|] eqn:E; [| |done].
    + destruct (IH _ H Hli) as [?|(? & ? & ?)]; [by left|right]. set_solver.
    + destruct (IH _ H Hli) as [Hacc|(? & ? & ?)]; [|right; set_solver].
      apply elem_of_app in Hacc as [?|Hacc]; [by left|].
      apply list_elem_of_singleton in Hacc. subst li. right.
      unfold logName. simpl. split; [set_solver|done].
Qed.

Lemma collectLogFiles_complete prefix ext files acc out f t :
  collectLogFiles prefix ext files acc = Some out ->
  f ∈ files -> os.IsDir f = false ->
  timeFromName (os.Name f) prefix ext = Some (t, None) ->
  mkLogInfo t f ∈ out.
Proof.
  revert acc. induction files as [|g files IH]; intros acc H Hf Hd Ht; simpl in H.
  - by apply elem_of_nil in Hf.
  - apply elem_of_cons in Hf as [->|Hf].
    + rewrite Hd, Ht in H.
      destruct (collectLogFiles_sublist _ _ _ _ _ H) as (new & -> & _).
      set_solver.
    + destruct (os.IsDir g); [by eapply IH|].
      destruct (timeFromName (os.Name g) prefix ext) as [[u [e|]]|];
        [by eapply IH..|done].
Qed.

(** What [oldLogFiles] returns when the directory can be read: the regular
    files whose names the filter accepts, each once, with the date read from
    the name, newest first; the state is not touched. *)
Lemma oldLogFiles_spec env st files err st' :
  os.readdir_err env = false ->
  oldLogFiles env st = Some ((files, err), st') ->
  st' = st /\ err = None
  /\ newestFirst files
  /\ NoDup (logName <$> files)
  /\ forall n t,
       (exists li, li ∈ files /\ logName li = n /\ timestamp li = t)
       <-> (exists f, dirents st !! n = Some f /\ os.isDir f = false
                      /\ accepted (writer st) n t).
Proof.
  intros Hrd. unfold oldLogFiles, accepted. unfold_bind. rewrite Hrd.
  destruct (prefixAndExt (writer st)) as [prefix ext] eqn:Epe.
  destruct (collectLogFiles prefix ext (os.ReadDir (dirents st)) [])
    as [logFiles|] eqn:Ec; [|done].
  intros [= <- <- <-]. split; [done|]. split; [done|].
  split; [apply sortBy_newestFirst|]. split.
  - rewrite sortBy_Permutation.
    destruct (collectLogFiles_sublist _ _ _ _ _ Ec) as (new & -> & Hs).
    simpl. change (NoDup ((os.Name ∘ DirEntry) <$> new)).
    rewrite list_fmap_compose.
    eapply sublist_NoDup; [apply ReadDir_names_NoDup|].
    by apply fmap_sublist.
  - intros n t. cbn [fst snd]. split.
    + intros (li & Hli & <- & <-). apply sortBy_elem in Hli.
      destruct (collectLogFiles_regular _ _ _ _ _ _ Ec Hli)
        as [Hnil|(Hin & Hd & Ht)]; [by apply elem_of_nil in Hnil|].
      apply ReadDir_elem in Hin as (f & Hf & Hdf).
      exists f. split; [done|]. split; [congruence|done].
    + intros (f & Hf & Hd & Ht).
      exists (mkLogInfo t (os.mkDirEntry n (os.isDir f))).
      split; [|done]. apply sortBy_elem.
      eapply collectLogFiles_complete; [done| |by simpl|done].
      apply ReadDir_elem. by exists f.
Qed.

(** [mill], with the listing and the choice of files taken apart. *)
Lemma mill_eq env st :
  mill env st =
  if (maxBackups (writer st) =? 0) && (maxAge (writer st) =? 0) then Some (tt, st)
  else
    match oldLogFiles env st with
    | None => None
    | Some ((files, Some _), st1) => Some (tt, st1)
    | Some ((files, None), st1) =>
        Some (tt,
              mkState (writer st1)
                (foldl (fun fs f => os.Remove env fs (logName f)) (dirents st1)
                       (millDeletes (writer st) env files))
                (compressJobs st1))
    end.
Proof.
  unfold mill, millDeletes. unfold_bind.
  destruct ((maxBackups (writer st) =? 0) && (maxAge (writer st) =? 0)); [done|].
  destruct (oldLogFiles env st) as [[[files [e|]] st1]|]; [done| |done].
  destruct ((0 <? maxBackups (writer st)) && _); reflexivity.
Qed.

Lemma millDeletes_subset w env files li :
  li ∈ millDeletes w env files -> li ∈ files.
Proof.
  unfold millDeletes.
  destruct ((0 <? maxBackups w) && _); destruct (0 <? maxAge w);
    rewrite ?elem_of_app, ?list_elem_of_filter; intros H.
  - destruct H as [H|[_ H]]; [by eapply subseteq_drop|by eapply subseteq_take].
  - by eapply subseteq_drop.
  - destruct H as [H|[_ H]]; [by apply elem_of_nil in H|done].
  - by apply elem_of_nil in H.
Qed.

(** The cutoff of the age rule, for a number of days whose nanoseconds fit
    64 bits. *)
Lemma mill_cutoff (w : RotateWriter) (env : os.Env) :
  0 < maxAge w <= 106751 ->
  time.Add (os.now env)
           (int64 (-1 * int64 (int64 (24 * time.Hour) * int64 (maxAge w))))
  = os.now env - maxAge w * time.nsPerDay.
Proof.
  intros H. unfold time.Add, time.nsPerDay.
  change (24 * time.Hour) with 86400000000000.
  rewrite (int64_small 86400000000000) by lia.
  rewrite (int64_small (maxAge w)) by lia.
  rewrite (int64_small (86400000000000 * maxAge w)) by lia.
  rewrite int64_small by lia. lia.
Qed.

Lemma millDeletes_old w env files li :
  0 < maxAge w <= 106751 ->
  li ∈ files ->
  timestamp li < os.now env - maxAge w * time.nsPerDay ->
  li ∈ millDeletes w env files.
Proof.
  intros Hage Hli Hold. unfold millDeletes.
  rewrite (proj2 (Z.ltb_lt 0 (maxAge w))) by lia.
  cbv zeta. rewrite mill_cutoff by done.
  assert (Hsplit : li ∈ take (Z.to_nat (maxBackups w)) files
                   \/ li ∈ drop (Z.to_nat (maxBackups w)) files).
  { rewrite <- elem_of_app. by rewrite take_drop. }
  assert (Hb : time.Before (timestamp li)
                 (os.now env - maxAge w * time.nsPerDay) = true).
  { by apply Z.ltb_lt. }
  destruct ((0 <? maxBackups w) && _); rewrite elem_of_app, list_elem_of_filter.
  - destruct Hsplit; auto.
  - auto.
Qed.

Lemma millDeletes_young w env files li :
  0 < maxAge w <= 106751 -> maxBackups w <= 0 ->
  li ∈ millDeletes w env files ->
  timestamp li < os.now env - maxAge w * time.nsPerDay.
Proof.
  intros Hage Hb. unfold millDeletes.
  rewrite (proj2 (Z.ltb_ge 0 (maxBackups w))) by lia. cbn [andb].
  rewrite (proj2 (Z.ltb_lt 0 (maxAge w))) by lia. cbv zeta.
  rewrite mill_cutoff by done. rewrite app_nil_l, list_elem_of_filter.
  intros [H _]. by apply Z.ltb_lt in H.
Qed.

Lemma millDeletes_count w env files :
  0 < maxBackups w ->
  forall li, li ∈ files ->
    li ∈ take (Z.to_nat (maxBackups w)) files \/ li ∈ millDeletes w env files.
Proof.
  intros Hb li Hli. unfold millDeletes.
  rewrite (proj2 (Z.ltb_lt 0 (maxBackups w))) by lia. cbn [andb].
  destruct (maxBackups w <? Z.of_nat (length files)) eqn:E.
  - assert (Hsplit : li ∈ take (Z.to_nat (maxBackups w)) files
                     \/ li ∈ drop (Z.to_nat (maxBackups w)) files).
    { rewrite <- elem_of_app. by rewrite take_drop. }
    destruct Hsplit; [by left|right].
    destruct (0 <? maxAge w); [apply elem_of_app|]; auto.
  - apply Z.ltb_ge in E. left. rewrite take_ge by lia. done.
Qed.

Lemma millDeletes_count_only w env files :
  maxAge w <= 0 ->
  millDeletes w env files
  = if (0 <? maxBackups w) && (maxBackups w <? Z.of_nat (length files))
    then drop (Z.to_nat (maxBackups w)) files else [].
Proof.
  intros Ha. unfold millDeletes.
  rewrite (proj2 (Z.ltb_ge 0 (maxAge w))) by lia.
  by destruct ((0 <? maxBackups w) && _).
Qed.

Lemma foldl_Remove_removed env (deletes : list logInfo) fs li :
  (forall n, os.remove_err env n = false) ->
  li ∈ deletes ->
  foldl (fun fs f => os.Remove env fs (logName f)) fs deletes !! logName li = None.
Proof.
  intros Hrm. revert fs. induction deletes as [|d deletes IH]; intros fs Hli; simpl.
  - by apply elem_of_nil in Hli.
  - destruct (foldl_Remove_lookup env deletes
               (os.Remove env fs (logName d)) (logName li)) as [E|[E _]]; [|done].
    apply elem_of_cons in Hli as [->|Hli]; [|by apply IH].
    unfold logName in *. rewrite E. unfold os.Remove. rewrite Hrm.
    apply lookup_delete_eq.
Qed.


Lemma oldLogFiles_returns env st :
  os.readdir_err env = false ->
  sweepSafe (writer st) (dirents st) ->
  exists files, oldLogFiles env st = Some ((files, None), st).
Proof.
  intros Hrd Hsafe. unfold oldLogFiles. unfold_bind. rewrite Hrd.
  destruct (prefixAndExt (writer st)) as [prefix ext] eqn:Epe.
  destruct (collectLogFiles_total prefix ext (os.ReadDir (dirents st)) [])
    as [out ->]; [|by eexists].
  intros f Hf Hd. apply ReadDir_elem in Hf as (g & Hg & Hdg).
  unfold sweepSafe in Hsafe. rewrite Epe in Hsafe.
  eapply Hsafe; [done|congruence].
Qed.

(** A sweep that reads the directory removes the files of [millDeletes]. *)
Lemma mill_deletes env st :
  os.readdir_err env = false ->
  sweepSafe (writer st) (dirents st) ->
  (maxBackups (writer st) =? 0) && (maxAge (writer st) =? 0) = false ->
  exists files,
    oldLogFiles env st = Some ((files, None), st)
    /\ mill env st
       = Some (tt,
               mkState (writer st)
                 (foldl (fun fs f => os.Remove env fs (logName f)) (dirents st)
                        (millDeletes (writer st) env files))
                 (compressJobs st)).
Proof.
  intros Hrd Hsafe Hz.
  destruct (oldLogFiles_returns env st Hrd Hsafe) as [files Hf].
  exists files. split; [done|]. by rewrite mill_eq, Hz, Hf.
Qed.

Lemma state_eta st : mkState (writer st) (dirents st) (compressJobs st) = st.
Proof. by destruct st. Qed.

Lemma foldl_Remove_failing env (deletes : list logInfo) fs n :
  os.remove_err env n = true ->
  foldl (fun fs f => os.Remove env fs (logName f)) fs deletes !! n = fs !! n.
Proof.
  intros Hn. revert fs. induction deletes as [|d deletes IH]; intros fs; simpl; [done|].
  rewrite IH. unfold os.Remove.
  destruct (os.remove_err env (logName d)) eqn:E; [done|].
  apply lookup_delete_ne. intros Heq. congruence.
Qed.

Lemma foldl_Remove_frame env (deletes : list logInfo) fs n :
  foldl (fun fs f => os.Remove env fs (logName f)) fs deletes !! n = fs !! n
  \/ (foldl (fun fs f => os.Remove env fs (logName f)) fs deletes !! n = None
      /\ exists li, li ∈ deletes /\ logName li = n).
Proof. exact (foldl_Remove_lookup env deletes fs n). Qed.

Lemma accepted_inj w n t u : accepted w n t -> accepted w n u -> t = u.
Proof. unfold accepted. congruence. Qed.

End SweepMore.

(** X1 (oldLogFiles, byFormatTime.Less, timeFromName): when the directory can
    be read and no name makes the filter slice out of range, [oldLogFiles]
    returns without an error and leaves the state alone; its list is ordered
    newest first, names no file twice, and holds exactly the regular files
    whose names the filter accepts, each with the date read from its name. *)
Theorem oldLogFiles_listing (env : os.Env) (st : State) :
  os.readdir_err env = false ->
  sweepSafe (writer st) (dirents st) ->
  exists files,
    oldLogFiles env st = Some ((files, None), st)
    /\ newestFirst files
    /\ NoDup (logName <$> files)
    /\ forall n t,
         (exists li, li ∈ files /\ logName li = n /\ timestamp li = t)
         <-> (exists f, dirents st !! n = Some f /\ os.isDir f = false
                        /\ accepted (writer st) n t).
Proof.
  intros Hrd Hsafe.
  destruct (oldLogFiles_returns env st Hrd Hsafe) as [files Hf].
  exists files. split; [done|].
  destruct (oldLogFiles_spec env st files None st Hrd Hf) as (_ & _ & H).
  exact H.
Qed.

Lemma oldLogFiles_listing_witness :
  exists files,
    oldLogFiles exampleEnv (exampleBackups 1 0)
    = Some ((files, None), exampleBackups 1 0)
    /\ newestFirst files
    /\ NoDup (logName <$> files)
    /\ forall n t,
         (exists li, li ∈ files /\ logName li = n /\ timestamp li = t)
         <-> (exists f, dirents (exampleBackups 1 0) !! n = Some f
                        /\ os.isDir f = false
                        /\ accepted (writer (exampleBackups 1 0)) n t).
Proof.
  apply (oldLogFiles_listing exampleEnv (exampleBackups 1 0)).
  - reflexivity.
  - apply sweepSafeb_sound. vm_compute. reflexivity.
Defined.

(** X2 (mill, oldLogFiles): whatever fails, a sweep leaves the writer and the
    compression jobs alone, adds and changes no file, and keeps the live
    file; a file it removes is a regular file whose name the filter accepts
    and whose removal did not fail. *)
Theorem mill_removes_only_accepted (env : os.Env) (st : State) :
  sweepSafe (writer st) (dirents st) ->
  exists st',
    mill env st = Some (tt, st')
    /\ writer st' = writer st
    /\ compressJobs st' = compressJobs st
    /\ dirents st' !! activeName (writer st) = dirents st !! activeName (writer st)
    /\ forall n,
         dirents st' !! n = dirents st !! n
         \/ (dirents st' !! n = None
             /\ os.remove_err env n = false
             /\ exists f t, dirents st !! n = Some f /\ os.isDir f = false
                            /\ accepted (writer st) n t).
Proof.
  intros Hsafe.
  destruct (mill_total env st Hsafe) as [st' Hm]. exists st'. split; [done|].
  destruct (mill_keeps_active env st tt st' Hm) as (Hw & Hj & Ha).
  split; [done|]. split; [done|]. split; [done|].
  intros n. revert Hm. rewrite mill_eq.
  destruct ((maxBackups (writer st) =? 0) && (maxAge (writer st) =? 0)).
  { intros [= <-]. by left. }
  destruct (os.readdir_err env) eqn:Hrd.
  { unfold oldLogFiles. unfold_bind. rewrite Hrd. intros [= <-]. by left. }
  destruct (oldLogFiles_returns env st Hrd Hsafe) as [files Hf]. rewrite Hf.
  intros [= <-]. cbn [dirents].
  destruct (os.remove_err env n) eqn:Hrm.
  { left. by apply foldl_Remove_failing. }
  destruct (foldl_Remove_frame env (millDeletes (writer st) env files)
              (dirents st) n) as [H|[H (li & Hli & Hn)]]; [by left|right].
  split; [done|]. split; [done|].
  apply millDeletes_subset in Hli.
  destruct (oldLogFiles_spec env st files None st Hrd Hf) as (_ & _ & _ & _ & Hiff).
  destruct (proj1 (Hiff n (timestamp li))) as (f & Hfn & Hd & Hacc);
    [by exists li|].
  by exists f, (timestamp li).
Qed.

Lemma mill_removes_only_accepted_witness :
  exists st',
    mill exampleEnv (exampleBackups 1 0) = Some (tt, st')
    /\ writer st' = writer (exampleBackups 1 0)
    /\ compressJobs st' = compressJobs (exampleBackups 1 0)
    /\ dirents st' !! activeName (writer (exampleBackups 1 0))
       = dirents (exampleBackups 1 0) !! activeName (writer (exampleBackups 1 0))
    /\ forall n,
         dirents st' !! n = dirents (exampleBackups 1 0) !! n
         \/ (dirents st' !! n = None
             /\ os.remove_err exampleEnv n = false
             /\ exists f t, dirents (exampleBackups 1 0) !! n = Some f
                            /\ os.isDir f = false
                            /\ accepted (writer (exampleBackups 1 0)) n t).
Proof.
  apply (mill_removes_only_accepted exampleEnv (exampleBackups 1 0)).
  apply sweepSafeb_sound. vm_compute. reflexivity.
Defined.

(** X3 (mill): the age rule.  With an age limit of 1 to 106751 days (the
    range in which the limit in nanoseconds fits 64 bits), a readable
    directory and no failing removal, the sweep removes every regular file
    whose name the filter accepts with a date before now minus the limit;
    with no count limit these are the only files it removes. *)
Theorem mill_age_rule (env : os.Env) (st : State) :
  0 < maxAge (writer st) <= 106751 ->
  os.readdir_err env = false ->
  (forall n, os.remove_err env n = false) ->
  sweepSafe (writer st) (dirents st) ->
  exists st',
    mill env st = Some (tt, st')
    /\ (forall n f t,
          dirents st !! n = Some f -> os.isDir f = false ->
          accepted (writer st) n t ->
          t < os.now env - maxAge (writer st) * time.nsPerDay ->
          dirents st' !! n = None)
    /\ (maxBackups (writer st) <= 0 ->
        forall n f t,
          dirents st !! n = Some f ->
          accepted (writer st) n t ->
          os.now env - maxAge (writer st) * time.nsPerDay <= t ->
          dirents st' !! n = Some f).
Proof.
  intros Hage Hrd Hrm Hsafe.
  destruct (mill_deletes env st Hrd Hsafe) as (files & Hf & Hm).
  { apply andb_false_iff. right. apply Z.eqb_neq. lia. }
  eexists. split; [exact Hm|].
  destruct (oldLogFiles_spec env st files None st Hrd Hf) as (_ & _ & _ & _ & Hiff).
  cbn [dirents]. split.
  - intros n f t Hn Hd Hacc Hold.
    destruct (proj2 (Hiff n t)) as (li & Hli & <- & <-); [by exists f|].
    apply foldl_Remove_removed; [done|]. by apply millDeletes_old.
  - intros Hb n f t Hn Hacc Hyoung.
    destruct (foldl_Remove_frame env (millDeletes (writer st) env files)
                (dirents st) n) as [H|[_ (li & Hli & Hname)]]; [by rewrite H|].
    exfalso.
    pose proof (millDeletes_young _ _ _ _ Hage Hb Hli) as Hlt.
    apply millDeletes_subset in Hli.
    destruct (proj1 (Hiff n (timestamp li))) as (g & _ & _ & Hacc'); [by exists li|].
    pose proof (accepted_inj _ _ _ _ Hacc Hacc'). lia.
Qed.

Lemma mill_age_rule_witness :
  exists st',
    mill exampleEnv (exampleBackups 1 0) = Some (tt, st')
    /\ (forall n f t,
          dirents (exampleBackups 1 0) !! n = Some f -> os.isDir f = false ->
          accepted (writer (exampleBackups 1 0)) n t ->
          t < os.now exampleEnv - maxAge (writer (exampleBackups 1 0)) * time.nsPerDay ->
          dirents st' !! n = None)
    /\ (maxBackups (writer (exampleBackups 1 0)) <= 0 ->
        forall n f t,
          dirents (exampleBackups 1 0) !! n = Some f ->
          accepted (writer (exampleBackups 1 0)) n t ->
          os.now exampleEnv - maxAge (writer (exampleBackups 1 0)) * time.nsPerDay <= t ->
          dirents st' !! n = Some f).
Proof.
  apply (mill_age_rule exampleEnv (exampleBackups 1 0)).
  - vm_compute. split; [reflexivity|discriminate].
  - reflexivity.
  - reflexivity.
  - apply sweepSafeb_sound. vm_compute. reflexivity.
Defined.

(** X4 (mill): the count rule bounds what is left.  With a positive count
    limit, a readable directory and no failing removal, at most [maxBackups]
    regular files with accepted names are left after a sweep. *)
Theorem mill_count_bound (env : os.Env) (st : State) :
  0 < maxBackups (writer st) ->
  os.readdir_err env = false ->
  (forall n, os.remove_err env n = false) ->
  sweepSafe (writer st) (dirents st) ->
  exists st' kept,
    mill env st = Some (tt, st')
    /\ NoDup kept
    /\ Z.of_nat (length kept) <= maxBackups (writer st)
    /\ forall n f t,
         dirents st' !! n = Some f -> os.isDir f = false ->
         accepted (writer st) n t -> n ∈ kept.
Proof.
  intros Hb Hrd Hrm Hsafe.
  destruct (mill_deletes env st Hrd Hsafe) as (files & Hf & Hm).
  { apply andb_false_iff. left. apply Z.eqb_neq. lia. }
  destruct (oldLogFiles_spec env st files None st Hrd Hf)
    as (_ & _ & _ & Hnd & Hiff).
  eexists. exists (logName <$> take (Z.to_nat (maxBackups (writer st))) files).
  split; [exact Hm|]. split.
  { eapply sublist_NoDup; [exact Hnd|]. apply fmap_sublist, sublist_take. }
  split. { rewrite length_fmap, length_take. lia. }
  cbn [dirents]. intros n f t Hn Hd Hacc.
  destruct (foldl_Remove_frame env (millDeletes (writer st) env files)
              (dirents st) n) as [H|[H _]]; [|congruence].
  rewrite H in Hn.
  destruct (proj2 (Hiff n t)) as (li & Hli & <- & <-); [by exists f|].
  destruct (millDeletes_count (writer st) env files Hb li Hli) as [Hk|Hdel].
  - apply list_elem_of_fmap. by exists li.
  - pose proof (foldl_Remove_removed env _ (dirents st) li Hrm Hdel) as Hgone.
    congruence.
Qed.

Lemma mill_count_bound_witness :
  exists st' kept,
    mill exampleEnv (exampleBackups 0 1) = Some (tt, st')
    /\ NoDup kept
    /\ Z.of_nat (length kept) <= maxBackups (writer (exampleBackups 0 1))
    /\ forall n f t,
         dirents st' !! n = Some f -> os.isDir f = false ->
         accepted (writer (exampleBackups 0 1)) n t -> n ∈ kept.
Proof.
  apply (mill_count_bound exampleEnv (exampleBackups 0 1)).
  - reflexivity.
  - reflexivity.
  - reflexivity.
  - apply sweepSafeb_sound. vm_compute. reflexivity.
Defined.

(** X5 (mill, byFormatTime.Less): the count rule keeps the newest.  With a
    positive count limit and no age limit, a file is removed by the sweep
    only if [maxBackups] other accepted files, none of them older than it,
    stay in the directory. *)
Theorem mill_count_keeps_newest (env : os.Env) (st : State) :
  0 < maxBackups (writer st) ->
  maxAge (writer st) <= 0 ->
  sweepSafe (writer st) (dirents st) ->
  exists st',
    mill env st = Some (tt, st')
    /\ forall n f t,
         dirents st !! n = Some f ->
         accepted (writer st) n t ->
         dirents st' !! n = None ->
         exists kept,
           NoDup kept
           /\ Z.of_nat (length kept) = maxBackups (writer st)
           /\ forall m, m ∈ kept ->
                exists g u, dirents st' !! m = Some g
                            /\ dirents st !! m = Some g
                            /\ accepted (writer st) m u
                            /\ t <= u.
Proof.
  intros Hb Ha Hsafe.
  destruct (mill_total env st Hsafe) as [st' Hm]. exists st'. split; [done|].
  intros n f t Hn Hacc Hgone. revert Hm. rewrite mill_eq.
  destruct ((maxBackups (writer st) =? 0) && (maxAge (writer st) =? 0)).
  { intros [= <-]. congruence. }
  destruct (os.readdir_err env) eqn:Hrd.
  { unfold oldLogFiles. unfold_bind. rewrite Hrd. intros [= <-].
    cbn [dirents] in Hgone. congruence. }
  destruct (oldLogFiles_returns env st Hrd Hsafe) as [files Hf]. rewrite Hf.
  intros [= <-]. cbn [dirents] in *.
  destruct (oldLogFiles_spec env st files None st Hrd Hf)
    as (_ & _ & Hsorted & Hnd & Hiff).
  set (k := Z.to_nat (maxBackups (writer st))).
  rewrite millDeletes_count_only in * by done.
  rewrite (proj2 (Z.ltb_lt 0 (maxBackups (writer st)))) in * by done.
  cbn [andb] in *. fold k in Hgone |- *.
  destruct (maxBackups (writer st) <? Z.of_nat (length files)) eqn:Elen;
    [|simpl in Hgone; congruence].
  apply Z.ltb_lt in Elen.
  destruct (foldl_Remove_frame env (drop k files) (dirents st) n)
    as [H|[_ (li & Hli & Hname)]]; [congruence|].
  rewrite <- (take_drop k files) in Hsorted, Hnd.
  rewrite fmap_app in Hnd. apply NoDup_app in Hnd as (Hnd1 & Hdisj & _).
  exists (logName <$> take k files). split; [done|]. split.
  { rewrite length_fmap, length_take. unfold k. lia. }
  intros m Hm. apply list_elem_of_fmap in Hm as (lj & -> & Hlj).
  assert (Hkeep : foldl (fun fs f => os.Remove env fs (logName f)) (dirents st)
                    (drop k files) !! logName lj = dirents st !! logName lj).
  { destruct (foldl_Remove_frame env (drop k files) (dirents st) (logName lj))
      as [H|[_ (lk & Hlk & Hnk)]]; [done|].
    exfalso. apply (Hdisj (logName lj)).
    - apply list_elem_of_fmap. by exists lj.
    - apply list_elem_of_fmap. by exists lk. }
  destruct (proj1 (Hiff (logName lj) (timestamp lj))) as (g & Hg & _ & Haccj).
  { exists lj. split; [|done]. rewrite <- (take_drop k files).
    apply elem_of_app. by left. }
  exists g, (timestamp lj). rewrite Hkeep. split; [done|]. split; [done|].
  split; [done|].
  assert (Et : t = timestamp li).
  { destruct (proj1 (Hiff n (timestamp li))) as (g' & _ & _ & Hacc').
    { exists li. split; [|done]. rewrite <- (take_drop k files).
      apply elem_of_app. by right. }
    by eapply accepted_inj. }
  rewrite Et.
  by apply (StronglySorted_app_1_elem_of _ _ _ lj li Hsorted).
Qed.

Lemma mill_count_keeps_newest_witness :
  exists st',
    mill exampleEnv (exampleBackups 0 1) = Some (tt, st')
    /\ forall n f t,
         dirents (exampleBackups 0 1) !! n = Some f ->
         accepted (writer (exampleBackups 0 1)) n t ->
         dirents st' !! n = None ->
         exists kept,
           NoDup kept
           /\ Z.of_nat (length kept) = maxBackups (writer (exampleBackups 0 1))
           /\ forall m, m ∈ kept ->
                exists g u, dirents st' !! m = Some g
                            /\ dirents (exampleBackups 0 1) !! m = Some g
                            /\ accepted (writer (exampleBackups 0 1)) m u
                            /\ t <= u.
Proof.
  apply (mill_count_keeps_newest exampleEnv (exampleBackups 0 1)).
  - reflexivity.
  - vm_compute. discriminate.
  - apply sweepSafeb_sound. vm_compute. reflexivity.
Defined.

(** X6 (mill, oldLogFiles): failures of the sweep are swallowed.  When the
    directory cannot be read, or no file can be removed, the sweep returns
    and the state is what it was. *)
Theorem mill_swallows_failures (env : os.Env) (st : State) :
  os.readdir_err env = true
  \/ (sweepSafe (writer st) (dirents st) /\ forall n, os.remove_err env n = true) ->
  mill env st = Some (tt, st).
Proof.
  intros [Hrd|[Hsafe Hrm]]; rewrite mill_eq;
    destruct ((maxBackups (writer st) =? 0) && (maxAge (writer st) =? 0)); try done.
  - unfold oldLogFiles. unfold_bind. by rewrite Hrd.
  - destruct (os.readdir_err env) eqn:Hrd.
    { unfold oldLogFiles. unfold_bind. by rewrite Hrd. }
    destruct (oldLogFiles_returns env st Hrd Hsafe) as [files ->].
    assert (E : foldl (fun fs f => os.Remove env fs (logName f)) (dirents st)
                  (millDeletes (writer st) env files) = dirents st).
    { apply map_eq. intros n. by apply foldl_Remove_failing. }
    by rewrite E, state_eta.
Qed.

Lemma mill_swallows_failures_witness :
  mill readDirFails (exampleBackups 1 1) = Some (tt, exampleBackups 1 1).
Proof.
  apply (mill_swallows_failures readDirFails (exampleBackups 1 1)).
  left. reflexivity.
Defined.

(** X7 (mill): limits that are not positive switch the sweep off: with
    [maxBackups <= 0] and [maxAge <= 0] nothing is removed.  When both are
    zero the directory is not even read; a negative limit does not prevent
    the listing. *)
Theorem mill_disabled (env : os.Env) (st : State) :
  maxBackups (writer st) <= 0 ->
  maxAge (writer st) <= 0 ->
  (maxBackups (writer st) = 0 /\ maxAge (writer st) = 0)
  \/ sweepSafe (writer st) (dirents st) ->
  mill env st = Some (tt, st).
Proof.
  intros Hb Ha Hor. rewrite mill_eq.
  destruct ((maxBackups (writer st) =? 0) && (maxAge (writer st) =? 0)) eqn:Ez;
    [done|].
  destruct Hor as [[E1 E2]|Hsafe].
  { rewrite E1, E2 in Ez. discriminate. }
  destruct (os.readdir_err env) eqn:Hrd.
  { unfold oldLogFiles. unfold_bind. by rewrite Hrd. }
  destruct (oldLogFiles_returns env st Hrd Hsafe) as [files ->].
  rewrite millDeletes_count_only by done.
  rewrite (proj2 (Z.ltb_ge 0 (maxBackups (writer st)))) by done.
  cbn [andb foldl]. by rewrite state_eta.
Qed.

Lemma mill_disabled_witness :
  mill exampleEnv (exampleBackups (-1) (-1)) = Some (tt, exampleBackups (-1) (-1)).
Proof.
  apply (mill_disabled exampleEnv (exampleBackups (-1) (-1))).
  - vm_compute. discriminate.
  - vm_compute. discriminate.
  - right. apply sweepSafeb_sound. vm_compute. reflexivity.
Defined.

(** *** Panics of the filter *)
Section Panics.

Lemma HasPrefix_inv s p : strings.HasPrefix s p = true -> exists r, s = p ++ r.
Proof.
  revert s. induction p as [|c p IH]; intros s H; simpl in H.
  - by exists s.
  - destruct s as [|d s]; [done|].
    apply andb_true_iff in H as [Hc Hp]. apply bool_decide_eq_true in Hc as ->.
    destruct (IH _ Hp) as [r ->]. by exists r.
Qed.

Lemma HasSuffix_inv s e :
  strings.HasSuffix s e = true ->
  exists q, s = q ++ e /\ length q = (length s - length e)%nat.
Proof.
  unfold strings.HasSuffix. intros H.
  apply andb_true_iff in H as [Hl Hd]. apply Nat.leb_le in Hl.
  apply bool_decide_eq_true in Hd.
  exists (take (length s - length e) s). split.
  - rewrite <- (take_drop (length s - length e) s) at 1. by f_equal.
  - rewrite length_take. lia.
Qed.

(** The slice of [timeFromName] is out of range only if the dash that ends
    the prefix lies in the extension. *)
Lemma timeFromName_None n stem' ext :
  timeFromName n (stem' ++ str "-") ext = None -> "-"%char ∈ ext.
Proof.
  unfold timeFromName.
  destruct (strings.HasPrefix n (stem' ++ str "-")) eqn:Hp; [|done].
  destruct (strings.HasSuffix n ext) eqn:Hs; [|done]. cbn [negb].
  destruct (HasPrefix_inv _ _ Hp) as [r Hr].
  destruct (HasSuffix_inv _ _ Hs) as (q & Hq & Hlen).
  unfold slice.
  destruct ((length (stem' ++ str "-") <=? length n - length ext)%nat
            && (length n - length ext <=? length n)%nat) eqn:Hb.
  { simpl. destruct (_ <? 4)%nat; [done|]. by destruct (time.Parse _). }
  intros _.
  assert (Hlt : (length q < length (stem' ++ str "-"))%nat).
  { rewrite Hlen. apply andb_false_iff in Hb as [Hb|Hb].
    - apply Nat.leb_gt in Hb. lia.
    - apply Nat.leb_gt in Hb. lia. }
  rewrite length_app in Hlt. simpl in Hlt.
  assert (Hdash : n !! length stem' = Some "-"%char).
  { rewrite Hr, <- app_assoc. simpl. by apply list_lookup_middle. }
  rewrite Hq, lookup_app_r in Hdash by lia.
  by eapply list_elem_of_lookup_2.
Qed.

Lemma alwaysSafe_no_dash w :
  "-"%char ∉ filepath.Ext (activeName w) -> alwaysSafe w.
Proof.
  intros Hnd n E. rewrite prefixAndExt_eq in E. cbn [fst snd] in E.
  by apply timeFromName_None in E.
Qed.

Lemma alwaysSafe_sweepSafe w fs : alwaysSafe w -> sweepSafe w fs.
Proof. intros H n f _ _. apply H. Qed.

Lemma alwaysSafe_sameConfig w w' : sameConfig w w' -> alwaysSafe w -> alwaysSafe w'.
Proof.
  intros Hc H n. rewrite (sameConfig_prefixAndExt _ _ Hc). apply H.
Qed.

Lemma close_total env st : exists r st', close env st = Some (r, st').
Proof.
  unfold close. unfold_bind. destruct (file (writer st)); by do 2 eexists.
Qed.

Lemma openNew_total env st : exists r st', openNew env st = Some (r, st').
Proof.
  destruct st as [w fs jobs]. unfold openNew. unfold_M.
  destruct (os.mkdir_err env); [by do 2 eexists|].
  unfold os.Stat. destruct (os.stat_err env) eqn:Hst.
  { destruct (os.OpenFile_create _ _ _ _); by do 2 eexists. }
  destruct (fs !! activeName w) as [info|].
  - destruct (backupName_total env fs (filename w) (os.now env) Hst) as [b ->].
    destruct (os.rename_err env); [by do 2 eexists|].
    destruct (compress w); unfold_M;
      destruct (os.OpenFile_create _ _ _ _); by do 2 eexists.
  - destruct (os.OpenFile_create _ _ _ _); by do 2 eexists.
Qed.

Lemma rotate_total env st :
  alwaysSafe (writer st) -> exists r st', rotate env st = Some (r, st').
Proof.
  intros Hsafe. unfold rotate. unfold_bind.
  destruct (close_total env st) as (r1 & st1 & E1). rewrite E1.
  destruct (close_spec _ _ _ _ E1) as (Hc1 & _).
  destruct r1; [by do 2 eexists|].
  destruct (openNew_total env st1) as (r2 & st2 & E2). rewrite E2.
  destruct (openNew_spec _ _ _ _ E2) as (Hc2 & _).
  destruct r2; [by do 2 eexists|].
  destruct (mill_total env st2) as [st3 ->]; [|by do 2 eexists].
  apply alwaysSafe_sweepSafe.
  by eapply alwaysSafe_sameConfig, alwaysSafe_sameConfig.
Qed.

Lemma openExistingOrNew_total env k st :
  alwaysSafe (writer st) -> exists r st', openExistingOrNew env k st = Some (r, st').
Proof.
  intros Hsafe. unfold openExistingOrNew. unfold_bind.
  destruct (mill_total env st) as [st1 E1]; [by apply alwaysSafe_sweepSafe|].
  rewrite E1. destruct (mill_spec _ _ _ _ E1) as (Hw & _).
  destruct (os.Stat env (dirents st1) (activeName (writer st1))).
  - destruct (_ <=? _).
    { apply rotate_total. by rewrite Hw. }
    destruct (negb _); [apply openNew_total|by do 2 eexists].
  - apply openNew_total.
  - by do 2 eexists.
Qed.

Lemma fileWrite_total env p st : exists r st', fileWrite env p st = Some (r, st').
Proof.
  unfold fileWrite. unfold_bind. destruct (file (writer st)); [|by do 2 eexists].
  destruct (os.write_limit env); by do 2 eexists.
Qed.

Lemma collectLogFiles_panics prefix ext files acc f :
  f ∈ files -> os.IsDir f = false ->
  timeFromName (os.Name f) prefix ext = None ->
  collectLogFiles prefix ext files acc = None.
Proof.
  revert acc. induction files as [|g files IH]; intros acc Hf Hd Ht; simpl.
  - by apply elem_of_nil in Hf.
  - apply elem_of_cons in Hf as [<-|Hf].
    + by rewrite Hd, Ht.
    + destruct (os.IsDir g); [by apply IH|].
      destruct (timeFromName (os.Name g) prefix ext) as [[t [e|]]|];
        [by apply IH..|done].
Qed.

Lemma Ext_scan_app e r acc :
  "."%char ∉ e -> "/"%char ∉ e ->
  filepath.Ext_scan (rev e ++ r) acc = filepath.Ext_scan r (e ++ acc).
Proof.
  revert acc. induction e as [|c e IH] using rev_ind; intros acc Hd Hs; [done|].
  rewrite rev_app_distr. simpl.
  apply not_elem_of_app in Hd as [Hd Hc]. apply not_elem_of_app in Hs as [Hs Hc'].
  unfold filepath.IsPathSeparator.
  rewrite bool_decide_eq_false_2 by set_solver.
  rewrite bool_decide_eq_false_2 by set_solver.
  rewrite IH by done. by rewrite <- app_assoc.
Qed.

Lemma Ext_app_dot s e :
  "."%char ∉ e -> "/"%char ∉ e -> filepath.Ext (s ++ "."%char :: e) = "."%char :: e.
Proof.
  intros Hd Hs. unfold filepath.Ext.
  rewrite rev_app_distr. simpl. rewrite <- app_assoc.
  rewrite Ext_scan_app by done. simpl. by rewrite app_nil_r.
Qed.

Lemma Write_total env p st :
  alwaysSafe (writer st) -> exists n err st', Write env p st = Some ((n, err), st').
Proof.
  intros Hnd. rewrite Write_eq. cbv zeta.
  destruct (maxSize (writer st) <? Z.of_nat (length p)); [by do 3 eexists|].
  assert (Hopen : exists r st1,
    match file (writer st) with
    | Some _ => Some (None, st)
    | None => openExistingOrNew env (length p) st
    end = Some (r, st1) /\ sameConfig (writer st) (writer st1)).
  { destruct (file (writer st)) eqn:Ef.
    - do 2 eexists. split; [done|]. apply sameConfig_refl.
    - destruct (openExistingOrNew_total env (length p) st Hnd) as (r & st1 & E).
      exists r, st1. split; [done|].
      by destruct (openExistingOrNew_spec _ _ _ _ _ Ef E). }
  destruct Hopen as (r & st1 & -> & Hc).
  destruct r; [by do 3 eexists|].
  assert (Hrot : exists r st2,
    (if maxSize (writer st1) <? size (writer st1) + Z.of_nat (length p)
     then rotate env st1 else Some (None, st1)) = Some (r, st2)).
  { destruct (_ <? _); [|by do 2 eexists].
    apply rotate_total. by eapply alwaysSafe_sameConfig. }
  destruct Hrot as (r & st2 & ->).
  destruct r; [by do 3 eexists|].
  destruct (fileWrite_total env p st2) as ([n err] & st3 & ->). by do 3 eexists.
Qed.

End Panics.

(** X8 (Write, Close, rotate, openNew, mill, timeFromName, backupName): when
    the extension of the writer's file name has no dash and no [os.Stat] of
    the call fails, [Write] returns, in every state and whatever else
    fails: no slice of the filter is out of range, and the search for a
    backup name ends, every name it tries being found or found missing. *)
Theorem Write_returns (env : os.Env) (p : list byte) (st : State) :
  "-"%char ∉ filepath.Ext (activeName (writer st)) ->
  os.stat_err env = false ->
  exists n err st', Write env p st = Some ((n, err), st').
Proof. intros Hnd _. by apply Write_total, alwaysSafe_no_dash. Qed.

Lemma Write_returns_witness :
  exists n err st', Write renameFails (bytes "k") exampleFull = Some ((n, err), st').
Proof.
  apply (Write_returns renameFails (bytes "k") exampleFull).
  - vm_compute. intros H.
    repeat (apply elem_of_cons in H as [H|H]; [discriminate|]).
    by apply elem_of_nil in H.
  - reflexivity.
Defined.

(** X9 (timeFromName, prefixAndExt, oldLogFiles, mill, openExistingOrNew,
    Write): the slice of [timeFromName] can be out of range.  For a writer on
    a file named [a.b.b-c] with limits that are not both zero, a regular
    file named [a.b-c] in the directory has the prefix [a.b-] and the
    extension [.b-c], which overlap: the sweep panics, and so does the
    first [Write]. *)
Theorem sweep_panics_on_overlap (env : os.Env) (p : list byte) (st : State)
    (a b c : gostring) (f : os.File) :
  activeName (writer st) = a ++ "."%char :: b ++ "."%char :: b ++ "-"%char :: c ->
  "."%char ∉ b ++ "-"%char :: c ->
  "/"%char ∉ b ++ "-"%char :: c ->
  dirents st !! (a ++ "."%char :: b ++ "-"%char :: c) = Some f ->
  os.isDir f = false ->
  os.readdir_err env = false ->
  (maxBackups (writer st) =? 0) && (maxAge (writer st) =? 0) = false ->
  timeFromName (a ++ "."%char :: b ++ "-"%char :: c)
               (prefixAndExt (writer st)).1 (prefixAndExt (writer st)).2 = None
  /\ mill env st = None
  /\ (file (writer st) = None ->
      Z.of_nat (length p) <= maxSize (writer st) ->
      Write env p st = None).
Proof.
  intros Ename Hdot Hsep Hf Hd Hrd Hz.
  set (n := a ++ "."%char :: b ++ "-"%char :: c).
  assert (Eext : filepath.Ext (activeName (writer st))
                 = "."%char :: b ++ "-"%char :: c).
  { rewrite Ename.
    change (a ++ "."%char :: b ++ "."%char :: b ++ "-"%char :: c)
      with (a ++ ("."%char :: b) ++ "."%char :: b ++ "-"%char :: c).
    rewrite app_assoc. by apply Ext_app_dot. }
  assert (Estem : stem (activeName (writer st)) = a ++ "."%char :: b).
  { pose proof (stem_Ext (activeName (writer st))) as H.
    rewrite Eext in H. rewrite Ename in H at 2.
    change (a ++ "."%char :: b ++ "."%char :: b ++ "-"%char :: c)
      with (a ++ ("."%char :: b) ++ "."%char :: b ++ "-"%char :: c) in H.
    rewrite app_assoc in H. by apply app_inv_tail in H. }
  assert (Ht : timeFromName n (prefixAndExt (writer st)).1
                 (prefixAndExt (writer st)).2 = None).
  { rewrite prefixAndExt_eq, Eext, Estem. cbn [fst snd]. unfold timeFromName.
    assert (E1 : n = ((a ++ "."%char :: b) ++ str "-") ++ c).
    { unfold n. by rewrite <- !app_assoc. }
    rewrite E1 at 1. rewrite HasPrefix_app. cbn [negb].
    assert (E2 : n = a ++ "."%char :: b ++ "-"%char :: c) by done.
    rewrite E2 at 1. rewrite HasSuffix_app. cbn [negb].
    unfold slice.
    assert (Hlen : ((length ((a ++ "."%char :: b) ++ str "-")
                     <=? length n - length ("."%char :: b ++ "-"%char :: c))%nat
                    && (length n - length ("."%char :: b ++ "-"%char :: c)
                        <=? length n)%nat) = false).
    { apply andb_false_iff. left. apply Nat.leb_gt. unfold n.
      rewrite !length_app. simpl. rewrite !length_app. simpl. lia. }
    by rewrite Hlen. }
  split; [done|].
  assert (Hmill : mill env st = None).
  { rewrite mill_eq, Hz. unfold oldLogFiles. unfold_bind. rewrite Hrd.
    destruct (prefixAndExt (writer st)) as [prefix ext].
    rewrite (collectLogFiles_panics prefix ext _ [] (os.mkDirEntry n false));
      [done| |done|done].
    apply ReadDir_elem. exists f. by rewrite Hd. }
  split; [done|].
  intros Hfile Hlen. rewrite Write_eq. cbv zeta.
  rewrite (proj2 (Z.ltb_ge _ _)) by lia. rewrite Hfile.
  unfold openExistingOrNew. unfold_bind. by rewrite Hmill.
Qed.

Lemma sweep_panics_on_overlap_witness :
  timeFromName (str "x" ++ "."%char :: str "b" ++ "-"%char :: str "y")
               (prefixAndExt (writer exampleOverlap)).1
               (prefixAndExt (writer exampleOverlap)).2 = None
  /\ mill exampleEnv exampleOverlap = None
  /\ (file (writer exampleOverlap) = None ->
      Z.of_nat (length (bytes "k")) <= maxSize (writer exampleOverlap) ->
      Write exampleEnv (bytes "k") exampleOverlap = None).
Proof.
  apply (sweep_panics_on_overlap exampleEnv (bytes "k") exampleOverlap
           (str "x") (str "b") (str "y") (regular "abc")).
  - reflexivity.
  - vm_compute. intros H. repeat (apply elem_of_cons in H as [H|H]; [discriminate|]).
    by apply elem_of_nil in H.
  - vm_compute. intros H. repeat (apply elem_of_cons in H as [H|H]; [discriminate|]).
    by apply elem_of_nil in H.
  - reflexivity.
  - reflexivity.
  - reflexivity.
  - reflexivity.
Defined.

(** *** Writes without rotation, and [Close] *)
Section WriteMore.

(** A write with the handle open and room for the bytes goes to the file at
    once: nothing is opened, rotated or swept. *)
Lemma Write_fits (env : os.Env) (p : list byte) (st : State) (h : gostring) :
  file (writer st) = Some h ->
  Z.of_nat (length p) <= maxSize (writer st) ->
  size (writer st) + Z.of_nat (length p) <= maxSize (writer st) ->
  Write env p st
  = Some ((Z.of_nat (length (written env p).1), (written env p).2),
          mkState (set_size (size (writer st) + Z.of_nat (length (written env p).1))
                            (writer st))
                  (alter (appendBytes (written env p).1) h (dirents st))
                  (compressJobs st)).
Proof.
  intros Hf Hlen Hfit. rewrite Write_eq. cbv zeta.
  rewrite (proj2 (Z.ltb_ge _ _)) by lia. rewrite Hf.
  rewrite (proj2 (Z.ltb_ge _ _)) by lia.
  unfold fileWrite, written. unfold_bind. rewrite Hf.
  by destruct (os.write_limit env).
Qed.

Lemma written_length env p : (length (written env p).1 <= length p)%nat.
Proof.
  unfold written. destruct (os.write_limit env); simpl; [|done].
  rewrite length_take. lia.
Qed.

Lemma alter_appendBytes (q1 q2 : list byte) (h : gostring)
    (fs : gmap gostring os.File) :
  alter (appendBytes q2) h (alter (appendBytes q1) h fs)
  = alter (appendBytes (q1 ++ q2)) h fs.
Proof.
  apply map_eq. intros n. destruct (decide (n = h)) as [->|Hne].
  - rewrite !lookup_alter_eq. destruct (fs !! h) as [f|]; [|done]. simpl.
    unfold appendBytes. simpl. by rewrite app_assoc.
  - by rewrite !lookup_alter_ne.
Qed.

Lemma sweepSafe_mill env st u st' :
  sweepSafe (writer st) (dirents st) -> mill env st = Some (u, st') ->
  sweepSafe (writer st') (dirents st').
Proof.
  intros Hsafe Hm. destruct (mill_spec _ _ _ _ Hm) as (Hw & _ & Hframe).
  rewrite Hw. intros n f Hn Hd.
  destruct (Hframe n) as [H|[H _]]; [|congruence].
  rewrite H in Hn. by eapply Hsafe.
Qed.

End WriteMore.

(** X10 (Close, close): [Close] always returns and leaves the writer
    without a handle; the directory, the configuration and the byte count
    are not touched.  It reports an error only when closing an open handle
    failed, and a second [Close] does nothing and reports nothing, whatever
    would fail. *)
Theorem Close_releases_handle (env env2 : os.Env) (st : State) :
  exists r st1,
    Close env st = Some (r, st1)
    /\ file (writer st1) = None
    /\ sameConfig (writer st) (writer st1)
    /\ size (writer st1) = size (writer st)
    /\ dirents st1 = dirents st
    /\ compressJobs st1 = compressJobs st
    /\ (r = None
        \/ (r = Some ErrClose /\ os.close_err env = true
            /\ is_Some (file (writer st))))
    /\ Close env2 st1 = Some (None, st1).
Proof.
  destruct st as [w fs jobs]. unfold Close, close. unfold_M.
  destruct (file w) as [h|] eqn:Ef.
  - do 2 eexists. split; [reflexivity|]. cbn [writer dirents compressJobs].
    split; [done|]. split; [same_config|]. split; [done|]. split; [done|].
    split; [done|]. split; [|done].
    destruct (os.close_err env); [right|left]; eauto.
  - do 2 eexists. split; [reflexivity|]. cbn [writer dirents compressJobs].
    split; [done|]. split; [same_config|]. split; [done|]. split; [done|].
    split; [done|]. split; [by left|]. by rewrite Ef.
Qed.

(** X11 (Write): with the handle open and room for the bytes, [Write] does
    nothing but append to the file of the handle, whatever else would fail:
    no file is opened, renamed or removed.  The byte count grows by the
    bytes that arrived, also when the write stops short with an error, so
    that it stays the size of the live file. *)
Theorem Write_appends_in_place (env : os.Env) (p : list byte) (st : State)
    (f : os.File) :
  opened st ->
  dirents st !! activeName (writer st) = Some f ->
  size (writer st) + Z.of_nat (length p) <= maxSize (writer st) ->
  exists q err st',
    (os.write_limit env = None /\ q = p /\ err = None
     \/ exists k, os.write_limit env = Some k /\ q = take k p /\ err = Some ErrWrite)
    /\ Write env p st = Some ((Z.of_nat (length q), err), st')
    /\ dirents st'
       = <[activeName (writer st) := os.mkFile false (os.mode f) (os.data f ++ q)]>
           (dirents st)
    /\ writer st' = set_size (size (writer st) + Z.of_nat (length q)) (writer st)
    /\ compressJobs st' = compressJobs st
    /\ opened st'
    /\ size (writer st') <= maxSize (writer st').
Proof.
  intros (Hfile & g & Hg & Hd & Hsz) Hf Hfit.
  rewrite Hf in Hg. injection Hg as <-.
  assert (Hlen : Z.of_nat (length p) <= maxSize (writer st)).
  { unfold os.Size in Hsz. lia. }
  pose proof (written_length env p) as Hq.
  exists (written env p).1, (written env p).2. eexists.
  split. { unfold written. destruct (os.write_limit env); simpl; eauto. }
  split. { by apply Write_fits. }
  cbn [writer dirents compressJobs].
  assert (Ealter : alter (appendBytes (written env p).1) (activeName (writer st))
                     (dirents st)
                   = <[activeName (writer st)
                       := os.mkFile false (os.mode f)
                            (os.data f ++ (written env p).1)]> (dirents st)).
  { apply map_eq. intros n. destruct (decide (n = activeName (writer st))) as [->|Hne].
    - rewrite lookup_alter_eq, lookup_insert_eq, Hf. simpl.
      unfold appendBytes. by rewrite Hd.
    - by rewrite lookup_alter_ne, lookup_insert_ne. }
  split; [done|]. split; [done|]. split; [done|].
  destruct st as [[fn ms ma mb c fl sz] fs jobs].
  unfold opened, activeName in *. crush_writer. split.
  - split; [done|]. eexists. split; [by rewrite Ealter, lookup_insert_eq|].
    split; [done|]. unfold os.Size in *. cbn [os.data]. rewrite length_app. lia.
  - lia.
Qed.

Lemma Write_appends_in_place_witness :
  exists q err st',
    (os.write_limit shortWrite = None /\ q = bytes "xyz" /\ err = None
     \/ exists k, os.write_limit shortWrite = Some k /\ q = take k (bytes "xyz")
                  /\ err = Some ErrWrite)
    /\ Write shortWrite (bytes "xyz") exampleOpen
       = Some ((Z.of_nat (length q), err), st')
    /\ dirents st'
       = <[activeName (writer exampleOpen)
           := os.mkFile false (os.mode (regular "abcde"))
                (os.data (regular "abcde") ++ q)]> (dirents exampleOpen)
    /\ writer st'
       = set_size (size (writer exampleOpen) + Z.of_nat (length q)) (writer exampleOpen)
    /\ compressJobs st' = compressJobs exampleOpen
    /\ opened st'
    /\ size (writer st') <= maxSize (writer st').
Proof.
  apply (Write_appends_in_place shortWrite (bytes "xyz") exampleOpen (regular "abcde")).
  - split; [reflexivity|]. exists (regular "abcde"). repeat split.
  - reflexivity.
  - vm_compute. discriminate.
Defined.

(** X12 (Write): writes compose.  With the handle open, no short write and
    room for both, writing [p1] and then [p2] leaves the state that one
    write of [p1 ++ p2] leaves. *)
Theorem Write_twice_is_Write_app (env1 env2 env3 : os.Env) (p1 p2 : list byte)
    (st : State) :
  is_Some (file (writer st)) ->
  0 <= size (writer st) ->
  size (writer st) + Z.of_nat (length p1) + Z.of_nat (length p2)
    <= maxSize (writer st) ->
  os.write_limit env1 = None ->
  os.write_limit env2 = None ->
  os.write_limit env3 = None ->
  WriteAll [(env1, p1); (env2, p2)] st = WriteAll [(env3, p1 ++ p2)] st
  /\ is_Some (WriteAll [(env3, p1 ++ p2)] st).
Proof.
  intros [h Hf] Hsz Hfit H1 H2 H3. cbn [WriteAll].
  rewrite (Write_fits env1 p1 st h) by (done || lia).
  rewrite (Write_fits env3 (p1 ++ p2) st h)
    by (done || rewrite length_app; lia).
  unfold written. rewrite H1, H3. cbn [fst snd].
  rewrite (Write_fits env2 p2 _ h); cycle 1.
  { by destruct st as [[]]. }
  { destruct st as [[]]. cbn in *. lia. }
  { destruct st as [[]]. cbn in *. lia. }
  unfold written. rewrite H2. cbn [fst snd writer dirents compressJobs].
  rewrite alter_appendBytes. split; [|done].
  do 2 f_equal. destruct st as [[fn ms ma mb c fl sz] fs jobs].
  unfold set_size. cbn [writer filename maxSize maxAge maxBackups compress file size].
  f_equal. rewrite length_app. lia.
Qed.

Lemma Write_twice_is_Write_app_witness :
  WriteAll [(exampleEnv, bytes "fg"); (exampleEnv, bytes "hi")] exampleOpen
  = WriteAll [(exampleEnv, bytes "fg" ++ bytes "hi")] exampleOpen
  /\ is_Some (WriteAll [(exampleEnv, bytes "fg" ++ bytes "hi")] exampleOpen).
Proof.
  apply (Write_twice_is_Write_app exampleEnv exampleEnv exampleEnv
           (bytes "fg") (bytes "hi") exampleOpen).
  - by eexists.
  - vm_compute. discriminate.
  - vm_compute. discriminate.
  - reflexivity.
  - reflexivity.
  - reflexivity.
Defined.

(** X13 (Write, openExistingOrNew, openNew): the first write to a missing
    file.  With no handle and no live file, when the directory can be made
    and the file created, [Write] sweeps, creates the live file as a
    regular file and puts the bytes in it; no backup is made and no
    compression job started.  Nothing is said of the mode of the new file,
    which the process's umask cuts down. *)
Theorem Write_creates_missing_file (env : os.Env) (p : list byte) (st : State) :
  file (writer st) = None ->
  dirents st !! activeName (writer st) = None ->
  Z.of_nat (length p) <= maxSize (writer st) ->
  os.mkdir_err env = false ->
  os.stat_err env = false ->
  os.create_err env = false ->
  os.write_limit env = None ->
  sweepSafe (writer st) (dirents st) ->
  exists (st0 : State) (m : os.FileMode),
    mill env st = Some (tt, st0)
    /\ Write env p st
       = Some ((Z.of_nat (length p), None),
               mkState (set_size (Z.of_nat (length p))
                          (set_file (Some (activeName (writer st))) (writer st)))
                       (<[activeName (writer st) := os.mkFile false m p]>
                          (dirents st0))
                       (compressJobs st)).
Proof.
  intros Hnil Hmiss Hlen Hmk Hst Hcr Hwl Hsafe.
  destruct (mill_total env st Hsafe) as [st0 Hm].
  pose proof (mill_keeps_active _ _ _ _ Hm) as (Hw0 & Hj0 & Ha0).
  destruct st as [w fs jobs], st0 as [w0 fs0 jobs0].
  cbn [writer dirents compressJobs] in *. subst w0 jobs0. rewrite Hmiss in Ha0.
  eexists. exists 420. split; [done|].
  rewrite Write_eq. cbv zeta. cbn [writer].
  rewrite (proj2 (Z.ltb_ge _ _)) by lia. rewrite Hnil.
  unfold openExistingOrNew. unfold_bind. rewrite Hm. cbn [writer dirents].
  unfold os.Stat. rewrite Hst, Ha0.
  unfold openNew. unfold_M. rewrite Hmk. unfold os.Stat. rewrite Hst, Ha0.
  unfold os.OpenFile_create. rewrite Hcr, Ha0.
  cbn [writer size maxSize set_size set_file].
  rewrite (proj2 (Z.ltb_ge _ _)) by lia.
  unfold fileWrite. unfold_M. rewrite Hwl. cbn [file set_size set_file size].
  do 2 f_equal. f_equal; try by destruct w.
  apply map_eq. intros n. destruct (decide (n = activeName w)) as [->|Hne].
  - by rewrite lookup_alter_eq, !lookup_insert_eq.
  - by rewrite lookup_alter_ne, !lookup_insert_ne.
Qed.

Lemma Write_creates_missing_file_witness :
  exists (st0 : State) (m : os.FileMode),
    mill exampleEnv exampleFresh = Some (tt, st0)
    /\ Write exampleEnv (bytes "abc") exampleFresh
       = Some ((Z.of_nat (length (bytes "abc")), None),
               mkState (set_size (Z.of_nat (length (bytes "abc")))
                          (set_file (Some (activeName (writer exampleFresh)))
                                    (writer exampleFresh)))
                       (<[activeName (writer exampleFresh)
                          := os.mkFile false m (bytes "abc")]> (dirents st0))
                       (compressJobs exampleFresh)).
Proof.
  apply (Write_creates_missing_file exampleEnv (bytes "abc") exampleFresh).
  - reflexivity.
  - reflexivity.
  - vm_compute. discriminate.
  - reflexivity.
  - reflexivity.
  - reflexivity.
  - reflexivity.
  - apply sweepSafeb_sound. vm_compute. reflexivity.
Defined.

(** X14 (Write, openExistingOrNew): reopening.  With no handle and a live
    file that has room for the bytes and more, [Write] sweeps, opens the
    file for appending and puts the bytes at its end; the file keeps its
    mode, nothing is renamed, and the byte count is the new size. *)
Theorem Write_reopens_live_file (env : os.Env) (p : list byte) (st : State)
    (f : os.File) :
  file (writer st) = None ->
  dirents st !! activeName (writer st) = Some f ->
  os.isDir f = false ->
  os.Size f + Z.of_nat (length p) < maxSize (writer st) ->
  os.stat_err env = false ->
  os.append_err env = false ->
  os.write_limit env = None ->
  sweepSafe (writer st) (dirents st) ->
  exists st0,
    mill env st = Some (tt, st0)
    /\ Write env p st
       = Some ((Z.of_nat (length p), None),
               mkState (set_size (os.Size f + Z.of_nat (length p))
                          (set_file (Some (activeName (writer st))) (writer st)))
                       (<[activeName (writer st)
                          := os.mkFile false (os.mode f) (os.data f ++ p)]>
                          (dirents st0))
                       (compressJobs st)).
Proof.
  intros Hnil Hf Hd Hroom Hst Happ Hwl Hsafe.
  destruct (mill_total env st Hsafe) as [st0 Hm].
  pose proof (mill_keeps_active _ _ _ _ Hm) as (Hw0 & Hj0 & Ha0).
  destruct st as [w fs jobs], st0 as [w0 fs0 jobs0].
  cbn [writer dirents compressJobs] in *. subst w0 jobs0. rewrite Hf in Ha0.
  eexists. split; [done|].
  assert (Hsz : 0 <= os.Size f) by (unfold os.Size; lia).
  rewrite Write_eq. cbv zeta. cbn [writer].
  rewrite (proj2 (Z.ltb_ge _ _)) by lia. rewrite Hnil.
  unfold openExistingOrNew. unfold_bind. rewrite Hm. cbn [writer dirents].
  unfold os.Stat, os.OpenFile_append. rewrite Hst, Ha0, Happ, Hd.
  rewrite (proj2 (Z.leb_gt _ _)) by lia. cbn [negb andb]. cbv iota.
  cbn [writer size maxSize set_size set_file compressJobs dirents].
  rewrite (proj2 (Z.ltb_ge _ _)) by lia.
  unfold fileWrite. unfold_M. rewrite Hwl. cbn [file set_size set_file size].
  do 2 f_equal. f_equal; try by destruct w.
  apply map_eq. intros n. destruct (decide (n = activeName w)) as [->|Hne].
  - rewrite lookup_alter_eq, lookup_insert_eq, Ha0. simpl. by rewrite Hd.
  - by rewrite lookup_alter_ne, lookup_insert_ne.
Qed.

Lemma Write_reopens_live_file_witness :
  exists st0,
    mill exampleEnv exampleClosed = Some (tt, st0)
    /\ Write exampleEnv (bytes "fgh") exampleClosed
       = Some ((Z.of_nat (length (bytes "fgh")), None),
               mkState (set_size (os.Size (os.mkFile false 384 (bytes "abcde"))
                                  + Z.of_nat (length (bytes "fgh")))
                          (set_file (Some (activeName (writer exampleClosed)))
                                    (writer exampleClosed)))
                       (<[activeName (writer exampleClosed)
                          := os.mkFile false (os.mode (os.mkFile false 384 (bytes "abcde")))
                               (os.data (os.mkFile false 384 (bytes "abcde"))
                                ++ bytes "fgh")]> (dirents st0))
                       (compressJobs exampleClosed)).
Proof.
  apply (Write_reopens_live_file exampleEnv (bytes "fgh") exampleClosed
           (os.mkFile false 384 (bytes "abcde"))).
  - reflexivity.
  - reflexivity.
  - reflexivity.
  - vm_compute. reflexivity.
  - reflexivity.
  - reflexivity.
  - reflexivity.
  - apply sweepSafeb_sound. vm_compute. reflexivity.
Defined.

(** *** Boundary and error paths of [Write] *)
Section WriteErrors.

Lemma openNew_jobs env st r st' :
  openNew env st = Some (r, st') ->
  compressJobs st' = compressJobs st
  \/ (compress (writer st) = true
      /\ os.stat_err env = false
      /\ exists b, compressJobs st' = compressJobs st ++ [b]
                   /\ backupName env (dirents st) (filename (writer st)) (os.now env)
                      = Some b).
Proof.
  destruct st as [w fs jobs]. unfold openNew. unfold_M.
  destruct (os.mkdir_err env); [intros [= <- <-]; by left|].
  unfold os.Stat. destruct (os.stat_err env) eqn:Hst.
  { destruct (os.OpenFile_create _ _ _ _); intros [= <- <-]; by left. }
  destruct (fs !! activeName w) as [info|].
  - destruct (backupName env fs (filename w) (os.now env)) as [b|] eqn:Eb; [|done].
    destruct (os.rename_err env); [intros [= <- <-]; by left|].
    destruct (compress w) eqn:Ec; unfold_M;
      destruct (os.OpenFile_create _ _ _ _); intros [= <- <-];
      cbn [writer dirents compressJobs]; try (by left); right; eauto.
  - destruct (os.OpenFile_create _ _ _ _); intros [= <- <-]; by left.
Qed.

Lemma rotate_jobs env st r st' :
  rotate env st = Some (r, st') ->
  compressJobs st' = compressJobs st
  \/ (compress (writer st) = true
      /\ os.stat_err env = false
      /\ exists b, compressJobs st' = compressJobs st ++ [b]
                   /\ backupName env (dirents st) (filename (writer st)) (os.now env)
                      = Some b).
Proof.
  unfold rotate. unfold_bind.
  destruct (close env st) as [[[e|] st1]|] eqn:E1; [| |done].
  { apply close_spec in E1 as (_ & _ & _ & _ & Hj & _). intros [= <- <-]. by left. }
  apply close_spec in E1 as (Hc1 & _ & _ & Hd1 & Hj1 & _).
  destruct (openNew env st1) as [[r2 st2]|] eqn:E2; [|done].
  assert (Hj2 : compressJobs st2 = compressJobs st
    \/ (compress (writer st) = true
        /\ os.stat_err env = false
        /\ exists b, compressJobs st2 = compressJobs st ++ [b]
                     /\ backupName env (dirents st) (filename (writer st)) (os.now env)
                        = Some b)).
  { apply openNew_jobs in E2. rewrite Hj1, Hd1 in E2.
    destruct Hc1 as (Hfn & _ & _ & _ & Hcp). by rewrite Hfn, Hcp in E2. }
  destruct r2 as [e|]; [by intros [= <- <-]|].
  destruct (mill env st2) as [[u st3]|] eqn:E3; [|done].
  apply mill_spec in E3 as (_ & Hj3 & _). intros [= <- <-]. by rewrite Hj3.
Qed.

End WriteErrors.

(** X15 (Write, openExistingOrNew, Close): the two size tests differ.  When
    the bytes fill the live file exactly to [maxSize], a writer whose handle
    is open appends them, while the same writer after [Close] rotates
    first: the old content goes to a backup and the live file holds the
    new bytes only. *)
Theorem exact_fit_depends_on_handle (env : os.Env) (p : list byte) (st : State)
    (f : os.File) :
  opened st ->
  dirents st !! activeName (writer st) = Some f ->
  size (writer st) + Z.of_nat (length p) = maxSize (writer st) ->
  noRotationFault env ->
  os.close_err env = false ->
  os.write_limit env = None ->
  0 <= os.now env ->
  sweepSafe (writer st) (dirents st) ->
  (exists st1,
     Write env p st = Some ((Z.of_nat (length p), None), st1)
     /\ dirents st1
        = <[activeName (writer st) := os.mkFile false (os.mode f) (os.data f ++ p)]>
            (dirents st))
  /\ exists stc st2 b,
       Close env st = Some (None, stc)
       /\ Write env p stc = Some ((Z.of_nat (length p), None), st2)
       /\ b <> activeName (writer st)
       /\ dirents st2 !! b = Some f
       /\ dirents st2 !! activeName (writer st) = Some (os.mkFile false (os.mode f) p).
Proof.
  intros (Hfile & g & Hg & Hd & Hsz) Hf Hfit Hcalm Hcl Hwl Hnow Hsafe.
  rewrite Hf in Hg. injection Hg as <-.
  assert (Hsz0 : 0 <= os.Size f) by (unfold os.Size; lia).
  split.
  - eexists. split.
    { rewrite (Write_fits env p st _ Hfile) by lia.
      unfold written. rewrite Hwl. reflexivity. }
    cbn [dirents]. apply map_eq. intros n.
    destruct (decide (n = activeName (writer st))) as [->|Hne].
    + rewrite lookup_alter_eq, lookup_insert_eq, Hf. simpl.
      unfold appendBytes. by rewrite Hd.
    + by rewrite lookup_alter_ne, lookup_insert_ne.
  - destruct st as [w fs jobs]. cbn [writer dirents compressJobs] in *.
    assert (Hsafec : sweepSafe (writer (mkState (set_file None w) fs jobs))
                       (dirents (mkState (set_file None w) fs jobs))) by exact Hsafe.
    destruct (mill_total env (mkState (set_file None w) fs jobs) Hsafec) as [st0 Hm].
    pose proof (mill_keeps_active _ _ _ _ Hm) as (Hw0 & Hj0 & Ha0).
    pose proof (sweepSafe_mill _ _ _ _ Hsafec Hm) as Hsafe0.
    destruct st0 as [w0 fs0 jobs0]. cbn [writer dirents compressJobs] in *.
    subst w0 jobs0.
    change (activeName (set_file None w)) with (activeName w) in Ha0.
    rewrite Hf in Ha0.
    destruct (rotate_calm env (mkState (set_file None w) fs0 jobs) f Hcalm Hcl Hnow
                Ha0 Hsafe0)
      as (b & st1 & _ & _ & Hne & Hrot & Hw1 & _ & Hb1 & Ha1 & _).
    destruct st1 as [w1 fs1 jobs1]. cbn [writer dirents compressJobs] in *.
    subst w1. change (activeName (set_file None w)) with (activeName w) in *.
    exists (mkState (set_file None w) fs jobs). eexists. exists b.
    split. { unfold Close. by apply close_ok. }
    destruct Hcalm as (_ & Hst & _).
    rewrite Write_eq. cbv zeta. cbn [writer].
    change (maxSize (set_file None w)) with (maxSize w).
    rewrite (proj2 (Z.ltb_ge _ _)) by lia.
    change (file (set_file None w)) with (@None gostring). cbv iota.
    unfold openExistingOrNew. unfold_bind. rewrite Hm.
    cbn [writer dirents].
    change (activeName (set_file None w)) with (activeName w).
    change (maxSize (set_file None w)) with (maxSize w).
    unfold os.Stat. rewrite Hst, Ha0.
    rewrite (proj2 (Z.leb_le _ _)) by lia. rewrite Hrot. cbv iota.
    cbn [writer size maxSize set_size set_file].
    rewrite (proj2 (Z.ltb_ge _ _)) by lia.
    unfold fileWrite. unfold_M. rewrite Hwl. cbn [file set_size set_file size].
    split; [reflexivity|]. split; [done|].
    cbn [writer dirents].
    split; [by rewrite lookup_alter_ne, Hb1|].
    by rewrite lookup_alter_eq, Ha1.
Qed.

Lemma exact_fit_depends_on_handle_witness :
  (exists st1,
     Write exampleEnv (bytes "fghij") exampleExact
     = Some ((Z.of_nat (length (bytes "fghij")), None), st1)
     /\ dirents st1
        = <[activeName (writer exampleExact)
            := os.mkFile false (os.mode (regular "abcde"))
                 (os.data (regular "abcde") ++ bytes "fghij")]>
            (dirents exampleExact))
  /\ exists stc st2 b,
       Close exampleEnv exampleExact = Some (None, stc)
       /\ Write exampleEnv (bytes "fghij") stc
          = Some ((Z.of_nat (length (bytes "fghij")), None), st2)
       /\ b <> activeName (writer exampleExact)
       /\ dirents st2 !! b = Some (regular "abcde")
       /\ dirents st2 !! activeName (writer exampleExact)
          = Some (os.mkFile false (os.mode (regular "abcde")) (bytes "fghij")).
Proof.
  apply (exact_fit_depends_on_handle exampleEnv (bytes "fghij") exampleExact
           (regular "abcde")).
  - split; [reflexivity|]. exists (regular "abcde"). repeat split.
  - reflexivity.
  - reflexivity.
  - repeat split.
  - reflexivity.
  - reflexivity.
  - vm_compute. discriminate.
  - apply sweepSafeb_sound. vm_compute. reflexivity.
Defined.

(** X16 (Write): the count [Write] returns.  Whatever the state and
    whatever fails, the count lies between 0 and [len(p)], and a count
    below [len(p)] comes with an error, as [io.Writer] asks; an error of
    the open or rotation step comes with the count 0. *)
Theorem Write_count_contract (env : os.Env) (p : list byte) (st : State)
    (n : Z) (err : option error) (st' : State) :
  Write env p st = Some ((n, err), st') ->
  0 <= n <= Z.of_nat (length p)
  /\ (n < Z.of_nat (length p) -> err <> None)
  /\ (forall e, err = Some e -> e <> ErrWrite -> n = 0).
Proof.
  rewrite Write_eq. cbv zeta.
  destruct (maxSize (writer st) <? Z.of_nat (length p)).
  { intros [= <- <- <-]. split; [lia|]. split; [done|]. done. }
  destruct (match file (writer st) with None => _ | Some _ => _ end)
    as [[[e|] st1]|]; [| |done].
  { intros [= <- <- <-]. split; [lia|]. split; [done|]. done. }
  destruct (if maxSize (writer st1) <? _ then _ else _) as [[[e|] st2]|]; [| |done].
  { intros [= <- <- <-]. split; [lia|]. split; [done|]. done. }
  destruct (fileWrite env p st2) as [[[n' err'] st3]|] eqn:E3; [|done].
  apply fileWrite_spec in E3 as (_ & _ & H3). intros [= <- <- <-].
  destruct (file (writer st2)) as [h|].
  - destruct H3 as (q & -> & _ & [(-> & -> & _)|(k & -> & -> & _)]).
    + split; [lia|]. split; [lia|]. done.
    + rewrite length_take. split; [lia|]. split; [done|].
      intros e [= <-] He. done.
  - destruct H3 as (-> & -> & _). split; [lia|]. split; [done|]. done.
Qed.

Lemma Write_count_contract_witness :
  0 <= 2 <= Z.of_nat (length (bytes "xyz"))
  /\ (2 < Z.of_nat (length (bytes "xyz")) -> Some ErrWrite <> None)
  /\ (forall e, Some ErrWrite = Some e -> e <> ErrWrite -> 2 = 0).
Proof.
  apply (Write_count_contract shortWrite (bytes "xyz") exampleOpen 2 (Some ErrWrite)
           (mkState (mkRotateWriter (str "logs/app.log") 10 7 3 true
                                    (Some (str "app.log")) 7)
                    {[ str "app.log" := regular "abcdexy" ]} [])).
  vm_compute. reflexivity.
Defined.

(** X17 (Write, openNew, rotate): compression jobs.  A call of [Write]
    starts at most one [compressFile] goroutine, and none when [compress]
    is off; the job is handed a backup name of the live file, made from the
    clock of the call. *)
Theorem Write_compress_jobs (env : os.Env) (p : list byte) (st : State)
    (r : Z * option error) (st' : State) :
  Write env p st = Some (r, st') ->
  compressJobs st' = compressJobs st
  \/ (compress (writer st) = true
      /\ exists (i : nat),
           (1 <= i)%nat
           /\ compressJobs st'
              = compressJobs st ++ [backupOf (writer st) (os.now env) i]).
Proof.
  rewrite Write_eq. cbv zeta.
  destruct (maxSize (writer st) <? Z.of_nat (length p)) eqn:Eov.
  { intros [= <- <-]. by left. }
  apply Z.ltb_ge in Eov.
  assert (Hname : forall (w : RotateWriter) fs b,
    os.stat_err env = false ->
    sameConfig (writer st) w ->
    backupName env fs (filename w) (os.now env) = Some b ->
    exists i : nat, (1 <= i)%nat /\ b = backupOf (writer st) (os.now env) i).
  { intros w fs b Hst Hc Hb. apply backupName_spec in Hb as (i & Hi & -> & _); [|done].
    exists i. split; [done|]. unfold backupOf, activeName.
    destruct Hc as (-> & _). done. }
  destruct (file (writer st)) as [h|] eqn:Ef.
  - (* the handle is open: only the rotation step can start a job *)
    destruct (maxSize (writer st) <? size (writer st) + Z.of_nat (length p)).
    + destruct (rotate env st) as [[[e|] st2]|] eqn:E2; [| |done].
      * pose proof (rotate_jobs _ _ _ _ E2) as Hj. intros [= <- <-].
        destruct Hj as [?|(Hc & Hst & b & Hj & Hb)]; [by left|right].
        split; [done|].
        destruct (Hname _ _ _ Hst (sameConfig_refl _) Hb) as (i & Hi & ->). eauto.
      * pose proof (rotate_jobs _ _ _ _ E2) as Hj.
        destruct (fileWrite env p st2) as [[[n err] st3]|] eqn:E3; [|done].
        apply fileWrite_spec in E3 as (_ & Hj3 & _). intros [= <- <-].
        cbn [compressJobs]. rewrite Hj3.
        destruct Hj as [?|(Hc & Hst & b & Hj & Hb)]; [by left|right].
        split; [done|].
        destruct (Hname _ _ _ Hst (sameConfig_refl _) Hb) as (i & Hi & ->). eauto.
    + destruct (fileWrite env p st) as [[[n err] st3]|] eqn:E3; [|done].
      apply fileWrite_spec in E3 as (_ & Hj3 & _). intros [= <- <-]. by left.
  - (* no handle: only the open step can start a job *)
    destruct (openExistingOrNew env (length p) st) as [[r1 st1]|] eqn:E1; [|done].
    pose proof (openExistingOrNew_spec _ _ _ _ _ Ef E1) as (Hc1 & Hr1).
    assert (Hj1 : compressJobs st1 = compressJobs st
      \/ (compress (writer st) = true
          /\ exists i : nat, (1 <= i)%nat
               /\ compressJobs st1
                  = compressJobs st ++ [backupOf (writer st) (os.now env) i])).
    { revert E1. unfold openExistingOrNew. unfold_bind.
      destruct (mill env st) as [[u st0]|] eqn:Em; [|done].
      apply mill_spec in Em as (Hw0 & Hj0 & _).
      assert (Hc0 : sameConfig (writer st) (writer st0)).
      { rewrite Hw0. apply sameConfig_refl. }
      assert (Hfin : forall r st1,
        (openNew env st0 = Some (r, st1) \/ rotate env st0 = Some (r, st1)) ->
        compressJobs st1 = compressJobs st
        \/ (compress (writer st) = true
            /\ exists i : nat, (1 <= i)%nat
                 /\ compressJobs st1
                    = compressJobs st ++ [backupOf (writer st) (os.now env) i])).
      { intros r' st1' [H|H];
          [apply openNew_jobs in H|apply rotate_jobs in H];
          rewrite Hj0, Hw0 in H;
          (destruct H as [?|(Hc & Hst & b & Hj & Hb)]; [by left|right]);
          (split; [done|]);
          destruct (Hname (writer st) _ _ Hst (sameConfig_refl _) Hb)
            as (i & Hi & ->); eauto. }
      destruct (os.Stat env (dirents st0) (activeName (writer st0))).
      - destruct (_ <=? _); [intros H; apply (Hfin _ _ (or_intror H))|].
        destruct (negb _); [intros H; apply (Hfin _ _ (or_introl H))|].
        intros [= <- <-]. cbn [compressJobs]. rewrite Hj0. by left.
      - intros H. apply (Hfin _ _ (or_introl H)).
      - intros [= <- <-]. rewrite Hj0. by left. }
    destruct r1 as [e|]; [by intros [= <- <-]|].
    destruct Hr1 as (_ & Hsz).
    assert (Hms : maxSize (writer st1) = maxSize (writer st)) by apply Hc1.
    rewrite (proj2 (Z.ltb_ge (maxSize (writer st1)) _)) by (destruct Hsz; lia).
    destruct (fileWrite env p st1) as [[[n err] st3]|] eqn:E3; [|done].
    apply fileWrite_spec in E3 as (_ & Hj3 & _). intros [= <- <-].
    cbn [compressJobs]. by rewrite Hj3.
Qed.

Lemma Write_compress_jobs_witness :
  compressJobs
    (mkState (mkRotateWriter (str "logs/app.log") 10 7 3 true (Some (str "app.log")) 1)
             {[ str "app.log" := regular "k";
                str "app-2024-03-10-1.log" := regular "abcdefghij" ]}
             [str "app-2024-03-10-1.log"])
  = compressJobs exampleFull
  \/ (compress (writer exampleFull) = true
      /\ exists (i : nat),
           (1 <= i)%nat
           /\ compressJobs
                (mkState (mkRotateWriter (str "logs/app.log") 10 7 3 true
                                         (Some (str "app.log")) 1)
                         {[ str "app.log" := regular "k";
                            str "app-2024-03-10-1.log" := regular "abcdefghij" ]}
                         [str "app-2024-03-10-1.log"])
              = compressJobs exampleFull
                ++ [backupOf (writer exampleFull) (os.now exampleEnv) i]).
Proof.
  apply (Write_compress_jobs exampleEnv (bytes "k") exampleFull
           (Z.of_nat (length (bytes "k")), None)).
  vm_compute. reflexivity.
Defined.

(** X18 (Write, rotate, close): a failing [File.Close] stops the rotation.
    When the bytes do not fit (the sum within the range of [int64], so
    that the source's sum does not wrap) and the handle cannot be closed,
    [Write] returns that error with the count 0; no file is renamed or
    written, and the writer is left without a handle. *)
Theorem Write_close_failure (env : os.Env) (p : list byte) (st : State) :
  is_Some (file (writer st)) ->
  Z.of_nat (length p) <= maxSize (writer st) ->
  maxSize (writer st) < size (writer st) + Z.of_nat (length p) ->
  exact64 (size (writer st) + Z.of_nat (length p)) ->
  os.close_err env = true ->
  Write env p st
  = Some ((0, Some ErrClose),
          mkState (set_file None (writer st)) (dirents st) (compressJobs st)).
Proof.
  intros [h Hf] Hlen Hover _ Hcl. rewrite Write_eq. cbv zeta.
  rewrite (proj2 (Z.ltb_ge _ _)) by lia. rewrite Hf.
  rewrite (proj2 (Z.ltb_lt _ _)) by lia.
  unfold rotate, close. unfold_bind. by rewrite Hf, Hcl.
Qed.

Lemma Write_close_failure_witness :
  Write closeFails (bytes "k") exampleFull
  = Some ((0, Some ErrClose),
          mkState (set_file None (writer exampleFull)) (dirents exampleFull)
                  (compressJobs exampleFull)).
Proof.
  apply (Write_close_failure closeFails (bytes "k") exampleFull).
  - by eexists.
  - vm_compute. discriminate.
  - vm_compute. reflexivity.
  - vm_compute. reflexivity.
  - reflexivity.
Defined.

(** X19 (Write, openExistingOrNew): a failing [os.Stat] on open.  With no
    handle, when [os.Stat] fails with an error other than "not exist",
    [Write] returns after the sweep with the count 0 and the file-info
    error; no file is created and the writer keeps no handle. *)
Theorem Write_stat_failure (env : os.Env) (p : list byte) (st : State) :
  file (writer st) = None ->
  Z.of_nat (length p) <= maxSize (writer st) ->
  os.stat_err env = true ->
  sweepSafe (writer st) (dirents st) ->
  exists st0,
    mill env st = Some (tt, st0)
    /\ Write env p st = Some ((0, Some ErrFileInfo), st0)
    /\ file (writer st0) = None.
Proof.
  intros Hf Hlen Hst Hsafe.
  destruct (mill_total env st Hsafe) as [st0 Hm]. exists st0. split; [done|].
  pose proof (mill_keeps_active _ _ _ _ Hm) as (Hw0 & _).
  split; [|by rewrite Hw0].
  rewrite Write_eq. cbv zeta.
  rewrite (proj2 (Z.ltb_ge _ _)) by lia. rewrite Hf.
  unfold openExistingOrNew. unfold_bind. rewrite Hm.
  unfold os.Stat. by rewrite Hst.
Qed.

Lemma Write_stat_failure_witness :
  exists st0,
    mill statFails exampleClosed = Some (tt, st0)
    /\ Write statFails (bytes "fgh") exampleClosed = Some ((0, Some ErrFileInfo), st0)
    /\ file (writer st0) = None.
Proof.
  apply (Write_stat_failure statFails (bytes "fgh") exampleClosed).
  - reflexivity.
  - vm_compute. discriminate.
  - reflexivity.
  - apply sweepSafeb_sound. vm_compute. reflexivity.
Defined.

(** *** Calendar dates *)
Section TimeMore.

Lemma doy_leap (doe : Z) :
  0 <= doe < 146097 ->
  doe - (365 * ((doe - doe / 1460 + doe / 36524 - doe / 146096) / 365)
         + (doe - doe / 1460 + doe / 36524 - doe / 146096) / 365 / 4
         - (doe - doe / 1460 + doe / 36524 - doe / 146096) / 365 / 100) = 365 ->
  ((doe - doe / 1460 + doe / 36524 - doe / 146096) / 365 + 1) mod 4 = 0
  /\ (((doe - doe / 1460 + doe / 36524 - doe / 146096) / 365 + 1) mod 100 <> 0
      \/ ((doe - doe / 1460 + doe / 36524 - doe / 146096) / 365 + 1) mod 400 = 0).
Proof. intros H. Z.div_mod_to_equations. lia. Qed.

Lemma month_lengths (doy : Z) :
  0 <= doy <= 365 ->
  (((5 * doy + 2) / 153 = 1 \/ (5 * doy + 2) / 153 = 3
    \/ (5 * doy + 2) / 153 = 6 \/ (5 * doy + 2) / 153 = 8) ->
   doy - (153 * ((5 * doy + 2) / 153) + 2) / 5 + 1 <= 30)
  /\ ((5 * doy + 2) / 153 = 11 ->
      doy - (153 * ((5 * doy + 2) / 153) + 2) / 5 + 1 <= 29
      /\ (doy - (153 * ((5 * doy + 2) / 153) + 2) / 5 + 1 = 29 -> doy = 365)).
Proof. intros H. Z.div_mod_to_equations. lia. Qed.

Lemma isLeap_true (y : Z) :
  y mod 4 = 0 -> (y mod 100 <> 0 \/ y mod 400 = 0) -> time.isLeap y = true.
Proof.
  intros H4 H. unfold time.isLeap. rewrite H4. simpl.
  destruct H as [H|H].
  - apply Z.eqb_neq in H. by rewrite H.
  - rewrite H. simpl. apply orb_true_r.
Qed.

Lemma daysIn_cases (m y : Z) :
  (m = 2 /\ time.daysIn m y = (if time.isLeap y then 29 else 28))
  \/ ((m = 4 \/ m = 6 \/ m = 9 \/ m = 11) /\ time.daysIn m y = 30)
  \/ (m <> 2 /\ m <> 4 /\ m <> 6 /\ m <> 9 /\ m <> 11 /\ time.daysIn m y = 31).
Proof.
  unfold time.daysIn.
  destruct (Z.eqb_spec m 2), (Z.eqb_spec m 4), (Z.eqb_spec m 6),
    (Z.eqb_spec m 9), (Z.eqb_spec m 11), (time.isLeap y); simpl; lia.
Qed.

(** The date of a day count is a date of the calendar. *)
Lemma civilOfDoe_valid (era doe : Z) :
  0 <= doe < 146097 ->
  exists y m d, time.civilOfDoe era doe = (y, m, d)
                /\ 1 <= m <= 12 /\ 1 <= d <= time.daysIn m y.
Proof.
  intros Hdoe. unfold time.civilOfDoe. cbv zeta.
  pose proof (yoe_bounds doe Hdoe) as (Hyoe & Hdoy).
  pose proof (doy_leap doe Hdoe) as Hleap.
  set (yoe := (doe - doe / 1460 + doe / 36524 - doe / 146096) / 365) in *.
  set (doy := doe - (365 * yoe + yoe / 4 - yoe / 100)) in *.
  pose proof (mp_bounds doy Hdoy) as (Hmp & Hd).
  pose proof (month_lengths doy Hdoy) as (H30 & H29).
  set (mp := (5 * doy + 2) / 153) in *.
  set (d := doy - (153 * mp + 2) / 5 + 1) in *.
  clearbody d mp. clearbody doy. clearbody yoe.
  set (m := if mp <? 10 then mp + 3 else mp - 9).
  assert (Hm : (mp < 10 /\ m = mp + 3) \/ (10 <= mp /\ m = mp - 9)).
  { unfold m. destruct (Z.ltb_spec mp 10); lia. }
  clearbody m.
  do 3 eexists. split; [reflexivity|]. split; [lia|].
  destruct (daysIn_cases m (yoe + era * 400 + (if m <=? 2 then 1 else 0)))
    as [[Em ->]|[[Em ->]|(? & ? & ? & ? & ? & ->)]]; [|lia..].
  subst m. cbn [Z.leb Z.compare Pos.compare Pos.compare_cont].
  assert (Emp : mp = 11) by lia.
  destruct (H29 Emp) as [Hle H365].
  destruct (time.isLeap (yoe + era * 400 + 1)) eqn:El; [lia|].
  split; [lia|].
  destruct (decide (d = 29)) as [E29|]; [|lia].
  exfalso. destruct (Hleap (H365 E29)) as [H4 H100].
  rewrite isLeap_true in El; [done| |].
  - revert H4. clear. intros. Z.div_mod_to_equations. lia.
  - revert H100. clear. intros. Z.div_mod_to_equations. lia.
Qed.

(** [daysFromCivil] undoes [civilFromDays]. *)
Lemma daysFromCivil_civilFromDays (z : Z) :
  let '(y, m, d) := time.civilFromDays z in time.daysFromCivil y m d = z.
Proof.
  unfold time.civilFromDays, time.civilOfDoe. cbv zeta.
  assert (Hdoe : 0 <= (z + 719468) mod 146097 < 146097)
    by (apply Z.mod_pos_bound; lia).
  assert (Hz : z = (z + 719468) / 146097 * 146097 + (z + 719468) mod 146097 - 719468).
  { pose proof (Z.div_mod (z + 719468) 146097). lia. }
  set (era := (z + 719468) / 146097) in *.
  set (doe := (z + 719468) mod 146097) in *.
  pose proof (yoe_bounds doe Hdoe) as (Hyoe & Hdoy).
  set (yoe := (doe - doe / 1460 + doe / 36524 - doe / 146096) / 365) in *.
  assert (Edoy : doe = 365 * yoe + yoe / 4 - yoe / 100
                       + (doe - (365 * yoe + yoe / 4 - yoe / 100))) by lia.
  set (doy := doe - (365 * yoe + yoe / 4 - yoe / 100)) in *.
  pose proof (mp_bounds doy Hdoy) as (Hmp & Hd).
  set (mp := (5 * doy + 2) / 153) in *.
  assert (Ed : doy = (153 * mp + 2) / 5 + (doy - (153 * mp + 2) / 5 + 1) - 1) by lia.
  set (d := doy - (153 * mp + 2) / 5 + 1) in *.
  clearbody d. clearbody mp. clearbody doy. clearbody yoe. clearbody doe era.
  unfold time.daysFromCivil.
  set (m := if mp <? 10 then mp + 3 else mp - 9).
  assert (Hm : (mp < 10 /\ m = mp + 3) \/ (10 <= mp /\ m = mp - 9)).
  { unfold m. destruct (Z.ltb_spec mp 10); lia. }
  clearbody m.
  assert (Ey : (if m <=? 2 then yoe + era * 400 + (if m <=? 2 then 1 else 0) - 1
                else yoe + era * 400 + (if m <=? 2 then 1 else 0))
               = yoe + era * 400).
  { destruct (m <=? 2); lia. }
  rewrite Ey.
  assert (Emp : (if 2 <? m then m - 3 else m + 9) = mp).
  { destruct (Z.ltb_spec 2 m); lia. }
  rewrite Emp. cbv zeta.
  assert (Eera : (yoe + era * 400) / 400 = era).
  { clear -Hyoe. Z.div_mod_to_equations. lia. }
  rewrite Eera.
  replace (yoe + era * 400 - era * 400) with yoe by lia. lia.
Qed.

Lemma civilFromDays_year (z : Z) :
  -719468 <= z < 2932897 ->
  exists y m d, time.civilFromDays z = (y, m, d) /\ 0 <= y <= 9999.
Proof.
  intros Hz. unfold time.civilFromDays, time.civilOfDoe. cbv zeta.
  do 3 eexists. split; [reflexivity|].
  destruct (_ <=? 2) eqn:E; destruct (_ <? 10) eqn:E' in E;
    first [apply Z.leb_le in E|apply Z.leb_gt in E];
    first [apply Z.ltb_lt in E'|apply Z.ltb_ge in E'];
    revert E E'; Z.div_mod_to_equations; lia.
Qed.

End TimeMore.

(** *** Decimal digits *)
Section Digits.

Lemma pretty_N_char_digit (r : N) :
  (r < 10)%N ->
  time.isDigit (pretty_N_char r) = true
  /\ time.digitVal (pretty_N_char r) = Z.of_N r.
Proof.
  intros Hr.
  assert (H : (r = 0 \/ r = 1 \/ r = 2 \/ r = 3 \/ r = 4 \/ r = 5 \/ r = 6
               \/ r = 7 \/ r = 8 \/ r = 9)%N) by lia.
  destruct H as [ -> | [ -> | [ -> | [ -> | [ -> | [ -> | [ -> | [ -> | [ -> | -> ]]]]]]]]];
    by vm_compute.
Qed.

Lemma pretty_N_go_snoc (q r : N) (s : string) :
  (r < 10)%N -> (0 < 10 * q + r)%N ->
  pretty_N_go (10 * q + r) s = pretty_N_go q (String (pretty_N_char r) s).
Proof.
  intros Hr Hpos. rewrite pretty_N_go_step by done.
  assert (Hq : ((10 * q + r) `div` 10 = q)%N).
  { symmetry. apply (N.div_unique _ _ q r); [done|lia]. }
  assert (Hm : ((10 * q + r) `mod` 10 = r)%N).
  { symmetry. apply (N.mod_unique _ _ q r); [done|lia]. }
  by rewrite Hq, Hm.
Qed.

Lemma pretty_N_go_digit (r : N) (s : string) :
  (r < 10)%N -> (0 < r)%N -> pretty_N_go r s = String (pretty_N_char r) s.
Proof.
  intros Hr Hpos. replace r with (10 * 0 + r)%N at 1 by lia.
  rewrite pretty_N_go_snoc by (done || lia). by rewrite pretty_N_go_0.
Qed.

(** A number below 10000, padded to four digits. *)
Lemma digits_four (a b c e : N) :
  (a < 10)%N -> (b < 10)%N -> (c < 10)%N -> (e < 10)%N ->
  replicate (4 - length (time.digits (10 * (10 * (10 * a + b) + c) + e)))
            "0"%char
    ++ time.digits (10 * (10 * (10 * a + b) + c) + e)
  = [pretty_N_char a; pretty_N_char b; pretty_N_char c; pretty_N_char e].
Proof.
  intros Ha Hb Hc He. unfold time.digits, pretty, pretty_N.
  destruct (decide (a = 0%N)) as [->|Hna].
  - destruct (decide (b = 0%N)) as [->|Hnb].
    + destruct (decide (c = 0%N)) as [->|Hnc].
      * destruct (decide (e = 0%N)) as [->|Hne]; [done|].
        rewrite decide_False by lia.
        change (10 * (10 * (10 * 0 + 0) + 0) + e)%N with e.
        by rewrite pretty_N_go_digit by (done || lia).
      * rewrite decide_False by lia.
        rewrite pretty_N_go_snoc by (done || lia).
        change (10 * (10 * 0 + 0) + c)%N with c.
        by rewrite pretty_N_go_digit by (done || lia).
    + rewrite decide_False by lia.
      rewrite pretty_N_go_snoc by (done || lia).
      rewrite pretty_N_go_snoc by (done || lia).
      change (10 * 0 + b)%N with b.
      by rewrite pretty_N_go_digit by (done || lia).
  - rewrite decide_False by lia.
    rewrite pretty_N_go_snoc by (done || lia).
    rewrite pretty_N_go_snoc by (done || lia).
    rewrite pretty_N_go_snoc by (done || lia).
    by rewrite pretty_N_go_digit by (done || lia).
Qed.

Lemma atoi_four (a b c e : N) :
  (a < 10)%N -> (b < 10)%N -> (c < 10)%N -> (e < 10)%N ->
  time.atoi [pretty_N_char a; pretty_N_char b; pretty_N_char c; pretty_N_char e]
  = Some (Z.of_N (10 * (10 * (10 * a + b) + c) + e)).
Proof.
  intros Ha Hb Hc He.
  destruct (pretty_N_char_digit a Ha) as [Da Va].
  destruct (pretty_N_char_digit b Hb) as [Db Vb].
  destruct (pretty_N_char_digit c Hc) as [Dc Vc].
  destruct (pretty_N_char_digit e He) as [De Ve].
  destruct (isDigit_not_sign _ Da) as [Hm Hp].
  unfold time.atoi.
  rewrite bool_decide_eq_false_2 by done.
  rewrite bool_decide_eq_false_2 by done.
  cbn [time.leadingInt]. rewrite Da, Db, Dc, De, Va, Vb, Vc, Ve.
  f_equal. lia.
Qed.

Lemma digits_two (a b : N) :
  (a < 10)%N -> (b < 10)%N ->
  replicate (2 - length (time.digits (10 * a + b))) "0"%char
    ++ time.digits (10 * a + b)
  = [pretty_N_char a; pretty_N_char b].
Proof.
  intros Ha Hb. unfold time.digits, pretty, pretty_N.
  destruct (decide (a = 0%N)) as [->|Hna].
  - destruct (decide (b = 0%N)) as [->|Hnb]; [done|].
    rewrite decide_False by lia. change (10 * 0 + b)%N with b.
    by rewrite pretty_N_go_digit by (done || lia).
  - rewrite decide_False by lia.
    rewrite pretty_N_go_snoc by (done || lia).
    by rewrite pretty_N_go_digit by (done || lia).
Qed.

Lemma getnum_two (a b : N) (rest : gostring) :
  (a < 10)%N -> (b < 10)%N ->
  time.getnum (pretty_N_char a :: pretty_N_char b :: rest) true
  = Some (Z.of_N a * 10 + Z.of_N b, rest).
Proof.
  intros Ha Hb.
  destruct (pretty_N_char_digit a Ha) as [Da Va].
  destruct (pretty_N_char_digit b Hb) as [Db Vb].
  unfold time.getnum. by rewrite Da, Db, Va, Vb.
Qed.

End Digits.

(** *** The text of a date and the names the filter accepts *)
Section DateText.

Lemma appendInt_four (y : Z) :
  0 <= y <= 9999 ->
  exists c0 c1 c2 c3,
    time.appendInt y 4 = [c0; c1; c2; c3]
    /\ time.isDigit c0 = true
    /\ time.atoi [c0; c1; c2; c3] = Some y.
Proof.
  intros Hy.
  set (a := Z.to_N (y / 1000)). set (b := Z.to_N (y / 100 mod 10)).
  set (c := Z.to_N (y / 10 mod 10)). set (e := Z.to_N (y mod 10)).
  assert (Hd : (a < 10)%N /\ (b < 10)%N /\ (c < 10)%N /\ (e < 10)%N
               /\ Z.abs_N y = (10 * (10 * (10 * a + b) + c) + e)%N).
  { unfold a, b, c, e. clear a b c e. Z.div_mod_to_equations. lia. }
  destruct Hd as (Ha & Hb & Hc & He & Ey).
  exists (pretty_N_char a), (pretty_N_char b), (pretty_N_char c), (pretty_N_char e).
  split; [|split].
  - unfold time.appendInt. rewrite (proj2 (Z.ltb_ge y 0)) by lia.
    rewrite Ey. cbn [app]. by apply digits_four.
  - by apply pretty_N_char_digit.
  - rewrite atoi_four by done. f_equal. lia.
Qed.

Lemma appendInt_two (v : Z) :
  0 <= v <= 99 ->
  exists c0 c1,
    time.appendInt v 2 = [c0; c1]
    /\ forall rest, time.getnum (c0 :: c1 :: rest) true = Some (v, rest).
Proof.
  intros Hv. set (a := Z.to_N (v / 10)). set (b := Z.to_N (v mod 10)).
  assert (Hd : (a < 10)%N /\ (b < 10)%N /\ Z.abs_N v = (10 * a + b)%N
               /\ Z.of_N a * 10 + Z.of_N b = v).
  { unfold a, b. clear a b. Z.div_mod_to_equations. lia. }
  destruct Hd as (Ha & Hb & Ev & Eval).
  exists (pretty_N_char a), (pretty_N_char b). split.
  - unfold time.appendInt. rewrite (proj2 (Z.ltb_ge v 0)) by lia.
    rewrite Ev. cbn [app]. by apply digits_two.
  - intros rest. by rewrite getnum_two, Eval.
Qed.

Lemma daysIn_le_31 (m y : Z) : time.daysIn m y <= 31.
Proof.
  destruct (daysIn_cases m y) as [[_ ->]|[[_ ->]|(_ & _ & _ & _ & _ & ->)]];
    [destruct (time.isLeap y)|..]; lia.
Qed.

(** [time.Parse] reads the text of a date of the calendar back. *)
Lemma Parse_dateText (y m d : Z) :
  0 <= y <= 9999 -> 1 <= m <= 12 -> 1 <= d <= time.daysIn m y ->
  time.Parse (dateText y m d) = Some (time.Date y m d).
Proof.
  intros Hy Hm Hd. pose proof (daysIn_le_31 m y) as H31.
  destruct (appendInt_four y Hy) as (c0 & c1 & c2 & c3 & Ey & H0 & Hatoi).
  destruct (appendInt_two m) as (m0 & m1 & Em & Hgm); [lia|].
  destruct (appendInt_two d) as (d0 & d1 & Ed & Hgd); [lia|].
  unfold dateText. rewrite Ey, Em, Ed. cbn [app list_ascii_of_string].
  unfold time.Parse, time.longYear. rewrite H0, Hatoi.
  cbn -[time.getnum time.daysIn time.Date Z.leb Z.ltb].
  rewrite bool_decide_eq_true_2 by done.
  cbn -[time.getnum time.daysIn time.Date Z.leb Z.ltb].
  rewrite Hgm. cbn -[time.getnum time.daysIn time.Date Z.leb Z.ltb].
  rewrite (proj2 (Z.leb_gt m 0)) by lia.
  rewrite (proj2 (Z.ltb_ge 12 m)) by lia.
  cbn -[time.getnum time.daysIn time.Date Z.leb Z.ltb].
  rewrite bool_decide_eq_true_2 by done.
  cbn -[time.getnum time.daysIn time.Date Z.leb Z.ltb].
  rewrite Hgd. cbn -[time.getnum time.daysIn time.Date Z.leb Z.ltb].
  rewrite (proj2 (Z.ltb_ge d 1)) by lia.
  by rewrite (proj2 (Z.ltb_ge (time.daysIn m y) d)) by lia.
Qed.

Lemma dateText_parts (y m d : Z) :
  0 <= y -> 0 <= m -> 0 <= d ->
  exists Y M D,
    dateText y m d = Y ++ "-"%char :: M ++ "-"%char :: D
    /\ ("-"%char ∉ Y) /\ ("-"%char ∉ M) /\ ("-"%char ∉ D).
Proof.
  intros Hy Hm Hd.
  exists (time.appendInt y 4), (time.appendInt m 2), (time.appendInt d 2).
  split; [done|]. auto using appendInt_no_dash.
Qed.

(** The date of an instant of the years 1970 to 9999. *)
Lemma Date_of_valid (t : time.Time) :
  0 <= t < time.Date 10000 1 1 ->
  exists y m d,
    time.Date_of t = (y, m, d)
    /\ 0 <= y <= 9999 /\ 1 <= m <= 12 /\ 1 <= d <= time.daysIn m y
    /\ time.Date y m d = midnight t.
Proof.
  intros Ht. unfold time.Date_of.
  assert (Hns : time.nsPerDay = 86400000000000) by reflexivity.
  assert (Hmax : time.Date 10000 1 1 = 2932897 * time.nsPerDay)
    by (vm_compute; reflexivity).
  assert (Hz : 0 <= t / time.nsPerDay < 2932897).
  { split; [apply Z.div_pos; lia|].
    apply Z.div_lt_upper_bound; lia. }
  destruct (civilFromDays_year (t / time.nsPerDay)) as (y & m & d & E & Hy); [lia|].
  pose proof (daysFromCivil_civilFromDays (t / time.nsPerDay)) as Hinv.
  rewrite E in Hinv.
  assert (Hdoe : 0 <= (t / time.nsPerDay + 719468) mod 146097 < 146097)
    by (apply Z.mod_pos_bound; lia).
  destruct (civilOfDoe_valid ((t / time.nsPerDay + 719468) / 146097) _ Hdoe)
    as (y' & m' & d' & E' & Hm' & Hd').
  unfold time.civilFromDays in E. rewrite E' in E. injection E as -> -> ->.
  exists y, m, d. split; [done|]. split; [done|]. split; [done|]. split; [done|].
  unfold time.Date, midnight. rewrite Hinv.
  pose proof (Z.div_mod t time.nsPerDay). lia.
Qed.

Lemma Format_dateText (t : time.Time) (y m d : Z) :
  time.Date_of t = (y, m, d) -> time.Format t = dateText y m d.
Proof. intros E. unfold time.Format. by rewrite E. Qed.

(** A name with a dash-free field and the text of a date of the calendar
    between the prefix and the extension is accepted, with that date. *)
Lemma accepted_dateText (w : RotateWriter) (x tail : gostring) (y m d : Z) :
  "-"%char ∉ x ->
  0 <= y <= 9999 -> 1 <= m <= 12 -> 1 <= d <= time.daysIn m y ->
  tail = [] \/ (exists r, tail = "-"%char :: r) ->
  accepted w
    (stem (activeName w) ++ str "-" ++ x ++ str "-" ++ dateText y m d ++ tail
       ++ filepath.Ext (activeName w))
    (time.Date y m d).
Proof.
  intros Hx Hy Hm Hd Htail. unfold accepted.
  pose proof (Parse_dateText y m d Hy Hm Hd) as Hparse.
  destruct (dateText_parts y m d) as (Y & M & D & Etext & HY & HM & HD); [lia..|].
  rewrite prefixAndExt_eq. cbn [fst snd].
  assert (Ename :
    stem (activeName w) ++ str "-" ++ x ++ str "-" ++ dateText y m d ++ tail
      ++ filepath.Ext (activeName w)
    = (stem (activeName w) ++ str "-")
        ++ (x ++ str "-" ++ dateText y m d ++ tail)
        ++ filepath.Ext (activeName w)).
  { by rewrite <- !app_assoc. }
  rewrite Ename, timeFromName_sliced.
  assert (Esplit : exists rest,
    strings.Split (x ++ str "-" ++ dateText y m d ++ tail) "-"%char
    = x :: Y :: M :: D :: rest).
  { rewrite Etext. simpl. rewrite Split_app_sep by done.
    rewrite <- app_assoc. simpl. rewrite Split_app_sep by done.
    rewrite <- app_assoc. simpl. rewrite Split_app_sep by done.
    destruct Htail as [->|[r ->]].
    - exists []. rewrite app_nil_r. by rewrite Split_no_sep.
    - exists (strings.Split r "-"%char). by rewrite Split_app_sep. }
  destruct Esplit as [rest ->]. cbv zeta.
  cbn [length Nat.ltb Nat.leb drop take]. rewrite take_0.
  assert (Ejoin : strings.Join [Y; M; D] (str "-") = dateText y m d).
  { by rewrite Etext. }
  by rewrite Ejoin, Hparse.
Qed.

End DateText.

(** X20 (timeFromName, prefixAndExt): the names the filter accepts.  A name
    made of the file name's stem, a dash, a field without a dash, a dash,
    a date written as by [backupName], then nothing or a dash and anything,
    and the extension, is accepted with the start of that day as its time:
    the date is looked for one field later than [backupName] puts it. *)
Theorem timeFromName_accepts_shifted_date (w : RotateWriter) (x tail : gostring)
    (t : time.Time) :
  "-"%char ∉ x ->
  0 <= t < time.Date 10000 1 1 ->
  tail = [] \/ (exists r, tail = "-"%char :: r) ->
  accepted w
    (stem (activeName w) ++ str "-" ++ x ++ str "-" ++ time.Format t ++ tail
       ++ filepath.Ext (activeName w))
    (midnight t).
Proof.
  intros Hx Ht Htail.
  destruct (Date_of_valid t Ht) as (y & m & d & Edate & Hy & Hm & Hd & Emid).
  rewrite (Format_dateText t y m d Edate), <- Emid.
  by apply accepted_dateText.
Qed.

Lemma timeFromName_accepts_shifted_date_witness :
  accepted (writer exampleFull)
    (stem (activeName (writer exampleFull)) ++ str "-" ++ str "old" ++ str "-"
       ++ time.Format (noon 2024 3 10) ++ str "-1"
       ++ filepath.Ext (activeName (writer exampleFull)))
    (midnight (noon 2024 3 10)).
Proof.
  apply (timeFromName_accepts_shifted_date (writer exampleFull) (str "old") (str "-1")
           (noon 2024 3 10)).
  - vm_compute. intros H. repeat (apply elem_of_cons in H as [H|H]; [discriminate|]).
    by apply elem_of_nil in H.
  - vm_compute. split; [discriminate|reflexivity].
  - right. by eexists.
Defined.

(** *** Backups and the sweep; a failing [os.Stat] *)
(** X21 (mill, timeFromName, backupName): the sweep never removes a backup.
    A file that carries a name [backupName] builds for the writer's file
    (at a clock from 1970 on) is left as it is by every sweep, whatever
    the limits. *)
Theorem mill_keeps_backups (env : os.Env) (st : State) :
  sweepSafe (writer st) (dirents st) ->
  exists st',
    mill env st = Some (tt, st')
    /\ forall (t : time.Time) (i : nat),
         0 <= t ->
         dirents st' !! backupOf (writer st) t i
         = dirents st !! backupOf (writer st) t i.
Proof.
  intros Hsafe. destruct (mill_total env st Hsafe) as [st' Hm].
  exists st'. split; [done|]. intros t i Ht.
  destruct (mill_spec _ _ _ _ Hm) as (_ & _ & Hframe).
  destruct (Hframe (backupOf (writer st) t i)) as [H|[_ [u Hu]]]; [done|].
  rewrite timeFromName_backupOf in Hu by done. discriminate.
Qed.

Lemma mill_keeps_backups_witness :
  exists st',
    mill exampleEnv exampleFullPlain = Some (tt, st')
    /\ forall (t : time.Time) (i : nat),
         0 <= t ->
         dirents st' !! backupOf (writer exampleFullPlain) t i
         = dirents exampleFullPlain !! backupOf (writer exampleFullPlain) t i.
Proof.
  apply (mill_keeps_backups exampleEnv exampleFullPlain).
  apply sweepSafeb_sound. vm_compute. reflexivity.
Defined.

(** X22 (Write, rotate, openNew): [openNew] takes every error of [os.Stat]
    for a missing file.  When the bytes do not fit (the sum within the
    range of [int64], so that the source's sum does not wrap) and [os.Stat]
    fails while the file can still be created, the rotation makes no
    backup: the live file is truncated, and after the call it holds the new
    bytes only. *)
Theorem rotation_truncates_when_Stat_fails (env : os.Env) (p : list byte)
    (st : State) (f : os.File) :
  opened st ->
  dirents st !! activeName (writer st) = Some f ->
  Z.of_nat (length p) <= maxSize (writer st) ->
  maxSize (writer st) < size (writer st) + Z.of_nat (length p) ->
  exact64 (size (writer st) + Z.of_nat (length p)) ->
  os.close_err env = false ->
  os.mkdir_err env = false ->
  os.stat_err env = true ->
  os.create_err env = false ->
  os.write_limit env = None ->
  sweepSafe (writer st) (dirents st) ->
  exists st',
    Write env p st = Some ((Z.of_nat (length p), None), st')
    /\ dirents st' !! activeName (writer st) = Some (os.mkFile false (os.mode f) p)
    /\ (forall n, is_Some (dirents st' !! n) -> is_Some (dirents st !! n))
    /\ compressJobs st' = compressJobs st.
Proof.
  intros (Hfile & g & Hg & Hd & Hsz) Hf Hlen Hover _ Hcl Hmk Hst Hcr Hwl Hsafe.
  rewrite Hf in Hg. injection Hg as <-.
  destruct st as [w fs jobs]. cbn [writer dirents compressJobs] in *.
  set (fs1 := <[activeName w := os.mkFile false (os.mode f) []]> fs).
  set (w1 := set_size 0 (set_file (Some (activeName w)) (set_file None w))).
  assert (Hsafe1 : sweepSafe (writer (mkState w1 fs1 jobs))
                             (dirents (mkState w1 fs1 jobs))).
  { intros n h Hn Hdn. cbn [writer dirents] in *.
    change (prefixAndExt w1) with (prefixAndExt w). unfold fs1 in Hn.
    destruct (decide (n = activeName w)) as [->|Hne].
    - by rewrite timeFromName_active.
    - rewrite lookup_insert_ne in Hn by done. by eapply Hsafe. }
  destruct (mill_total env _ Hsafe1) as [st2 Hm].
  pose proof (mill_spec _ _ _ _ Hm) as (Hw2 & Hj2 & Hframe).
  pose proof (mill_keeps_active _ _ _ _ Hm) as (_ & _ & Ha2).
  destruct st2 as [w2 fs2 jobs2]. cbn [writer dirents compressJobs] in *.
  subst w2 jobs2. change (activeName w1) with (activeName w) in Ha2.
  unfold fs1 in Ha2. rewrite lookup_insert_eq in Ha2.
  eexists. split.
  { rewrite Write_eq. cbv zeta. cbn [writer].
    rewrite (proj2 (Z.ltb_ge _ _) Hlen), Hfile. cbn beta iota. cbn [writer].
    rewrite (proj2 (Z.ltb_lt _ _) Hover).
    unfold rotate, close. unfold_bind. cbn [writer]. rewrite Hfile, Hcl.
    unfold openNew. unfold_M. rewrite Hmk. unfold os.Stat. rewrite Hst.
    unfold os.OpenFile_create. rewrite Hcr.
    change (activeName (set_file None w)) with (activeName w).
    rewrite Hf, Hd. fold fs1. fold w1. rewrite Hm.
    unfold fileWrite. unfold_M. rewrite Hwl. reflexivity. }
  cbn [writer dirents compressJobs file set_size set_file w1].
  split; [by rewrite lookup_alter_eq, Ha2|]. split; [|done].
  intros n [h Hn]. destruct (decide (n = activeName w)) as [->|Hne]; [by eexists|].
  rewrite lookup_alter_ne in Hn by done.
  destruct (Hframe n) as [H|[H _]]; [|congruence].
  rewrite H in Hn. unfold fs1 in Hn. rewrite lookup_insert_ne in Hn by done.
  by eexists.
Qed.

Lemma rotation_truncates_when_Stat_fails_witness :
  exists st',
    Write statFails (bytes "k") exampleFullPlain
    = Some ((Z.of_nat (length (bytes "k")), None), st')
    /\ dirents st' !! activeName (writer exampleFullPlain)
       = Some (os.mkFile false (os.mode (regular "abcdefghij")) (bytes "k"))
    /\ (forall n, is_Some (dirents st' !! n) -> is_Some (dirents exampleFullPlain !! n))
    /\ compressJobs st' = compressJobs exampleFullPlain.
Proof.
  apply (rotation_truncates_when_Stat_fails statFails (bytes "k") exampleFullPlain
           (regular "abcdefghij")).
  - split; [reflexivity|]. exists (regular "abcdefghij"). repeat split.
  - reflexivity.
  - vm_compute. discriminate.
  - vm_compute. reflexivity.
  - vm_compute. reflexivity.
  - reflexivity.
  - reflexivity.
  - reflexivity.
  - reflexivity.
  - reflexivity.
  - apply sweepSafeb_sound. vm_compute. reflexivity.
Defined.

(** *** What a call may do to the directory *)
Section Keeps.

Lemma appendBytes_nil (f : os.File) : appendBytes [] f = f.
Proof. destruct f. unfold appendBytes. simpl. by rewrite app_nil_r. Qed.

Lemma backupOf_ne_active (w : RotateWriter) (t : time.Time) (i : nat) :
  backupOf w t i <> activeName w.
Proof. apply backupFileName_ne_base. Qed.

Lemma backupOf_rejected (w : RotateWriter) (t u : time.Time) (i : nat) :
  0 <= t -> ~ accepted w (backupOf w t i) u.
Proof.
  intros Ht H. unfold accepted in H. rewrite timeFromName_backupOf in H by done.
  discriminate.
Qed.

Lemma keeps_refl w now fs : keeps w now fs fs.
Proof. split; [intros n _; by left|intros f Hf; by left]. Qed.

Lemma keeps_trans w now fs1 fs2 fs3 :
  0 <= now -> keeps w now fs1 fs2 -> keeps w now fs2 fs3 -> keeps w now fs1 fs3.
Proof.
  intros Hnow [A12 B12] [A23 B23]. split.
  - intros n Hn.
    destruct (A12 n Hn) as [E12|[[E12 Hacc]|[E12 Hb]]];
      destruct (A23 n Hn) as [E23|[[E23 Hacc']|[E23 Hb']]].
    + left. congruence.
    + right. left. done.
    + right. right. split; [congruence|done].
    + right. left. split; [congruence|done].
    + right. left. done.
    + exfalso. destruct Hacc as [t Ht], Hb' as (i & _ & ->).
      by eapply backupOf_rejected.
    + right. right. done.
    + right. right. done.
    + right. right. done.
  - intros f Hf. destruct (B12 f Hf) as [H2|(i & Hi & H2)].
    + apply (B23 f H2).
    + right. exists i. split; [done|].
      destruct (A23 (backupOf w now i) (backupOf_ne_active _ _ _))
        as [E|[[_ [t Ht]]|[E _]]].
      * congruence.
      * exfalso. by eapply backupOf_rejected.
      * congruence.
Qed.

Lemma keeps_sameConfig w w' now fs fs' :
  sameConfig w w' -> keeps w' now fs fs' -> keeps w now fs fs'.
Proof.
  intros Hc. pose proof (sameConfig_activeName _ _ Hc) as Ea.
  pose proof (sameConfig_prefixAndExt _ _ Hc) as Ep.
  unfold keeps, accepted, backupOf. by rewrite Ea, Ep.
Qed.

Lemma keeps_mill env now st u st' :
  mill env st = Some (u, st') -> keeps (writer st) now (dirents st) (dirents st').
Proof.
  intros Hm. destruct (mill_spec _ _ _ _ Hm) as (_ & _ & Hframe).
  destruct (mill_keeps_active _ _ _ _ Hm) as (_ & _ & Ha). split.
  - intros n _. destruct (Hframe n) as [?|[? ?]]; [by left|right; by left].
  - intros f Hf. left. congruence.
Qed.

Lemma keeps_openNew env st r st' :
  os.stat_err env = false ->
  openNew env st = Some (r, st') ->
  keeps (writer st) (os.now env) (dirents st) (dirents st').
Proof.
  intros Hst. destruct st as [w fs jobs]. unfold openNew. unfold_M.
  destruct (os.mkdir_err env); [intros [= <- <-]; apply keeps_refl|].
  unfold os.Stat. rewrite Hst.
  destruct (fs !! activeName w) as [info|] eqn:Ea.
  - destruct (backupName env fs (filename w) (os.now env)) as [b|] eqn:Eb; [|done].
    apply backupName_spec in Eb as (i & Hi & Eb & Hfree & _); [|done].
    change (backupFileName _ _ _ _) with (backupOf w (os.now env) i) in Eb.
    pose proof (backupOf_ne_active w (os.now env) i) as Hne. rewrite <- Eb in Hne.
    destruct (os.rename_err env); [intros [= <- <-]; apply keeps_refl|].
    assert (Hren : keeps w (os.now env) fs (os.Rename fs (activeName w) b)).
    { unfold os.Rename. rewrite Ea. split.
      - intros n Hn. destruct (decide (n = b)) as [->|Hnb].
        + right. right. split; [done|]. by exists i.
        + left. by rewrite lookup_insert_ne, lookup_delete_ne.
      - intros f [= <-]. right. exists i. split; [done|].
        by rewrite <- Eb, lookup_insert_eq. }
    assert (Hgone : os.Rename fs (activeName w) b !! activeName w = None).
    { unfold os.Rename. rewrite Ea.
      by rewrite lookup_insert_ne, lookup_delete_eq. }
    assert (Hnew : forall g,
      keeps w (os.now env) fs (<[activeName w := g]> (os.Rename fs (activeName w) b))).
    { intros g. destruct Hren as [A B]. split.
      - intros n Hn. rewrite lookup_insert_ne by done. by apply A.
      - intros f Hf. destruct (B f Hf) as [H|(j & Hj & H)]; [congruence|].
        right. exists j. split; [done|].
        by rewrite lookup_insert_ne by apply not_eq_sym, backupOf_ne_active. }
    destruct (compress w); unfold_M; unfold os.OpenFile_create;
      (destruct (os.create_err env); [by intros [= <- <-]|]);
      rewrite Hgone; intros [= <- <-]; apply Hnew.
  - unfold os.OpenFile_create. destruct (os.create_err env).
    { intros [= <- <-]. apply keeps_refl. }
    rewrite Ea. intros [= <- <-]. cbn [dirents]. split.
    + intros n Hn. left. by rewrite lookup_insert_ne.
    + intros f Hf. congruence.
Qed.

Lemma keeps_rotate env st r st' :
  os.stat_err env = false -> 0 <= os.now env ->
  rotate env st = Some (r, st') ->
  keeps (writer st) (os.now env) (dirents st) (dirents st').
Proof.
  intros Hst Hnow. unfold rotate. unfold_bind.
  destruct (close env st) as [[[e|] st1]|] eqn:E1; [| |done].
  { apply close_spec in E1 as (_ & _ & _ & Hd & _). intros [= <- <-].
    rewrite Hd. apply keeps_refl. }
  apply close_spec in E1 as (Hc1 & _ & _ & Hd1 & _).
  destruct (openNew env st1) as [[r2 st2]|] eqn:E2; [|done].
  pose proof (openNew_spec _ _ _ _ E2) as (Hc2 & _).
  apply keeps_openNew in E2; [|done]. rewrite Hd1 in E2.
  apply (keeps_sameConfig _ _ _ _ _ Hc1) in E2.
  destruct r2 as [e|]; [by intros [= <- <-]|].
  destruct (mill env st2) as [[u st3]|] eqn:E3; [|done].
  apply (keeps_mill env (os.now env)) in E3. intros [= <- <-].
  eapply keeps_trans; [done|exact E2|].
  eapply keeps_sameConfig; [|exact E3]. by eapply sameConfig_trans.
Qed.

Lemma keeps_openExistingOrNew env k st r st' :
  os.stat_err env = false -> 0 <= os.now env ->
  openExistingOrNew env k st = Some (r, st') ->
  keeps (writer st) (os.now env) (dirents st) (dirents st').
Proof.
  intros Hst Hnow. unfold openExistingOrNew. unfold_bind.
  destruct (mill env st) as [[u st0]|] eqn:Em; [|done].
  pose proof (mill_spec _ _ _ _ Em) as (Hw0 & _).
  apply (keeps_mill env (os.now env)) in Em.
  assert (Hfin : forall r st',
    (openNew env st0 = Some (r, st') \/ rotate env st0 = Some (r, st')) ->
    keeps (writer st) (os.now env) (dirents st) (dirents st')).
  { intros r' st1 [H|H];
      [apply keeps_openNew in H|apply keeps_rotate in H]; try done;
      rewrite Hw0 in H; by eapply keeps_trans. }
  destruct (os.Stat env (dirents st0) (activeName (writer st0))).
  - destruct (_ <=? _); [intros H; apply (Hfin _ _ (or_intror H))|].
    destruct (negb _); [intros H; apply (Hfin _ _ (or_introl H))|].
    by intros [= <- <-].
  - intros H. apply (Hfin _ _ (or_introl H)).
  - by intros [= <- <-].
Qed.

End Keeps.

(** X23 (Write, openExistingOrNew, rotate, openNew, mill): [Write] loses no
    file.  From a state between calls, when [os.Stat] does not fail and the
    clock is not before 1970, whatever else fails: every other file of the
    directory is left as it is or removed by the sweep under a name the
    filter accepts; the live file either stays with bytes put at its end, or
    is found unchanged under a backup name of this clock; and a file under
    a backup name of the writer is never removed or changed. *)
Theorem Write_keeps_files (env : os.Env) (p : list byte) (st : State)
    (r : Z * option error) (st' : State) :
  handleOk st ->
  os.stat_err env = false ->
  0 <= os.now env ->
  Write env p st = Some (r, st') ->
  (forall n g, n <> activeName (writer st) -> dirents st !! n = Some g ->
     dirents st' !! n = Some g
     \/ (dirents st' !! n = None /\ exists t, accepted (writer st) n t))
  /\ (forall f, dirents st !! activeName (writer st) = Some f ->
        (exists q, dirents st' !! activeName (writer st) = Some (appendBytes q f))
        \/ exists i : nat,
             (1 <= i)%nat
             /\ dirents st' !! backupOf (writer st) (os.now env) i = Some f)
  /\ (forall (t : time.Time) (i : nat) g,
        0 <= t -> dirents st !! backupOf (writer st) t i = Some g ->
        dirents st' !! backupOf (writer st) t i = Some g).
Proof.
  intros Hok Hst Hnow HW.
  (* the directory before the bytes are written, and the bytes *)
  assert (Hmid : exists fs1 q,
    keeps (writer st) (os.now env) (dirents st) fs1
    /\ dirents st' = alter (appendBytes q) (activeName (writer st)) fs1).
  { revert HW. rewrite Write_eq. cbv zeta.
    assert (Hid : forall fs : gmap gostring os.File,
      fs = alter (appendBytes []) (activeName (writer st)) fs).
    { intros fs. apply map_eq. intros n.
      destruct (decide (n = activeName (writer st))) as [->|Hne].
      - rewrite lookup_alter_eq. destruct (fs !! _); [|done]. simpl.
        by rewrite appendBytes_nil.
      - by rewrite lookup_alter_ne. }
    assert (Hwrite : forall st2 n err st3,
      sameConfig (writer st) (writer st2) -> opened st2 ->
      keeps (writer st) (os.now env) (dirents st) (dirents st2) ->
      fileWrite env p st2 = Some ((n, err), st3) ->
      exists fs1 q,
        keeps (writer st) (os.now env) (dirents st) fs1
        /\ dirents st3 = alter (appendBytes q) (activeName (writer st)) fs1).
    { intros st2 n err st3 Hc (Hf2 & _) Hk E3.
      apply fileWrite_spec in E3 as (_ & _ & H3). rewrite Hf2 in H3.
      destruct H3 as (q & _ & Hfs & _). exists (dirents st2), q. split; [done|].
      by rewrite Hfs, (sameConfig_activeName _ _ Hc). }
    destruct (maxSize (writer st) <? Z.of_nat (length p)) eqn:Eov.
    { intros [= <- <-]. exists (dirents st), []. split; [apply keeps_refl|apply Hid]. }
    apply Z.ltb_ge in Eov.
    destruct (file (writer st)) as [h|] eqn:Ef.
    - destruct Hok as [Hnone|[Hop _]]; [congruence|].
      destruct (maxSize (writer st) <? size (writer st) + Z.of_nat (length p)).
      + destruct (rotate env st) as [[[e|] st2]|] eqn:E2; [| |done].
        * apply keeps_rotate in E2; [|done..]. intros [= <- <-].
          exists (dirents st2), []. split; [done|apply Hid].
        * pose proof (rotate_spec _ _ _ _ E2) as (Hc2 & Ho2 & _).
          apply keeps_rotate in E2; [|done..].
          destruct (fileWrite env p st2) as [[[n err] st3]|] eqn:E3; [|done].
          intros [= <- <-]. cbn [dirents]. by eapply Hwrite.
      + destruct (fileWrite env p st) as [[[n err] st3]|] eqn:E3; [|done].
        intros [= <- <-]. cbn [dirents].
        eapply Hwrite; [apply sameConfig_refl|done|apply keeps_refl|done].
    - destruct (openExistingOrNew env (length p) st) as [[r1 st1]|] eqn:E1; [|done].
      pose proof (openExistingOrNew_spec _ _ _ _ _ Ef E1) as (Hc1 & Hr1).
      apply keeps_openExistingOrNew in E1; [|done..].
      destruct r1 as [e|].
      { intros [= <- <-]. exists (dirents st1), []. split; [done|apply Hid]. }
      destruct Hr1 as (Ho1 & Hsz).
      assert (Hms : maxSize (writer st1) = maxSize (writer st)) by apply Hc1.
      rewrite (proj2 (Z.ltb_ge (maxSize (writer st1)) _)) by (destruct Hsz; lia).
      destruct (fileWrite env p st1) as [[[n err] st3]|] eqn:E3; [|done].
      intros [= <- <-]. cbn [dirents]. by eapply Hwrite. }
  destruct Hmid as (fs1 & q & [A B] & ->).
  assert (K1 : forall n g, n <> activeName (writer st) -> dirents st !! n = Some g ->
    alter (appendBytes q) (activeName (writer st)) fs1 !! n = Some g
    \/ (alter (appendBytes q) (activeName (writer st)) fs1 !! n = None
        /\ exists t, accepted (writer st) n t)).
  { intros n g Hn Hg. rewrite lookup_alter_ne by done.
    destruct (A n Hn) as [E|[E|[E _]]]; [left; congruence|by right|congruence]. }
  split; [exact K1|]. split.
  - intros f Hf. destruct (B f Hf) as [H|(i & Hi & H)].
    + left. exists q. by rewrite lookup_alter_eq, H.
    + right. exists i. split; [done|].
      by rewrite lookup_alter_ne by apply not_eq_sym, backupOf_ne_active.
  - intros t i g Ht Hg.
    destruct (K1 _ g (backupOf_ne_active (writer st) t i) Hg) as [H|[_ [u Hu]]];
      [done|].
    exfalso. by eapply backupOf_rejected.
Qed.

Lemma Write_keeps_files_witness :
  (forall n g, n <> activeName (writer exampleFull) ->
     dirents exampleFull !! n = Some g ->
     dirents
       (mkState (mkRotateWriter (str "logs/app.log") 10 7 3 true (Some (str "app.log")) 1)
                {[ str "app.log" := regular "k";
                   str "app-2024-03-10-1.log" := regular "abcdefghij" ]}
                [str "app-2024-03-10-1.log"]) !! n = Some g
     \/ (dirents
           (mkState (mkRotateWriter (str "logs/app.log") 10 7 3 true
                                    (Some (str "app.log")) 1)
                    {[ str "app.log" := regular "k";
                       str "app-2024-03-10-1.log" := regular "abcdefghij" ]}
                    [str "app-2024-03-10-1.log"]) !! n = None
         /\ exists t, accepted (writer exampleFull) n t))
  /\ (forall f, dirents exampleFull !! activeName (writer exampleFull) = Some f ->
        (exists q,
           dirents
             (mkState (mkRotateWriter (str "logs/app.log") 10 7 3 true
                                      (Some (str "app.log")) 1)
                      {[ str "app.log" := regular "k";
                         str "app-2024-03-10-1.log" := regular "abcdefghij" ]}
                      [str "app-2024-03-10-1.log"]) !! activeName (writer exampleFull)
           = Some (appendBytes q f))
        \/ exists i : nat,
             (1 <= i)%nat
             /\ dirents
                  (mkState (mkRotateWriter (str "logs/app.log") 10 7 3 true
                                           (Some (str "app.log")) 1)
                           {[ str "app.log" := regular "k";
                              str "app-2024-03-10-1.log" := regular "abcdefghij" ]}
                           [str "app-2024-03-10-1.log"])
                  !! backupOf (writer exampleFull) (os.now exampleEnv) i = Some f)
  /\ (forall (t : time.Time) (i : nat) g,
        0 <= t -> dirents exampleFull !! backupOf (writer exampleFull) t i = Some g ->
        dirents
          (mkState (mkRotateWriter (str "logs/app.log") 10 7 3 true
                                   (Some (str "app.log")) 1)
                   {[ str "app.log" := regular "k";
                      str "app-2024-03-10-1.log" := regular "abcdefghij" ]}
                   [str "app-2024-03-10-1.log"])
          !! backupOf (writer exampleFull) t i = Some g).
Proof.
  apply (Write_keeps_files exampleEnv (bytes "k") exampleFull
           (Z.of_nat (length (bytes "k")), None)).
  - right. split.
    + split; [reflexivity|]. exists (regular "abcdefghij"). repeat split.
    + vm_compute. discriminate.
  - reflexivity.
  - vm_compute. discriminate.
  - vm_compute. reflexivity.
Defined.

(** *** The shape of the accepted names *)
Section FilterShape.

Lemma Split_nonempty (s : gostring) (c : ascii) : strings.Split s c <> [].
Proof.
  destruct s as [|x s]; simpl; [done|].
  case_bool_decide; [done|]. by destruct (strings.Split s c).
Qed.

(** The first field of [Split] and what follows it. *)
Lemma Split_inv (s : gostring) (c : ascii) (a : gostring) (l : list gostring) :
  strings.Split s c = a :: l ->
  (c ∉ a)
  /\ ((l = [] /\ s = a)
      \/ exists s', s = a ++ c :: s' /\ strings.Split s' c = l).
Proof.
  revert a l. induction s as [|x s IH]; intros a l; simpl.
  - intros [= <- <-]. split; [apply not_elem_of_nil|by left].
  - case_bool_decide as Hx.
    + intros [= <- <-]. split; [apply not_elem_of_nil|].
      right. exists s. by subst.
    + destruct (strings.Split s c) as [|field fields] eqn:E.
      { by destruct (Split_nonempty s c). }
      intros [= <- <-]. destruct (IH _ _ eq_refl) as (Hc & Hs).
      split; [set_solver|].
      destruct Hs as [[-> ->]|(s' & -> & Hs')]; [by left|].
      right. by exists s'.
Qed.

Lemma isDigit_inv (c : ascii) :
  time.isDigit c = true -> exists r, (r < 10)%N /\ c = pretty_N_char r.
Proof.
  destruct c as [[] [] [] [] [] [] [] []]; intros H; vm_compute in H;
    try discriminate H;
    first [ by exists 0%N | by exists 1%N | by exists 2%N | by exists 3%N
          | by exists 4%N | by exists 5%N | by exists 6%N | by exists 7%N
          | by exists 8%N | by exists 9%N ].
Qed.

Lemma longYear_inv (v v1 : gostring) (y : Z) :
  time.longYear v = Some (y, v1) ->
  exists a b c e,
    (a < 10)%N /\ (b < 10)%N /\ (c < 10)%N /\ (e < 10)%N
    /\ v = pretty_N_char a :: pretty_N_char b :: pretty_N_char c
             :: pretty_N_char e :: v1
    /\ y = Z.of_N (10 * (10 * (10 * a + b) + c) + e).
Proof.
  unfold time.longYear.
  destruct v as [|c0 [|c1 [|c2 [|c3 v']]]]; try done.
  destruct (time.isDigit c0) eqn:D0; [|done].
  destruct (time.atoi [c0; c1; c2; c3]) as [y'|] eqn:Ea; [|done].
  intros [= <- <-].
  destruct (isDigit_not_sign _ D0) as [Hm Hp].
  assert (Hd : time.isDigit c1 = true /\ time.isDigit c2 = true
               /\ time.isDigit c3 = true).
  { revert Ea. unfold time.atoi.
    rewrite bool_decide_eq_false_2 by done.
    rewrite bool_decide_eq_false_2 by done.
    cbn [time.leadingInt]. rewrite D0.
    destruct (time.isDigit c1); [|done].
    destruct (time.isDigit c2); [|done].
    destruct (time.isDigit c3); [|done]. done. }
  destruct Hd as (D1 & D2 & D3).
  destruct (isDigit_inv _ D0) as (a & Ha & ->).
  destruct (isDigit_inv _ D1) as (b & Hb & ->).
  destruct (isDigit_inv _ D2) as (c & Hc & ->).
  destruct (isDigit_inv _ D3) as (e & He & ->).
  exists a, b, c, e. repeat (split; [done|]).
  rewrite atoi_four in Ea by done. by injection Ea as <-.
Qed.

Lemma getnum_fixed_inv (v v1 : gostring) (x : Z) :
  time.getnum v true = Some (x, v1) ->
  exists a b,
    (a < 10)%N /\ (b < 10)%N
    /\ v = pretty_N_char a :: pretty_N_char b :: v1
    /\ x = Z.of_N a * 10 + Z.of_N b.
Proof.
  unfold time.getnum. destruct v as [|c0 [|c1 v']]; try done.
  - by destruct (time.isDigit c0).
  - destruct (time.isDigit c0) eqn:D0; [|done].
    destruct (time.isDigit c1) eqn:D1; [|done].
    intros [= <- <-].
    destruct (isDigit_inv _ D0) as (a & Ha & ->).
    destruct (isDigit_inv _ D1) as (b & Hb & ->).
    exists a, b. repeat (split; [done|]).
    destruct (pretty_N_char_digit a Ha) as [_ ->].
    by destruct (pretty_N_char_digit b Hb) as [_ ->].
Qed.

Lemma skipDash_inv (v v1 : gostring) :
  time.skipDash v = Some v1 -> v = "-"%char :: v1.
Proof.
  unfold time.skipDash. destruct v as [|c v']; [done|].
  case_bool_decide; [|done]. intros [= <-]. by subst.
Qed.

(** What [time.Parse] accepts is the text of a date of the calendar. *)
Lemma Parse_inv (s : gostring) (t : time.Time) :
  time.Parse s = Some t ->
  exists y m d,
    0 <= y <= 9999 /\ 1 <= m <= 12 /\ 1 <= d <= time.daysIn m y
    /\ s = dateText y m d /\ t = time.Date y m d.
Proof.
  unfold time.Parse.
  destruct (time.longYear s) as [[y v1]|] eqn:E1; [|done].
  cbn -[time.getnum time.daysIn time.Date Z.leb Z.ltb time.skipDash].
  destruct (time.skipDash v1) as [v2|] eqn:E2; [|done].
  cbn -[time.getnum time.daysIn time.Date Z.leb Z.ltb time.skipDash].
  destruct (time.getnum v2 true) as [[m v3]|] eqn:E3; [|done].
  cbn -[time.getnum time.daysIn time.Date Z.leb Z.ltb time.skipDash].
  destruct ((m <=? 0) || (12 <? m)) eqn:Em; [done|].
  destruct (time.skipDash v3) as [v4|] eqn:E4; [|done].
  cbn -[time.getnum time.daysIn time.Date Z.leb Z.ltb time.skipDash].
  destruct (time.getnum v4 true) as [[d v5]|] eqn:E5; [|done].
  cbn -[time.getnum time.daysIn time.Date Z.leb Z.ltb time.skipDash].
  destruct v5; [|done].
  destruct ((d <? 1) || (time.daysIn m y <? d)) eqn:Ed; [done|].
  intros [= <-].
  apply orb_false_iff in Em as [Em1 Em2]. apply Z.leb_gt in Em1. apply Z.ltb_ge in Em2.
  apply orb_false_iff in Ed as [Ed1 Ed2]. apply Z.ltb_ge in Ed1. apply Z.ltb_ge in Ed2.
  apply longYear_inv in E1 as (a & b & c & e & Ha & Hb & Hc & He & -> & ->).
  apply skipDash_inv in E2 as ->.
  apply getnum_fixed_inv in E3 as (m0 & m1 & Hm0 & Hm1 & -> & ->).
  apply skipDash_inv in E4 as ->.
  apply getnum_fixed_inv in E5 as (d0 & d1 & Hd0 & Hd1 & -> & ->).
  do 3 eexists. split; [|split; [|split; [|split; [|reflexivity]]]]; try lia.
  unfold dateText, time.appendInt.
  rewrite !(proj2 (Z.ltb_ge _ 0)) by lia. cbn [app].
  replace (Z.abs_N (Z.of_N (10 * (10 * (10 * a + b) + c) + e)))
    with (10 * (10 * (10 * a + b) + c) + e)%N by lia.
  replace (Z.abs_N (Z.of_N m0 * 10 + Z.of_N m1)) with (10 * m0 + m1)%N by lia.
  replace (Z.abs_N (Z.of_N d0 * 10 + Z.of_N d1)) with (10 * d0 + d1)%N by lia.
  by rewrite digits_four, !digits_two by done.
Qed.

(** A name the filter accepts lies between the prefix and the extension. *)
Lemma timeFromName_Some_inv (n prefix ext : gostring) (t : time.Time) :
  timeFromName n prefix ext = Some (t, None) ->
  exists ts,
    n = prefix ++ ts ++ ext
    /\ (4 <= length (strings.Split ts "-"%char))%nat
    /\ time.Parse (strings.Join (take 3 (drop 1 (strings.Split ts "-"%char)))
                                (str "-")) = Some t.
Proof.
  unfold timeFromName.
  destruct (strings.HasPrefix n prefix) eqn:Hp; [|done].
  destruct (strings.HasSuffix n ext) eqn:Hs; [|done]. cbn [negb].
  destruct (HasPrefix_inv _ _ Hp) as [r Hr].
  destruct (HasSuffix_inv _ _ Hs) as (q & Hq & Hlen).
  unfold slice.
  destruct ((length prefix <=? length n - length ext)%nat
            && (length n - length ext <=? length n)%nat) eqn:Hb; [|done].
  apply andb_true_iff in Hb as [Hb _]. apply Nat.leb_le in Hb.
  cbn -[strings.Split strings.Join time.Parse Nat.ltb take drop].
  set (ts := take (length n - length ext - length prefix) (drop (length prefix) n)).
  destruct (length (strings.Split ts "-"%char) <? 4)%nat eqn:El; [done|].
  apply Nat.ltb_ge in El.
  destruct (time.Parse _) as [t'|] eqn:Ep; [|done]. intros [= <-].
  exists ts. split; [|done].
  assert (Edrop : drop (length prefix) n = r).
  { rewrite Hr. by rewrite drop_app_length. }
  assert (Ets : ts = take (length q - length prefix) r).
  { unfold ts. by rewrite Edrop, Hlen. }
  assert (Eq : prefix ++ take (length q - length prefix) r = q
               /\ drop (length q - length prefix) r = ext).
  { apply app_inj_1.
    - rewrite length_app, length_take.
      assert (length n = length prefix + length r)%nat
        by (rewrite Hr at 1; by rewrite length_app).
      assert (length n = length q + length ext)%nat
        by (rewrite Hq at 1; by rewrite length_app).
      lia.
    - rewrite <- app_assoc, take_drop. congruence. }
  destruct Eq as [_ Eext].
  rewrite Ets. transitivity (prefix ++ r); [done|]. f_equal.
  rewrite <- (take_drop (length q - length prefix) r) at 1. by rewrite Eext.
Qed.

End FilterShape.

(** X24 (timeFromName, prefixAndExt): the filter, characterised.  The names
    [timeFromName] accepts for a writer are exactly those made of the file
    name's stem, a dash, one field without a dash, a dash, a calendar date
    [YYYY-MM-DD] with four, two and two digits, then nothing or a dash and
    anything, and the extension; the time is that date. *)
Theorem accepted_iff_shifted_shape (w : RotateWriter) (n : gostring)
    (t : time.Time) :
  accepted w n t
  <-> exists (x tail : gostring) (y m d : Z),
        ("-"%char ∉ x)
        /\ 0 <= y <= 9999 /\ 1 <= m <= 12 /\ 1 <= d <= time.daysIn m y
        /\ (tail = [] \/ exists r, tail = "-"%char :: r)
        /\ n = stem (activeName w) ++ str "-" ++ x ++ str "-" ++ dateText y m d
                 ++ tail ++ filepath.Ext (activeName w)
        /\ t = time.Date y m d.
Proof.
  split.
  - unfold accepted. rewrite prefixAndExt_eq. cbn [fst snd]. intros H.
    apply timeFromName_Some_inv in H as (ts & -> & Hlen & Hparse).
    destruct (strings.Split ts "-"%char) as [|x [|Y [|M [|D rest]]]] eqn:Es;
      try (simpl in Hlen; lia).
    cbn [drop take] in Hparse. rewrite take_0 in Hparse.
    apply Parse_inv in Hparse as (y & m & d & Hy & Hm & Hd & Etext & ->).
    apply Split_inv in Es as (Hx & [[? _]|(s1 & -> & Es)]); [done|].
    apply Split_inv in Es as (HY & [[? _]|(s2 & -> & Es)]); [done|].
    apply Split_inv in Es as (HM & [[? _]|(s3 & -> & Es)]); [done|].
    apply Split_inv in Es as (HD & Htail).
    assert (Ejoin : Y ++ "-"%char :: M ++ "-"%char :: D = dateText y m d).
    { by rewrite <- Etext. }
    destruct Htail as [[-> ->]|(s4 & -> & _)].
    + exists x, [], y, m, d.
      split; [exact Hx|]. split; [exact Hy|]. split; [exact Hm|].
      split; [exact Hd|]. split; [by left|]. split; [|done].
      rewrite <- Ejoin.
      by repeat (first [rewrite <- app_assoc | progress simpl]).
    + exists x, ("-"%char :: s4), y, m, d.
      split; [exact Hx|]. split; [exact Hy|]. split; [exact Hm|].
      split; [exact Hd|]. split; [right; by eexists|]. split; [|done].
      rewrite <- Ejoin.
      by repeat (first [rewrite <- app_assoc | progress simpl]).
  - intros (x & tail & y & m & d & Hx & Hy & Hm & Hd & Htail & -> & ->).
    by apply accepted_dateText.
Qed.

(** *** Runs of calls *)
(** X25 (Write, Close): runs of calls.  For a writer whose file name has no
    dash in its extension, every sequence of [Write] and [Close] calls in
    which no [os.Stat] fails and whose bytes, on top of the live file's,
    stay within the range of [int64] (so that no sum of the source wraps),
    whatever else fails in each call, runs to its end, and after it the
    configuration is what it was and the handle is nil or open on the
    live file, with [size] the size of that file and within [maxSize]. *)
Theorem calls_keep_the_writer_sound (calls : list Call) (st0 : State) :
  "-"%char ∉ filepath.Ext (activeName (writer st0)) ->
  statWorks calls ->
  exact64 (liveSize st0 + bytesOf calls) ->
  handleOk st0 ->
  exists st,
    runCalls calls st0 = Some st
    /\ handleOk st
    /\ sameConfig (writer st0) (writer st).
Proof.
  intros Hnd _ _. apply alwaysSafe_no_dash in Hnd. revert st0 Hnd.
  induction calls as [|[env p|env] calls IH]; intros st0 Hsafe Hok; simpl.
  - exists st0. split; [done|]. split; [done|apply sameConfig_refl].
  - destruct (Write_total env p st0 Hsafe) as (n & err & st1 & E). rewrite E.
    destruct (Write_spec _ _ _ _ _ _ Hok E) as (Hc & Hok1 & _).
    destruct (IH st1) as (st & Hrun & Hok' & Hc');
      [by eapply alwaysSafe_sameConfig|done|].
    exists st. split; [done|]. split; [done|]. by eapply sameConfig_trans.
  - unfold Close. destruct (close_total env st0) as (r & st1 & E). rewrite E.
    destruct (close_spec _ _ _ _ E) as (Hc & Hf & _).
    destruct (IH st1) as (st & Hrun & Hok' & Hc');
      [by eapply alwaysSafe_sameConfig|by left|].
    exists st. split; [done|]. split; [done|]. by eapply sameConfig_trans.
Qed.

Lemma calls_keep_the_writer_sound_witness :
  exists st,
    runCalls exampleCalls exampleFresh = Some st
    /\ handleOk st
    /\ sameConfig (writer exampleFresh) (writer st).
Proof.
  apply (calls_keep_the_writer_sound exampleCalls exampleFresh).
  - vm_compute. intros H. repeat (apply elem_of_cons in H as [H|H]; [discriminate|]).
    by apply elem_of_nil in H.
  - vm_compute. repeat split.
  - vm_compute. reflexivity.
  - by left.
Defined.
